(** * pyxtuml: the metaclass / association engine

    A shallow embedding of [xtuml/meta.py] (links are the truth, referential
    attributes are computed properties) and of the relate / unrelate path of
    [xtuml/model.py] (referential attributes are copied keys), followed by
    the properties of the engine that are checked against the code.

    Python objects that are mutated in place and shared (metaclasses, links,
    queries, instance dictionaries) live in a store and are referred to by
    their identity; every operation threads the store, and an operation that
    raises still returns the store it has mutated so far. *)

From Stdlib Require Import ZArith QArith Qcanon String Ascii List Lia.
From stdpp Require Import base gmap sets list strings pretty option.

Set Warnings "-clear-no-such-hyp".

Local Open Scope Z_scope.
Local Open Scope string_scope.
Local Open Scope list_scope.

(** ** Identifiers *)

(** [str.upper] on ASCII identifiers. *)
Definition upper_ascii (c : ascii) : ascii :=
  let n := nat_of_ascii c in
  if ((97 <=? n) && (n <=? 122))%nat then ascii_of_nat (n - 32) else c.

Fixpoint upper (s : string) : string :=
  match s with
  | EmptyString => EmptyString
  | String c s' => String (upper_ascii c) (upper s')
  end.

(** A relation id is passed around as an [int] or as a [str]. *)
Inductive RelId :=
  | RInt (n : Z)
  | RStr (s : string).

Global Instance RelId_eq_dec : EqDecision RelId.
Proof. solve_decision. Defined.

(** [if isinstance(rel_id, int): rel_id = 'R%d' % rel_id] *)
Definition rel_name (r : RelId) : string :=
  match r with
  | RInt n => "R" +:+ pretty n
  | RStr s => s
  end.

Definition normalize (r : RelId) : RelId := RStr (rel_name r).

(** ** Values held by attributes *)

(** Finite floats are embedded as the rationals they denote. *)
Inductive value :=
  | VNone
  | VBool (b : bool)
  | VInt (n : Z)
  | VReal (x : Qc)
  | VStr (s : string).

Global Instance value_eq_dec : EqDecision value.
Proof. solve_decision. Defined.

Definition value_num (v : value) : option Qc :=
  match v with
  | VBool b => Some (if b then 1%Qc else 0%Qc)
  | VInt n => Some (Q2Qc (inject_Z n))
  | VReal x => Some x
  | _ => None
  end.

(** Python's [==]: numbers (booleans included) compare by numeric value. *)
Definition py_eq (a b : value) : bool :=
  match a, b with
  | VNone, VNone => true
  | VStr s, VStr t => bool_decide (s = t)
  | _, _ =>
      match value_num a, value_num b with
      | Some x, Some y => bool_decide (x = y)
      | _, _ => false
      end
  end.

(** Python's truth value of an attribute value. *)
Definition truthy (v : value) : bool :=
  match v with
  | VNone => false
  | VBool b => b
  | VInt n => negb (n =? 0)%Z
  | VReal x => negb (bool_decide (x = 0%Qc))
  | VStr s => negb (bool_decide (s = ""))
  end.

(** ** Instances, exceptions, results *)

(** An instance is known by its object identity; its class (the
    [__metaclass__] class attribute) never changes, so a reference carries
    it. The instance's [__dict__] lives in the store. *)
Record Inst := mkInst { inst_id : nat; inst_class : nat }.

Global Instance Inst_eq_dec : EqDecision Inst.
Proof. solve_decision. Defined.

Global Instance Inst_countable : Countable Inst.
Proof.
  refine (inj_countable' (λ i, (inst_id i, inst_class i))
                         (λ p, mkInst p.1 p.2) _).
  by intros [].
Defined.

Inductive exn :=
  | MetaException
  | DeleteException
  | RelateException
  | UnrelateException
  | UnknownLinkException
  | UnknownClassException
  | MetaModelException
  | ModelException
  | UnknownAssociationException
  | AttributeError
  | KeyError
  | TypeError
  | RuntimeError
  | RecursionError
  | Dangling (* a reference to an object that is not in the store: no Python
                program can build one *)
  | Diverged (* not an exception: the fuel of a loop of the model ran out,
                which stands for a computation that has not returned *)
  | Unordered. (* not an exception: the program took the first element of
                  a set that holds several, and which one that is the
                  program does not determine *)

Global Instance exn_eq_dec : EqDecision exn.
Proof. solve_decision. Defined.

Inductive result (A : Type) :=
  | Ok (a : A)
  | Raise (e : exn).
Arguments Ok {A} a.
Arguments Raise {A} e.

Definition is_ok {A} (r : result A) : bool :=
  match r with Ok _ => true | Raise _ => false end.

(** Iteration over a Python [set] of instances. A [set] is an unordered
    collection: the order in which it yields its elements comes from the
    hash values of the elements (for an instance of a class without
    [__hash__], from its address) and from the history of the table that
    holds them, and the program fixes neither. What the program does fix
    is that every element is yielded once. [set_iter s l]: the set [s] can
    yield its elements in the order [l]. *)
Definition set_iter (s : gset Inst) (l : list Inst) : Prop :=
  NoDup l ∧ list_to_set l = s.

(** [next(iter(s), None)]: [None] for the empty set and the element of a
    set of one, as every iteration has it; for a set of several the
    element depends on the order of the iteration. *)
Definition set_first (s : gset Inst) : result (option Inst) :=
  match elements s with
  | [] => Ok None
  | [x] => Ok (Some x)
  | _ => Raise Unordered
  end.

(** Modelled from the spec: [xtuml.OrderedSet], the base class of
    [QuerySet], is not part of the sources at hand. It is "an ordered set
    preserving first-encounter order": building one from an iterable keeps
    the first occurrence of every element. *)
Fixpoint OrderedSet (l : list Inst) (seen : list Inst) : list Inst :=
  match l with
  | [] => []
  | x :: l' =>
      if bool_decide (x ∈ seen) then OrderedSet l' seen
      else x :: OrderedSet l' (x :: seen)
  end.

Definition QuerySet (l : list Inst) : list Inst := OrderedSet l [].

(** A Python [dict] whose iteration order is observed: an association list
    in insertion order; assigning to a key that is present keeps its place. *)
Section Dict.
Context {K V : Type} `{EqDecision K}.

Fixpoint dict_get (k : K) (d : list (K * V)) : option V :=
  match d with
  | [] => None
  | (k', v) :: d' => if decide (k = k') then Some v else dict_get k d'
  end.

Fixpoint dict_set (k : K) (v : V) (d : list (K * V)) : list (K * V) :=
  match d with
  | [] => [(k, v)]
  | (k', v') :: d' =>
      if decide (k = k') then (k, v) :: d' else (k', v') :: dict_set k v d'
  end.

Definition dict_values (d : list (K * V)) : list V := snd <$> d.
Definition dict_keys (d : list (K * V)) : list K := fst <$> d.

(** [dict(pairs)] *)
Definition dict_of (pairs : list (K * V)) : list (K * V) :=
  foldl (λ d kv, dict_set kv.1 kv.2 d) [] pairs.
End Dict.

Global Instance value_countable : Countable value.
Proof.
  refine (inj_countable'
    (λ v, match v with
          | VNone => inl (inl ())
          | VBool b => inl (inr b)
          | VInt n => inr (inl n)
          | VReal x => inr (inr (inl x))
          | VStr s => inr (inr (inr s))
          end)
    (λ c, match c with
          | inl (inl _) => VNone
          | inl (inr b) => VBool b
          | inr (inl n) => VInt n
          | inr (inr (inl x)) => VReal x
          | inr (inr (inr s)) => VStr s
          end) _).
  by intros [].
Defined.

(** The key under which a metaclass caches a query:
    [frozenset(list(dictonary_of_values.items()))]. Items are hashed and
    compared with [==], so numbers are keyed by their numeric value. *)
Definition key_value (v : value) : value :=
  match value_num v with
  | Some x => VReal x
  | None => v
  end.

Definition frozenset (items : list (string * value)) : gset (string * value) :=
  list_to_set ((λ kv, (kv.1, key_value kv.2)) <$> items).

(** ** Statements

    A statement transforms the store and returns a value or raises; the
    store it returns when it raises holds what was mutated before. *)
Definition stmt (S A : Type) : Type := S → S * result A.

Definition ret {S A} (a : A) : stmt S A := λ s, (s, Ok a).
Definition raise {S A} (e : exn) : stmt S A := λ s, (s, Raise e).
Definition bind {S A B} (m : stmt S A) (f : A → stmt S B) : stmt S B :=
  λ s, match m s with
       | (s', Ok a) => f a s'
       | (s', Raise e) => (s', Raise e)
       end.
(** an expression that only reads the store *)
Definition read {S A} (f : S → result A) : stmt S A := λ s, (s, f s).

Notation "x <- m ; k" := (bind m (λ x, k))
  (at level 20, m at level 100, k at level 200).
Notation "' p <- m ; k" := (bind m (λ x, match x with p => k end))
  (at level 20, p pattern, m at level 100, k at level 200).

(** [for x in l: body(x)] over a list that the body does not change *)
Fixpoint for_each {S A} (l : list A) (body : A → stmt S unit) : stmt S unit :=
  match l with
  | [] => ret ()
  | x :: l' => _ <- body x; for_each l' body
  end.

(** * xtuml/meta.py *)

Module Meta.

(** Identities of the objects in the store: metaclasses, links, queries. *)
Abbreviation mcid := nat (only parsing).
Abbreviation lid := nat (only parsing).
Abbreviation qid := nat (only parsing).

(** ** class Link(dict) *)
Module Link.
Record t := mk {
  from_metaclass : mcid;
  rel_id : string;
  to_metaclass : mcid;
  phrase : string;
  key_map : list (string * string);
  conditional : bool;
  many : bool;
  (** the dictionary the link itself is: instance -> set of instances *)
  dict : gmap Inst (gset Inst)
}.

Definition set_dict (self : t) (d : gmap Inst (gset Inst)) : t :=
  mk (from_metaclass self) (rel_id self) (to_metaclass self) (phrase self)
     (key_map self) (conditional self) (many self) d.

Definition set_key_map (self : t) (km : list (string * string)) : t :=
  mk (from_metaclass self) (rel_id self) (to_metaclass self) (phrase self)
     km (conditional self) (many self) (dict self).

(** [Link.__init__] *)
Definition init (from_metaclass : mcid) (rel_id : RelId) (to_metaclass : mcid)
    (phrase : string) (conditional many : bool) : t :=
  mk from_metaclass (rel_name rel_id) to_metaclass phrase [] conditional many ∅.

Definition cardinality (self : t) : string :=
  let s := if many self then "M" else "1" in
  if conditional self then s +:+ "C" else s.

(** [self[instance]] where the key is known to be present *)
Definition item (self : t) (instance : Inst) : gset Inst :=
  default ∅ (dict self !! instance).

Definition connect (self : t) (instance another_instance : Inst)
    (check : bool) : t * bool :=
  let self :=
    if bool_decide (is_Some (dict self !! instance)) then self
    else set_dict self (<[instance := ∅]> (dict self)) in
  if bool_decide (another_instance ∈ item self instance) then (self, true)
  else if negb (bool_decide (item self instance = ∅))
          && negb (many self) && check then (self, false)
  else
    (set_dict self
       (<[instance := item self instance ∪ {[another_instance]}]> (dict self)),
     true).

Definition disconnect (self : t) (instance another_instance : Inst) : t * bool :=
  if negb (bool_decide (is_Some (dict self !! instance))) then (self, false)
  else if negb (bool_decide (another_instance ∈ item self instance))
  then (self, false)
  else
    (set_dict self
       (<[instance := item self instance ∖ {[another_instance]}]> (dict self)),
     true).

Definition navigate (self : t) (instance : Inst) : gset Inst :=
  match dict self !! instance with
  | Some s => s
  | None => ∅
  end.
End Link.

(** ** class Association *)
Module Association.
Record t := mk {
  rel_id : RelId;
  source_keys : list string;
  source_link : lid;
  target_keys : list string;
  target_link : lid
}.
End Association.

(** ** class Query *)
Module Query.
(** The generator object made by [evaluate()]: suspended with its list
    iterator at index [i] of the storage, or finished. *)
Inductive generator :=
  | GenAt (i : nat)
  | GenClosed.

Record t := mk {
  (** the list object of the metaclass the query was made on (shared) *)
  storage : mcid;
  items : list (string * value);
  result : list Inst;
  evaluation : option generator
}.

(** [Query.__init__] *)
Definition init (storage : mcid) (kwargs : list (string * value)) : t :=
  mk storage kwargs [] (Some (GenAt 0)).
End Query.

(** ** class MetaClass *)
Module MetaClass.
Record t := mk {
  (** bound to the metamodel of the store, or [None] *)
  metamodel : bool;
  kind : string;
  attributes : list (string * string);
  referential_attributes : gset string;
  identifying_attributes : gset string;
  indices : list (string * list string);
  links : list ((string * RelId * string) * lid);
  (** the properties [formalize] has put on [clazz]: the target link the
      getter follows and the attribute it reads there *)
  clazz : gmap string (lid * string);
  storage : list Inst;
  cache : gmap (gset (string * value)) qid
}.

(** [MetaClass.__init__] *)
Definition init (kind : string) (metamodel : bool) : t :=
  mk metamodel kind [] ∅ ∅ [] [] ∅ [] ∅.

Definition set_attributes (self : t) x : t :=
  mk (metamodel self) (kind self) x (referential_attributes self)
     (identifying_attributes self) (indices self) (links self) (clazz self)
     (storage self) (cache self).
Definition set_referential_attributes (self : t) x : t :=
  mk (metamodel self) (kind self) (attributes self) x
     (identifying_attributes self) (indices self) (links self) (clazz self)
     (storage self) (cache self).
Definition set_identifying_attributes (self : t) x : t :=
  mk (metamodel self) (kind self) (attributes self)
     (referential_attributes self) x (indices self) (links self) (clazz self)
     (storage self) (cache self).
Definition set_indices (self : t) x : t :=
  mk (metamodel self) (kind self) (attributes self)
     (referential_attributes self) (identifying_attributes self) x
     (links self) (clazz self) (storage self) (cache self).
Definition set_links (self : t) x : t :=
  mk (metamodel self) (kind self) (attributes self)
     (referential_attributes self) (identifying_attributes self)
     (indices self) x (clazz self) (storage self) (cache self).
Definition set_clazz (self : t) x : t :=
  mk (metamodel self) (kind self) (attributes self)
     (referential_attributes self) (identifying_attributes self)
     (indices self) (links self) x (storage self) (cache self).
Definition set_storage (self : t) x : t :=
  mk (metamodel self) (kind self) (attributes self)
     (referential_attributes self) (identifying_attributes self)
     (indices self) (links self) (clazz self) x (cache self).
Definition set_cache (self : t) x : t :=
  mk (metamodel self) (kind self) (attributes self)
     (referential_attributes self) (identifying_attributes self)
     (indices self) (links self) (clazz self) (storage self) x.
End MetaClass.

(** ** class MetaModel, and the store *)
Module MetaModel.
Record t := mk {
  metaclasses : list (string * mcid);
  associations : list Association.t;
  (** Modelled from the spec: [xtuml.UUIDGenerator] is not part of the
      sources at hand. "Successive calls yield values distinct from all
      previously issued ids and from the null id (zero)": a counter of
      the ids issued so far. *)
  id_generator : Z
}.
End MetaModel.

Record State := mkState {
  metaclass_objs : gmap mcid MetaClass.t;
  link_objs : gmap lid Link.t;
  query_objs : gmap qid Query.t;
  (** [inst.__dict__], keyed by the attribute name as it was declared *)
  inst_dicts : gmap Inst (gmap string value);
  metamodel : MetaModel.t;
  (** the identity the next allocated object gets *)
  next_object : nat
}.

Definition set_metaclass_objs (s : State) x : State :=
  mkState x (link_objs s) (query_objs s) (inst_dicts s) (metamodel s) (next_object s).
Definition set_link_objs (s : State) x : State :=
  mkState (metaclass_objs s) x (query_objs s) (inst_dicts s) (metamodel s) (next_object s).
Definition set_query_objs (s : State) x : State :=
  mkState (metaclass_objs s) (link_objs s) x (inst_dicts s) (metamodel s) (next_object s).
Definition set_inst_dicts (s : State) x : State :=
  mkState (metaclass_objs s) (link_objs s) (query_objs s) x (metamodel s) (next_object s).
Definition set_metamodel (s : State) x : State :=
  mkState (metaclass_objs s) (link_objs s) (query_objs s) (inst_dicts s) x (next_object s).
Definition set_next_object (s : State) x : State :=
  mkState (metaclass_objs s) (link_objs s) (query_objs s) (inst_dicts s) (metamodel s) x.

(** Statements of [xtuml.meta] *)
Definition M (A : Type) : Type := stmt State A.

Definition the_metaclass (s : State) (m : mcid) : result MetaClass.t :=
  match metaclass_objs s !! m with
  | Some mc => Ok mc
  | None => Raise Dangling
  end.

Definition the_link (s : State) (l : lid) : result Link.t :=
  match link_objs s !! l with
  | Some L => Ok L
  | None => Raise Dangling
  end.

Definition the_query (s : State) (q : qid) : result Query.t :=
  match query_objs s !! q with
  | Some Q => Ok Q
  | None => Raise Dangling
  end.

Definition update_metaclass (m : mcid) (f : MetaClass.t → MetaClass.t) : M unit :=
  λ s, match metaclass_objs s !! m with
       | Some mc => (set_metaclass_objs s (<[m := f mc]> (metaclass_objs s)), Ok ())
       | None => (s, Raise Dangling)
       end.

(** a method of the link object [l] *)
Definition on_link {A} (l : lid) (f : Link.t → Link.t * A) : M A :=
  λ s, match link_objs s !! l with
       | Some L => (set_link_objs s (<[l := (f L).1]> (link_objs s)), Ok (f L).2)
       | None => (s, Raise Dangling)
       end.

Definition update_query (q : qid) (Q : Query.t) : M unit :=
  λ s, (set_query_objs s (<[q := Q]> (query_objs s)), Ok ()).

Definition alloc : M nat :=
  λ s, (set_next_object s (S (next_object s)), Ok (next_object s)).

Definition inst_dict (s : State) (inst : Inst) : gmap string value :=
  default ∅ (inst_dicts s !! inst).

(** ** class Class: attribute access on instances *)

(** the first declared attribute whose upper-cased name is [uname] *)
Definition find_attribute (uname : string) (attributes : list (string * string))
    : option (string * string) :=
  snd <$> list_find (λ a, upper a.1 = uname) attributes.

(** [Class.__getattr__]: runs when the normal lookup has failed *)
Fixpoint Class_getattr (uname : string) (attributes : list (string * string))
    (d : gmap string value) : result value :=
  match attributes with
  | [] => Raise AttributeError (* object.__getattribute__(self, name) *)
  | (attr, _) :: rest =>
      if bool_decide (upper attr = uname) then
        match d !! attr with
        | Some v => Ok v
        | None => Class_getattr uname rest d
        end
      else Class_getattr uname rest d
  end.

(** Nesting of property getters the interpreter allows before it raises. *)
Definition recursion_limit : nat := 1000.

(** [getattr(inst, name)]. The lookup finds, in this order: a property on
    the class (a data descriptor: [fget] of [Association.formalize]), the
    instance dictionary, and then calls [Class.__getattr__]. Names of
    methods that [Class] or [object] define are outside the model. *)
Fixpoint getattr_rec (depth : nat) (s : State) (inst : Inst) (name : string)
    : result value :=
  match depth with
  | O => Raise RecursionError
  | S depth =>
      match metaclass_objs s !! inst_class inst with
      | None => Raise Dangling
      | Some mc =>
          match MetaClass.clazz mc !! name with
          | Some (target_link, ref_name) =>
              match link_objs s !! target_link with
              | None => Raise Dangling
              | Some L =>
                  match set_first (Link.navigate L inst) with
                  | Raise e => Raise e
                  | Ok None => Ok VNone (* getattr(None, ref_name, None) *)
                  | Ok (Some other) =>
                      match getattr_rec depth s other ref_name with
                      | Raise AttributeError => Ok VNone
                      | r => r
                      end
                  end
              end
          | None =>
              match inst_dict s inst !! name with
              | Some v => Ok v
              | None =>
                  Class_getattr (upper name) (MetaClass.attributes mc)
                                (inst_dict s inst)
              end
          end
      end
  end.

Definition getattr (s : State) (inst : Inst) (name : string) : result value :=
  getattr_rec recursion_limit s inst name.

(** [self.__dict__[key] = value] *)
Definition dict_store (inst : Inst) (key : string) (v : value) : M unit :=
  λ s, (set_inst_dicts s (<[inst := <[key := v]> (inst_dict s inst)]> (inst_dicts s)),
        Ok ()).

(** [Class.__setattr__] *)
Definition setattr (inst : Inst) (name : string) (v : value) : M unit :=
  mc <- read (λ s, the_metaclass s (inst_class inst));
  match find_attribute (upper name) (MetaClass.attributes mc) with
  | Some (attr, _) =>
      _ <- dict_store inst attr v;
      update_metaclass (inst_class inst) (λ mc, MetaClass.set_cache mc ∅)
  | None => dict_store inst name v
  end.

(** [_is_null]; what it returns is only ever tested for truth, so the
    implicit [None] of a name that is not an attribute is [false]. *)
Definition _is_null (s : State) (instance : Inst) (name : string) : result bool :=
  match getattr s instance name with
  | Raise e => Raise e
  | Ok v =>
      if truthy v then Ok false
      else if bool_decide (v = VNone) then Ok true
      else
        match the_metaclass s (inst_class instance) with
        | Raise e => Raise e
        | Ok mc =>
            match find_attribute (upper name) (MetaClass.attributes mc) with
            | None => Ok false
            | Some (_, attr_ty) =>
                let attr_ty := upper attr_ty in
                if bool_decide (attr_ty = "UNIQUE_ID") then Ok (py_eq v (VInt 0))
                else if bool_decide (attr_ty = "STRING") then
                  match v with
                  | VStr x => Ok (bool_decide (x = ""))
                  | _ => Raise TypeError (* len() of a number *)
                  end
                else Ok false
            end
        end
  end.

(** ** Query.evaluate and Query.execute *)

(** The inner loop of [evaluate]: [true] when the [for ... else] reaches its
    [else], [false] on [break]. *)
Fixpoint Query_match (s : State) (inst : Inst) (items : list (string * value))
    : result bool :=
  match items with
  | [] => Ok true
  | (name, v) :: rest =>
      match getattr s inst name with
      | Raise e => Raise e
      | Ok x =>
          if negb (py_eq x v) then Ok false
          else match _is_null s inst name with
               | Raise e => Raise e
               | Ok true => Ok false
               | Ok false => Query_match s inst rest
               end
      end
  end.

(** The outer loop of [evaluate], from the position [i] of the list iterator
    to the next [yield]: the instance yielded and the position after it, or
    [None] when the storage is exhausted. *)
Fixpoint Query_scan (s : State) (items : list (string * value))
    (rest : list Inst) (i : nat) : result (option (Inst * nat)) :=
  match rest with
  | [] => Ok None
  | inst :: rest' =>
      match Query_match s inst items with
      | Raise e => Raise e
      | Ok true => Ok (Some (inst, S i))
      | Ok false => Query_scan s items rest' (S i)
      end
  end.

(** [next(self.evaluation)]; [None] is [StopIteration]. *)
Definition Query_next (q : qid) : M (option Inst) :=
  Q <- read (λ s, the_query s q);
  match Query.evaluation Q with
  | None => raise TypeError
  | Some Query.GenClosed => ret None
  | Some (Query.GenAt i) =>
      mc <- read (λ s, the_metaclass s (Query.storage Q));
      r <- (λ s, (s, Ok (Query_scan s (Query.items Q)
                            (drop i (MetaClass.storage mc)) i)));
      match r with
      | Raise e =>
          (* the generator dies with the exception *)
          _ <- update_query q (Query.mk (Query.storage Q) (Query.items Q)
                                 (Query.result Q) (Some Query.GenClosed));
          raise e
      | Ok None =>
          (* self.evaluation = None *)
          _ <- update_query q (Query.mk (Query.storage Q) (Query.items Q)
                                 (Query.result Q) None);
          ret None
      | Ok (Some (inst, j)) =>
          (* self.result.append(inst); yield inst *)
          _ <- update_query q (Query.mk (Query.storage Q) (Query.items Q)
                                 (Query.result Q ++ [inst])
                                 (Some (Query.GenAt j)));
          ret (Some inst)
      end
  end.

(** The generator object made by [execute()]: not started, replaying
    [self.result] (position, and the length of the deque when its iterator
    was made), resuming [self.evaluation], or finished. *)
Inductive execution :=
  | ExecNew
  | ExecReplay (i n : nat)
  | ExecResume
  | ExecDone.

(** [while self.evaluation: yield next(self.evaluation)]. A [StopIteration]
    that [next] raises inside the generator ends the generator (the
    semantics of the Python versions the module is written for: it imports
    [future_builtins] and uses [collections.Iterable]). *)
Definition execute_resume (q : qid) : M (option Inst * execution) :=
  Q <- read (λ s, the_query s q);
  match Query.evaluation Q with
  | None => ret (None, ExecDone)
  | Some _ =>
      r <- Query_next q;
      match r with
      | Some inst => ret (Some inst, ExecResume)
      | None => ret (None, ExecDone)
      end
  end.

(** [next(it)] on a generator made by [execute()]. *)
Definition execute_next (q : qid) (it : execution) : M (option Inst * execution) :=
  Q <- read (λ s, the_query s q);
  let it := match it with
            | ExecNew => ExecReplay 0 (length (Query.result Q))
            | _ => it
            end in
  match it with
  | ExecReplay i n =>
      if negb (length (Query.result Q) =? n)%nat
      then raise RuntimeError (* deque mutated during iteration *)
      else match Query.result Q !! i with
           | Some inst => ret (Some inst, ExecReplay (S i) n)
           | None => execute_resume q
           end
  | ExecResume => execute_resume q
  | _ => ret (None, ExecDone)
  end.

(** A consumer that takes at most [k] instances and stops. *)
Fixpoint execute_take (k : nat) (q : qid) (it : execution)
    : M (list Inst * execution) :=
  match k with
  | O => ret ([], it)
  | S k =>
      '(r, it) <- execute_next q it;
      match r with
      | None => ret ([], it)
      | Some inst =>
          '(l, it) <- execute_take k q it;
          ret (inst :: l, it)
      end
  end.

(** A consumer that iterates to the end ([for inst in q.execute()]). *)
Fixpoint execute_all (fuel : nat) (q : qid) (it : execution) : M (list Inst) :=
  match fuel with
  | O => raise Diverged
  | S fuel =>
      '(r, it) <- execute_next q it;
      match r with
      | None => ret []
      | Some inst =>
          l <- execute_all fuel q it;
          ret (inst :: l)
      end
  end.

(** ** MetaClass: schema edits, links, deletion, navigation, queries *)

Definition link_key : Type := string * RelId * string.

(** [MetaClass.add_link]; the new link object is returned by identity. *)
Definition add_link (self : mcid) (metaclass : mcid) (rel_id : RelId)
    (phrase : string) (conditional many : bool) : M lid :=
  target <- read (λ s, the_metaclass s metaclass);
  l <- alloc;
  _ <- (λ s, (set_link_objs s
                (<[l := Link.init self rel_id metaclass phrase conditional many]>
                   (link_objs s)), Ok ()));
  let key : link_key := (upper (MetaClass.kind target), rel_id, phrase) in
  _ <- update_metaclass self
         (λ mc, MetaClass.set_links mc (dict_set key l (MetaClass.links mc)));
  ret l.

(** [MetaClass.find_link]; [None] when there is no such link. *)
Definition find_link (s : State) (self : mcid) (kind : string) (rel_id : RelId)
    (phrase : string) : result (option lid) :=
  match the_metaclass s self with
  | Raise e => Raise e
  | Ok mc =>
      let key : link_key := (upper kind, normalize rel_id, phrase) in
      Ok (dict_get key (MetaClass.links mc))
  end.

Definition append_attribute (self : mcid) (name type_name : string) : M unit :=
  update_metaclass self
    (λ mc, MetaClass.set_attributes mc (MetaClass.attributes mc ++ [(name, type_name)])).

(** [list.insert(index, x)] *)
Definition list_insert_at {A} (index : Z) (x : A) (l : list A) : list A :=
  let n := Z.of_nat (length l) in
  let i := if (index <? 0)%Z then Z.max 0 (index + n) else Z.min index n in
  take (Z.to_nat i) l ++ x :: drop (Z.to_nat i) l.

Definition insert_attribute (self : mcid) (index : Z) (name type_name : string)
    : M unit :=
  update_metaclass self
    (λ mc, MetaClass.set_attributes mc
             (list_insert_at index (name, type_name) (MetaClass.attributes mc))).

Fixpoint delete_first_named (name : string) (attributes : list (string * string))
    : list (string * string) :=
  match attributes with
  | [] => []
  | (attr_name, ty) :: rest =>
      if bool_decide (attr_name = name) then rest
      else (attr_name, ty) :: delete_first_named name rest
  end.

Definition delete_attribute (self : mcid) (name : string) : M unit :=
  update_metaclass self
    (λ mc, MetaClass.set_attributes mc
             (delete_first_named name (MetaClass.attributes mc))).

(** [MetaClass.default_value] *)
Definition default_value (self : mcid) (type_name : string) : M value :=
  let uname := upper type_name in
  if bool_decide (uname = "BOOLEAN") then ret (VBool false)
  else if bool_decide (uname = "INTEGER") then ret (VInt 0)
  else if bool_decide (uname = "REAL") then ret (VReal 0%Qc)
  else if bool_decide (uname = "STRING") then ret (VStr "")
  else if bool_decide (uname = "UNIQUE_ID") then
    mc <- read (λ s, the_metaclass s self);
    if MetaClass.metamodel mc then
      (* next(self.metamodel.id_generator) *)
      λ s, let mm := metamodel s in
           let n := (MetaModel.id_generator mm + 1)%Z in
           (set_metamodel s (MetaModel.mk (MetaModel.metaclasses mm)
                               (MetaModel.associations mm) n),
            Ok (VInt n))
    else ret VNone
  else raise MetaException.

(** [list.remove(x)]: the first occurrence goes. *)
Fixpoint list_remove_first (x : Inst) (l : list Inst) : list Inst :=
  match l with
  | [] => []
  | y :: l' => if bool_decide (x = y) then l' else y :: list_remove_first x l'
  end.

(** [MetaClass.delete] *)
Definition MetaClass_delete (self : mcid) (instance : Inst) : M unit :=
  mc <- read (λ s, the_metaclass s self);
  if bool_decide (instance ∈ MetaClass.storage mc) then
    _ <- update_metaclass self
           (λ mc, MetaClass.set_storage mc
                    (list_remove_first instance (MetaClass.storage mc)));
    update_metaclass self (λ mc, MetaClass.set_cache mc ∅)
  else raise DeleteException.

(** [delete(instance)]: the argument is an instance by its type *)
Definition delete (instance : Inst) : M unit :=
  MetaClass_delete (inst_class instance) instance.

(** [MetaClass.navigate] *)
Definition MetaClass_navigate (s : State) (self : mcid) (inst : Inst)
    (kind : string) (rel_id : RelId) (phrase : string) : result (gset Inst) :=
  match the_metaclass s self with
  | Raise e => Raise e
  | Ok mc =>
      let key : link_key := (upper kind, rel_id, phrase) in
      match dict_get key (MetaClass.links mc) with
      | Some l =>
          match the_link s l with
          | Raise e => Raise e
          | Ok L => Ok (Link.navigate L inst)
          end
      | None => Raise UnknownLinkException
      end
  end.

(** [MetaClass.query]: the cached query whose [execute()] is returned; the
    caller iterates it from [ExecNew]. *)
Definition MetaClass_query (self : mcid)
    (dictonary_of_values : list (string * value)) : M qid :=
  mc <- read (λ s, the_metaclass s self);
  let index := frozenset dictonary_of_values in
  match MetaClass.cache mc !! index with
  | Some q => ret q
  | None =>
      q <- alloc;
      _ <- update_query q (Query.init self dictonary_of_values);
      _ <- update_metaclass self
             (λ mc, MetaClass.set_cache mc (<[index := q]> (MetaClass.cache mc)));
      ret q
  end.

(** ** Navigation chains *)

(** [navigate_one(inst).nav(kind, rel_id, phrase)()] for an instance
    [inst]: the handle is [[inst]], [_nav] normalizes the relation id and
    iterates [inst.__metaclass__.navigate(...)], and the call takes
    [next(handle, None)]. *)
Definition navigate_one_nav (s : State) (inst : Inst) (kind : string)
    (rel_id : RelId) (phrase : string) : result (option Inst) :=
  match MetaClass_navigate s (inst_class inst) inst kind (normalize rel_id) phrase with
  | Raise e => Raise e
  | Ok neighbours => set_first neighbours
  end.

(** ** sort_reflexive *)

(** "Figure out the phrase in the other direction": the [for ... else] over
    [metaclass.links.values()]; [None] when the loop reaches its [else]. *)
Fixpoint other_phrase_of (s : State) (metaclass : mcid) (rel_id phrase : string)
    (links : list lid) : result (option string) :=
  match links with
  | [] => Ok None
  | l :: rest =>
      match the_link s l with
      | Raise e => Raise e
      | Ok link =>
          if negb (bool_decide (Link.to_metaclass link = metaclass))
          then other_phrase_of s metaclass rel_id phrase rest
          else if negb (bool_decide (Link.rel_id link = rel_id))
          then other_phrase_of s metaclass rel_id phrase rest
          else if bool_decide (Link.phrase link = phrase)
          then other_phrase_of s metaclass rel_id phrase rest
          else Ok (Some (Link.phrase link))
      end
  end.

(** [list(filter(first_filt, set_of_instances))] *)
Fixpoint first_instances_of (s : State) (kind : string) (rel_id : RelId)
    (phrase : string) (set_of_instances : list Inst) : result (list Inst) :=
  match set_of_instances with
  | [] => Ok []
  | sel :: rest =>
      match navigate_one_nav s sel kind rel_id phrase with
      | Raise e => Raise e
      | Ok r =>
          match first_instances_of s kind rel_id phrase rest with
          | Raise e => Raise e
          | Ok firsts => Ok (if r is None then sel :: firsts else firsts)
          end
      end
  end.

(** The [while inst:] loop of [sequence_generator], entered with [inst]. *)
Fixpoint sequence_from (fuel : nat) (s : State) (kind : string) (rel_id : RelId)
    (other_phrase : string) (first inst : Inst) : result (list Inst) :=
  match fuel with
  | O => Raise Diverged
  | S fuel =>
      match navigate_one_nav s inst kind rel_id other_phrase with
      | Raise e => Raise e
      | Ok None => Ok [inst]
      | Ok (Some next) =>
          if bool_decide (next = first) then Ok [inst]
          else match sequence_from fuel s kind rel_id other_phrase first next with
               | Raise e => Raise e
               | Ok l => Ok (inst :: l)
               end
      end
  end.

Fixpoint sequence_generator (fuel : nat) (s : State) (kind : string)
    (rel_id : RelId) (other_phrase : string) (first_instances : list Inst)
    : result (list Inst) :=
  match first_instances with
  | [] => Ok []
  | first :: rest =>
      match sequence_from fuel s kind rel_id other_phrase first first with
      | Raise e => Raise e
      | Ok l =>
          match sequence_generator fuel s kind rel_id other_phrase rest with
          | Raise e => Raise e
          | Ok l' => Ok (l ++ l')
          end
      end
  end.

(** [sort_reflexive]; the argument is a [QuerySet] by its type, given by
    the order in which it iterates. *)
Definition sort_reflexive (fuel : nat) (s : State) (set_of_instances : list Inst)
    (rel_id : RelId) (phrase : string) : result (list Inst) :=
  match head set_of_instances with
  | None => Ok (QuerySet [])
  | Some first =>
      let rel_id := rel_name rel_id in
      let metaclass := inst_class first in
      match the_metaclass s metaclass with
      | Raise e => Raise e
      | Ok mc =>
          match other_phrase_of s metaclass rel_id phrase
                  (dict_values (MetaClass.links mc)) with
          | Raise e => Raise e
          | Ok None => Raise UnknownLinkException
          | Ok (Some other_phrase) =>
              match first_instances_of s (MetaClass.kind mc) (RStr rel_id)
                      phrase set_of_instances with
              | Raise e => Raise e
              | Ok first_instances =>
                  let first_instances :=
                    if first_instances is [] then [first] else first_instances in
                  match sequence_generator fuel s (MetaClass.kind mc)
                          (RStr rel_id) other_phrase first_instances with
                  | Raise e => Raise e
                  | Ok l => Ok (QuerySet l)
                  end
              end
          end
      end
  end.

(** ** relate, unrelate *)

(** The loop of [_find_link] over [metaclass1.metamodel.associations]. *)
Fixpoint _find_link_in (s : State) (associations : list Association.t)
    (inst1 inst2 : Inst) (rel_id : RelId) (phrase : string)
    : result (Inst * Inst * Association.t) :=
  match associations with
  | [] => Raise UnknownLinkException
  | ass :: rest =>
      if negb (bool_decide (Association.rel_id ass = rel_id))
      then _find_link_in s rest inst1 inst2 rel_id phrase
      else
        match the_link s (Association.source_link ass),
              the_link s (Association.target_link ass) with
        | Ok source_link, Ok target_link =>
            if bool_decide (Link.from_metaclass source_link = inst_class inst1)
               && bool_decide (Link.to_metaclass source_link = inst_class inst2)
               && bool_decide (Link.phrase target_link = phrase)
            then Ok (inst1, inst2, ass)
            else if bool_decide (Link.from_metaclass target_link = inst_class inst1)
                    && bool_decide (Link.to_metaclass target_link = inst_class inst2)
                    && bool_decide (Link.phrase source_link = phrase)
            then Ok (inst2, inst1, ass)
            else _find_link_in s rest inst1 inst2 rel_id phrase
        | _, _ => Raise Dangling
        end
  end.

Definition _find_link (s : State) (inst1 inst2 : Inst) (rel_id : RelId)
    (phrase : string) : result (Inst * Inst * Association.t) :=
  match the_metaclass s (inst_class inst1) with
  | Raise e => Raise e
  | Ok metaclass1 =>
      if MetaClass.metamodel metaclass1 then
        _find_link_in s (MetaModel.associations (metamodel s)) inst1 inst2
                      (normalize rel_id) phrase
      else Raise AttributeError (* None has no attribute 'associations' *)
  end.

(** [relate]; an argument may be [None]. *)
Definition relate (from_instance to_instance : option Inst) (rel_id : RelId)
    (phrase : string) : M bool :=
  match from_instance, to_instance with
  | Some from_instance, Some to_instance =>
      '(inst1, inst2, ass) <-
        read (λ s, _find_link s from_instance to_instance rel_id phrase);
      ok <- on_link (Association.source_link ass)
                    (λ L, Link.connect L inst1 inst2 true);
      if negb ok then raise RelateException
      else
        ok <- on_link (Association.target_link ass)
                      (λ L, Link.connect L inst2 inst1 true);
        if negb ok then raise RelateException
        else ret true
  | _, _ => ret false
  end.

(** [unrelate] *)
Definition unrelate (from_instance to_instance : option Inst) (rel_id : RelId)
    (phrase : string) : M bool :=
  match from_instance, to_instance with
  | Some from_instance, Some to_instance =>
      '(inst1, inst2, ass) <-
        read (λ s, _find_link s from_instance to_instance rel_id phrase);
      ok <- on_link (Association.source_link ass)
                    (λ L, Link.disconnect L inst1 inst2);
      if negb ok then raise UnrelateException
      else
        ok <- on_link (Association.target_link ass)
                      (λ L, Link.disconnect L inst2 inst1);
        if negb ok then raise UnrelateException
        else ret true
  | _, _ => ret false
  end.

(** ** Loops *)

(** [for inst in query.execute(): body(inst)]: the generator is resumed
    between two runs of the body. *)
Fixpoint for_execute (fuel : nat) (q : qid) (it : execution)
    (body : Inst → M unit) : M unit :=
  match fuel with
  | O => raise Diverged
  | S fuel =>
      '(r, it) <- execute_next q it;
      match r with
      | None => ret ()
      | Some inst => _ <- body inst; for_execute fuel q it body
      end
  end.

(** The number of [next] calls after which a generator made by [execute()]
    on [q] is finished, as long as the storage keeps its length. *)
Definition execute_bound (s : State) (q : qid) : nat :=
  match query_objs s !! q with
  | Some Q =>
      match metaclass_objs s !! Query.storage Q with
      | Some mc => length (Query.result Q) + length (MetaClass.storage mc) + 2
      | None => 2
      end
  | None => 1
  end.

(** ** MetaModel: definitions *)

Definition update_metamodel (f : MetaModel.t → MetaModel.t) : M unit :=
  λ s, (set_metamodel s (f (metamodel s)), Ok ()).

(** [MetaModel.define_class] *)
Definition define_class (kind : string) (attributes : list (string * string))
    : M mcid :=
  let ukind := upper kind in
  mm <- read (λ s, Ok (metamodel s));
  if bool_decide (is_Some (dict_get ukind (MetaModel.metaclasses mm)))
  then raise MetaModelException
  else
    metaclass <- alloc;
    _ <- (λ s, (set_metaclass_objs s
                  (<[metaclass := MetaClass.init kind true]> (metaclass_objs s)),
                Ok ()));
    _ <- for_each attributes (λ a, append_attribute metaclass a.1 a.2);
    _ <- update_metamodel
           (λ mm, MetaModel.mk (dict_set ukind metaclass (MetaModel.metaclasses mm))
                    (MetaModel.associations mm) (MetaModel.id_generator mm));
    ret metaclass.

(** [MetaModel.find_metaclass] *)
Definition find_metaclass (s : State) (kind : string) : result mcid :=
  let ukind := upper kind in
  match dict_get ukind (MetaModel.metaclasses (metamodel s)) with
  | Some metaclass => Ok metaclass
  | None => Raise UnknownClassException
  end.

(** [MetaModel.define_association] *)
Definition define_association (rel_id : RelId)
    (source_kind : string) (source_keys : list string)
    (source_many source_conditional : bool) (source_phrase : string)
    (target_kind : string) (target_keys : list string)
    (target_many target_conditional : bool) (target_phrase : string)
    : M Association.t :=
  let rel_id := normalize rel_id in
  source_metaclass <- read (λ s, find_metaclass s source_kind);
  target_metaclass <- read (λ s, find_metaclass s target_kind);
  source_link <- add_link target_metaclass source_metaclass rel_id
                   source_phrase source_conditional source_many;
  target_link <- add_link source_metaclass target_metaclass rel_id
                   target_phrase target_conditional target_many;
  let ass := Association.mk rel_id source_keys source_link
                            target_keys target_link in
  _ <- update_metamodel
         (λ mm, MetaModel.mk (MetaModel.metaclasses mm)
                  (MetaModel.associations mm ++ [ass])
                  (MetaModel.id_generator mm));
  ret ass.

(** ** Association.formalize and Association.batch_relate *)

Definition formalize (self : Association.t) : M unit :=
  source_link <- read (λ s, the_link s (Association.source_link self));
  target_link <- read (λ s, the_link s (Association.target_link self));
  let source_class := Link.to_metaclass source_link in
  let target_class := Link.to_metaclass target_link in
  let source_keys := Association.source_keys self in
  let target_keys := Association.target_keys self in
  _ <- on_link (Association.source_link self)
         (λ L, (Link.set_key_map L (dict_of (zip source_keys target_keys)), ()));
  _ <- on_link (Association.target_link self)
         (λ L, (Link.set_key_map L (dict_of (zip target_keys source_keys)), ()));
  _ <- update_metaclass source_class
         (λ mc, MetaClass.set_referential_attributes mc
                  (MetaClass.referential_attributes mc ∪ list_to_set source_keys));
  _ <- update_metaclass target_class
         (λ mc, MetaClass.set_identifying_attributes mc
                  (MetaClass.identifying_attributes mc ∪ list_to_set target_keys));
  for_each (zip source_keys target_keys)
    (λ '(ref_key, primary_key),
       let prop := (Association.target_link self, primary_key) in
       let install :=
         update_metaclass source_class
           (λ mc, MetaClass.set_clazz mc (<[ref_key := prop]> (MetaClass.clazz mc))) in
       target_link <- read (λ s, the_link s (Association.target_link self));
       mc <- read (λ s, the_metaclass s source_class);
       if negb (Link.conditional target_link) then install
       else if negb (bool_decide (is_Some (MetaClass.clazz mc !! ref_key)))
       then install
       else ret ()).

(** the [kwargs] that [batch_relate] builds for [inst1] *)
Fixpoint batch_kwargs (s : State) (inst1 : Inst) (keys : list (string * string))
    (kwargs : list (string * value)) : result (list (string * value)) :=
  match keys with
  | [] => Ok kwargs
  | (ref_key, primary_key) :: rest =>
      match getattr s inst1 ref_key with
      | Raise e => Raise e
      | Ok v => batch_kwargs s inst1 rest (dict_set primary_key v kwargs)
      end
  end.

Definition batch_relate (self : Association.t) : M unit :=
  source_link <- read (λ s, the_link s (Association.source_link self));
  target_link <- read (λ s, the_link s (Association.target_link self));
  let source_class := Link.to_metaclass source_link in
  let target_class := Link.to_metaclass target_link in
  mc <- read (λ s, the_metaclass s source_class);
  for_each (MetaClass.storage mc)
    (λ inst1,
       kwargs <- read (λ s, batch_kwargs s inst1
                              (zip (Association.source_keys self)
                                   (Association.target_keys self)) []);
       q <- MetaClass_query target_class kwargs;
       fuel <- read (λ s, Ok (execute_bound s q));
       for_execute fuel q ExecNew
         (λ inst2,
            _ <- on_link (Association.source_link self)
                   (λ L, Link.connect L inst2 inst1 false);
            _ <- on_link (Association.target_link self)
                   (λ L, Link.connect L inst1 inst2 false);
            ret ())).

(** ** MetaClass.new *)

(** "set all positional arguments" and "set all named arguments": a value
    for a referential attribute is put aside in the local dictionary
    [referential_attributes]. *)
Fixpoint new_assign (inst : Inst) (referential : gset string)
    (named : list (string * value)) (deferred : list (string * value))
    : M (list (string * value)) :=
  match named with
  | [] => ret deferred
  | (name, v) :: rest =>
      if bool_decide (name ∉ referential) then
        _ <- setattr inst name v;
        new_assign inst referential rest deferred
      else new_assign inst referential rest (dict_set name v deferred)
  end.

(** [kwargs[key] = referential_attributes[value]] for the items of a key map *)
Fixpoint new_kwargs (key_map : list (string * string))
    (deferred : list (string * value)) (kwargs : list (string * value))
    : result (list (string * value)) :=
  match key_map with
  | [] => Ok kwargs
  | (key, name) :: rest =>
      match dict_get name deferred with
      | Some v => new_kwargs rest deferred (dict_set key v kwargs)
      | None => Raise KeyError
      end
  end.

Definition new (self : mcid) (args : list value) (kwargs : list (string * value))
    : M Inst :=
  _ <- update_metaclass self (λ mc, MetaClass.set_cache mc ∅);
  o <- alloc;
  let inst := mkInst o self in
  _ <- update_metaclass self
         (λ mc, MetaClass.set_storage mc (MetaClass.storage mc ++ [inst]));
  mc <- read (λ s, the_metaclass s self);
  let referential := MetaClass.referential_attributes mc in
  (* set all attributes with an initial default value *)
  _ <- for_each (MetaClass.attributes mc)
         (λ '(name, ty),
            if bool_decide (name ∉ referential) then
              v <- default_value self ty;
              setattr inst name v
            else ret ());
  deferred <- new_assign inst referential
                (zip (fst <$> MetaClass.attributes mc) args) [];
  deferred <- new_assign inst referential kwargs deferred;
  if deferred is [] then ret inst
  else
    (* batch relate referential attributes *)
    _ <- for_each (dict_values (MetaClass.links mc))
           (λ l,
              link <- read (λ s, the_link s l);
              if negb (bool_decide
                         (Forall (λ name, name ∈ dict_keys deferred)
                                 (dict_values (Link.key_map link))))
              then ret ()
              else
                kwargs <- read (λ s, new_kwargs (Link.key_map link) deferred []);
                if kwargs is [] then ret ()
                else
                  q <- MetaClass_query (Link.to_metaclass link) kwargs;
                  fuel <- read (λ s, Ok (execute_bound s q));
                  for_execute fuel q ExecNew
                    (λ other_inst,
                       _ <- relate (Some other_inst) (Some inst)
                              (RStr (Link.rel_id link)) (Link.phrase link);
                       ret ()));
    (* the warning loop reads every deferred attribute back *)
    _ <- for_each deferred
           (λ '(name, _), _ <- read (λ s, getattr s inst name); ret ());
    ret inst.

(** ** Reading aids for the properties *)

(** The link object in which [relate(inst1, inst2, rel_id, phrase)] records
    the neighbours of its first argument: the loop of [_find_link] again,
    giving the source link where [_find_link] keeps the order of the two
    instances and the target link where it swaps them. *)
Fixpoint link_from_in (s : State) (associations : list Association.t)
    (inst1 inst2 : Inst) (rel_id : RelId) (phrase : string) : result lid :=
  match associations with
  | [] => Raise UnknownLinkException
  | ass :: rest =>
      if negb (bool_decide (Association.rel_id ass = rel_id))
      then link_from_in s rest inst1 inst2 rel_id phrase
      else
        match the_link s (Association.source_link ass),
              the_link s (Association.target_link ass) with
        | Ok source_link, Ok target_link =>
            if bool_decide (Link.from_metaclass source_link = inst_class inst1)
               && bool_decide (Link.to_metaclass source_link = inst_class inst2)
               && bool_decide (Link.phrase target_link = phrase)
            then Ok (Association.source_link ass)
            else if bool_decide (Link.from_metaclass target_link = inst_class inst1)
                    && bool_decide (Link.to_metaclass target_link = inst_class inst2)
                    && bool_decide (Link.phrase source_link = phrase)
            then Ok (Association.target_link ass)
            else link_from_in s rest inst1 inst2 rel_id phrase
        | _, _ => Raise Dangling
        end
  end.

Definition link_from (s : State) (inst1 inst2 : Inst) (rel_id : RelId)
    (phrase : string) : result lid :=
  match the_metaclass s (inst_class inst1) with
  | Raise e => Raise e
  | Ok metaclass1 =>
      if MetaClass.metamodel metaclass1 then
        link_from_in s (MetaModel.associations (metamodel s)) inst1 inst2
                     (normalize rel_id) phrase
      else Raise AttributeError
  end.

(** The neighbours of [inst] in the link object [l]. *)
Definition neighbours (s : State) (l : lid) (inst : Inst) : gset Inst :=
  match link_objs s !! l with
  | Some L => Link.navigate L inst
  | None => ∅
  end.

(** The links without their dictionaries: what [connect] and [disconnect]
    leave alone. *)
Definition link_schema (s : State) : gmap lid Link.t :=
  (λ L, Link.set_dict L ∅) <$> link_objs s.

(** [for b in bs: self.connect(instance, b, check)] *)
Definition connect_each (self : Link.t) (instance : Inst) (bs : list Inst)
    (check : bool) : Link.t :=
  foldl (λ L b, (Link.connect L instance b check).1) self bs.

End Meta.

(** * A population to run the engine on *)

(** [Person(id UNIQUE_ID, name STRING)] and
    [Dog(name STRING, owner_id UNIQUE_ID)], with R1: a dog is owned by
    exactly one person ([owner_id] refers to [id]), a person owns at most
    one dog. Two persons and two dogs, nobody related yet. *)
Module Kennel.
Import Meta.

Definition empty : State := mkState ∅ ∅ ∅ ∅ (MetaModel.mk [] [] 0) 0%nat.

Definition person : mcid := 0%nat.
Definition dog : mcid := 1%nat.

Definition define : M Association.t :=
  _ <- define_class "Person" [("id", "UNIQUE_ID"); ("name", "STRING")];
  _ <- define_class "Dog" [("name", "STRING"); ("owner_id", "UNIQUE_ID")];
  ass <- define_association (RInt 1)
           "Dog" ["owner_id"] false true ""
           "Person" ["id"] false false "";
  _ <- formalize ass;
  ret ass.

Definition populate : M unit :=
  _ <- define;
  _ <- new person [] [("id", VInt 42); ("name", VStr "Ann")];
  _ <- new person [] [("id", VInt 43); ("name", VStr "Bob")];
  _ <- new dog [] [("name", VStr "Rex")];
  _ <- new dog [] [("name", VStr "Spot")];
  ret ().

Definition R1 : Association.t :=
  Eval vm_compute in
    match (define empty).2 with
    | Ok ass => ass
    | Raise _ => Association.mk (RInt 0) [] 0%nat [] 0%nat
    end.

Definition ann : Inst := mkInst 4 person.
Definition bob : Inst := mkInst 5 person.
Definition rex : Inst := mkInst 6 dog.
Definition spot : Inst := mkInst 7 dog.

(** nobody is related *)
Definition s0 : State := (populate empty).1.
(** Rex is Ann's *)
Definition s1 : State := (relate (Some rex) (Some ann) (RInt 1) "" s0).1.

(** the link objects of R1 and the metaclass of the persons, as they are
    in the two stores *)
Definition no_link : Link.t := Link.init 0 (RInt 0) 0 "" false false.
Definition owns0 : Link.t :=
  Eval vm_compute in default no_link (link_objs s0 !! Association.target_link R1).
Definition dogs1 : Link.t :=
  Eval vm_compute in default no_link (link_objs s1 !! Association.source_link R1).
Definition owns1 : Link.t :=
  Eval vm_compute in default no_link (link_objs s1 !! Association.target_link R1).
Definition persons1 : MetaClass.t :=
  Eval vm_compute in default (MetaClass.init "" false)
                             (metaclass_objs s1 !! person).

End Kennel.

(** The kennel with two more dogs, a second Rex and Fido: the pool of the
    dogs is Rex, Spot, Rex, Fido. *)
Module Shelter.
Import Meta.

Definition populate : M unit :=
  _ <- Kennel.populate;
  _ <- new Kennel.dog [] [("name", VStr "Rex")];
  _ <- new Kennel.dog [] [("name", VStr "Fido")];
  ret ().

Definition rex2 : Inst := mkInst 8 Kennel.dog.
Definition fido : Inst := mkInst 9 Kennel.dog.

Definition s0 : State := (populate Kennel.empty).1.

(** [Query(storage, kwargs)] as an object of its own *)
Definition Query_new (storage : mcid) (kwargs : list (string * value)) : M qid :=
  q <- alloc;
  _ <- update_query q (Query.init storage kwargs);
  ret q.

(** The dogs called Rex are asked for; nobody has iterated yet. *)
Definition by_name : list (string * value) := [("name", VStr "Rex")].
Definition asked : State := (Query_new Kennel.dog by_name s0).1.
Definition dogs0 : MetaClass.t :=
  Eval vm_compute in
    default (MetaClass.init "" false) (metaclass_objs asked !! Kennel.dog).
Definition is_rex (x : Inst) : bool := bool_decide (x ∈ [Kennel.rex; rex2]).
End Shelter.

(** The kennel where a dog may have several owners: R1 is many on the side
    of the persons. Rex is given to Ann and then to Bob, and is then taken
    from Ann. *)
Module Shared.
Import Meta.

Definition define : M Association.t :=
  _ <- define_class "Person" [("id", "UNIQUE_ID"); ("name", "STRING")];
  _ <- define_class "Dog" [("name", "STRING"); ("owner_id", "UNIQUE_ID")];
  ass <- define_association (RInt 1)
           "Dog" ["owner_id"] false true ""
           "Person" ["id"] true false "";
  _ <- formalize ass;
  ret ass.

Definition populate : M unit :=
  _ <- define;
  _ <- new Kennel.person [] [("id", VInt 42); ("name", VStr "Ann")];
  _ <- new Kennel.person [] [("id", VInt 43); ("name", VStr "Bob")];
  _ <- new Kennel.dog [] [("name", VStr "Rex")];
  ret ().

Definition R1 : Association.t :=
  Eval vm_compute in
    match (define Kennel.empty).2 with
    | Ok ass => ass
    | Raise _ => Association.mk (RInt 0) [] 0%nat [] 0%nat
    end.

Definition s0 : State := (populate Kennel.empty).1.
Definition s1 : State :=
  (relate (Some Kennel.rex) (Some Kennel.ann) (RInt 1) "" s0).1.
Definition s2 : State :=
  (relate (Some Kennel.rex) (Some Kennel.bob) (RInt 1) "" s1).1.
Definition s3 : State :=
  (unrelate (Some Kennel.rex) (Some Kennel.ann) (RInt 1) "" s2).1.
End Shared.

(** The same classes, populated before the association is there: Ann,
    and the dogs Rex and Spot, whose [owner_id] both hold the [id] of Ann.
    R1 is defined afterwards, and [batch_relate] connects the instances
    whose keys agree, without the cardinality check: Ann, who owns at most
    one dog, has two. *)
Module Loaded.
Import Meta.

Definition person : mcid := 0%nat.
Definition dog : mcid := 1%nat.

Definition load : M Association.t :=
  _ <- define_class "Person" [("id", "UNIQUE_ID"); ("name", "STRING")];
  _ <- define_class "Dog" [("name", "STRING"); ("owner_id", "UNIQUE_ID")];
  _ <- new person [] [("id", VInt 42); ("name", VStr "Ann")];
  _ <- new dog [] [("name", VStr "Rex"); ("owner_id", VInt 42)];
  _ <- new dog [] [("name", VStr "Spot"); ("owner_id", VInt 42)];
  ass <- define_association (RInt 1)
           "Dog" ["owner_id"] false true ""
           "Person" ["id"] false false "";
  _ <- batch_relate ass;
  _ <- formalize ass;
  ret ass.

Definition R1 : Association.t :=
  Eval vm_compute in
    match (load Kennel.empty).2 with
    | Ok ass => ass
    | Raise _ => Association.mk (RInt 0) [] 0%nat [] 0%nat
    end.

Definition ann : Inst := mkInst 2 person.
Definition rex : Inst := mkInst 3 dog.
Definition spot : Inst := mkInst 4 dog.

Definition s0 : State := (load Kennel.empty).1.

(** the link object that holds the dogs of the persons *)
Definition dogs0 : Link.t :=
  Eval vm_compute in
    default Kennel.no_link (link_objs s0 !! Association.source_link R1).
End Loaded.

(** [Step(id UNIQUE_ID, next_id UNIQUE_ID)] with the reflexive and
    conditional R2: a step precedes at most one step and succeeds at most
    one ([next_id] refers to [id]). Six steps: a row of three and a ring of
    three. *)
Module Steps.
Import Meta.

Definition step : mcid := 0%nat.

Definition define : M Association.t :=
  _ <- define_class "Step" [("id", "UNIQUE_ID"); ("next_id", "UNIQUE_ID")];
  ass <- define_association (RInt 2)
           "Step" ["next_id"] false true "precedes"
           "Step" ["id"] false true "succeeds";
  _ <- formalize ass;
  ret ass.

Definition a1 : Inst := mkInst 3 step.
Definition a2 : Inst := mkInst 4 step.
Definition a3 : Inst := mkInst 5 step.
Definition b1 : Inst := mkInst 6 step.
Definition b2 : Inst := mkInst 7 step.
Definition b3 : Inst := mkInst 8 step.

Definition link_up (x y : Inst) : M unit :=
  _ <- relate (Some x) (Some y) (RInt 2) "precedes";
  ret ().

Definition populate : M unit :=
  _ <- define;
  _ <- for_each [1; 2; 3; 4; 5; 6]
         (λ n, _ <- new step [] [("id", VInt n)]; ret ());
  (* the row *)
  _ <- link_up a1 a2;
  _ <- link_up a2 a3;
  (* the ring *)
  _ <- link_up b1 b2;
  _ <- link_up b2 b3;
  link_up b3 b1.

Definition s0 : State := (populate Kennel.empty).1.

Definition steps0 : MetaClass.t :=
  Eval vm_compute in default (MetaClass.init "" false) (metaclass_objs s0 !! step).
End Steps.

(** * xtuml/model.py

    The engine in which a link holds no instances: the instances related
    across a link are those whose key attributes agree, found by a query,
    and [relate] copies the identifying attributes into the referential
    ones. *)

Module Model.

Abbreviation mcid := nat (only parsing).
Abbreviation lid := nat (only parsing).
Abbreviation qid := nat (only parsing).

(** ** class Link, class ReversedLink *)
Module Link.
Record t := mk {
  from_metaclass : mcid;
  rel_id : string;
  to_metaclass : mcid;
  key_map : list (string * string);
  phrase : string;
  conditional : bool;
  many : bool;
  (** [isinstance(link, ReversedLink)] *)
  reversed : bool
}.

(** [Link.__init__] *)
Definition init (from_metaclass : mcid) (rel_id : RelId) (to_metaclass : mcid)
    (key_map : list (string * string)) (phrase : string)
    (conditional many : bool) : t :=
  mk from_metaclass (rel_name rel_id) to_metaclass key_map phrase
     conditional many false.

(** [ReversedLink.__init__] *)
Definition init_reversed (from_metaclass : mcid) (rel_id : RelId)
    (to_metaclass : mcid) (key_map : list (string * string)) (phrase : string)
    (conditional many : bool) : t :=
  mk from_metaclass (rel_name rel_id) to_metaclass
     (dict_of (zip (dict_values key_map) (dict_keys key_map))) phrase
     conditional many true.

Definition cardinality (self : t) : string :=
  let s := if many self then "M" else "1" in
  if conditional self then s +:+ "C" else s.
End Link.

(** ** class Association *)
Module Association.
Record t := mk {
  rel_id : string;
  link : lid;
  reversed_link : lid
}.
End Association.

(** ** class Query *)
Module Query.
(** The generator object made by [mk_generator()]: suspended with its
    list iterator at index [i] of the table, or finished. *)
Inductive generator_object :=
  | GenAt (i : nat)
  | GenClosed.

Record t := mk {
  (** the list of instances of the metaclass the query was made on *)
  table : mcid;
  items : list (string * value);
  result : list Inst;
  generator : option generator_object
}.

(** [Query.__init__] *)
Definition init (table : mcid) (kwargs : list (string * value)) : t :=
  mk table kwargs [] (Some (GenAt 0)).
End Query.

Definition link_key : Type := string * RelId * string.

(** ** class MetaClass *)
Module MetaClass.
Record t := mk {
  metamodel : bool;
  kind : string;
  attributes : list (string * string);
  referential_attributes : gset string;
  identifying_attributes : gset string;
  indices : list (string * list string);
  links : list (link_key * lid);
  (** the names that [append_attribute] and [insert_attribute] have set
      to [None] on [clazz] *)
  clazz : gset string;
  instances : list Inst;
  cache : gmap (gset (string * value)) qid
}.

(** [MetaClass.__init__] *)
Definition init (kind : string) (metamodel : bool) : t :=
  mk metamodel kind [] ∅ ∅ [] [] ∅ [] ∅.

Definition set_attributes (self : t) x : t :=
  mk (metamodel self) (kind self) x (referential_attributes self)
     (identifying_attributes self) (indices self) (links self) (clazz self)
     (instances self) (cache self).
Definition set_referential_attributes (self : t) x : t :=
  mk (metamodel self) (kind self) (attributes self) x
     (identifying_attributes self) (indices self) (links self) (clazz self)
     (instances self) (cache self).
Definition set_identifying_attributes (self : t) x : t :=
  mk (metamodel self) (kind self) (attributes self)
     (referential_attributes self) x (indices self) (links self) (clazz self)
     (instances self) (cache self).
Definition set_links (self : t) x : t :=
  mk (metamodel self) (kind self) (attributes self)
     (referential_attributes self) (identifying_attributes self)
     (indices self) x (clazz self) (instances self) (cache self).
Definition set_clazz (self : t) x : t :=
  mk (metamodel self) (kind self) (attributes self)
     (referential_attributes self) (identifying_attributes self)
     (indices self) (links self) x (instances self) (cache self).
Definition set_instances (self : t) x : t :=
  mk (metamodel self) (kind self) (attributes self)
     (referential_attributes self) (identifying_attributes self)
     (indices self) (links self) (clazz self) x (cache self).
Definition set_cache (self : t) x : t :=
  mk (metamodel self) (kind self) (attributes self)
     (referential_attributes self) (identifying_attributes self)
     (indices self) (links self) (clazz self) (instances self) x.
End MetaClass.

(** ** class MetaModel, and the store *)
Module MetaModel.
Record t := mk {
  metaclasses : list (string * mcid);
  associations : list Association.t;
  (** Modelled from the spec: [xtuml.UUIDGenerator] is not part of the
      sources at hand; a counter of the ids issued so far, none of them
      the null id. *)
  id_generator : Z
}.
End MetaModel.

Record State := mkState {
  metaclass_objs : gmap mcid MetaClass.t;
  link_objs : gmap lid Link.t;
  query_objs : gmap qid Query.t;
  (** [inst.__dict__] *)
  inst_dicts : gmap Inst (gmap string value);
  metamodel : MetaModel.t;
  next_object : nat
}.

Definition set_metaclass_objs (s : State) x : State :=
  mkState x (link_objs s) (query_objs s) (inst_dicts s) (metamodel s) (next_object s).
Definition set_link_objs (s : State) x : State :=
  mkState (metaclass_objs s) x (query_objs s) (inst_dicts s) (metamodel s) (next_object s).
Definition set_query_objs (s : State) x : State :=
  mkState (metaclass_objs s) (link_objs s) x (inst_dicts s) (metamodel s) (next_object s).
Definition set_inst_dicts (s : State) x : State :=
  mkState (metaclass_objs s) (link_objs s) (query_objs s) x (metamodel s) (next_object s).
Definition set_metamodel (s : State) x : State :=
  mkState (metaclass_objs s) (link_objs s) (query_objs s) (inst_dicts s) x (next_object s).
Definition set_next_object (s : State) x : State :=
  mkState (metaclass_objs s) (link_objs s) (query_objs s) (inst_dicts s) (metamodel s) x.

(** Statements of [xtuml.model] *)
Definition M (A : Type) : Type := stmt State A.

Definition the_metaclass (s : State) (m : mcid) : result MetaClass.t :=
  match metaclass_objs s !! m with
  | Some mc => Ok mc
  | None => Raise Dangling
  end.

Definition the_link (s : State) (l : lid) : result Link.t :=
  match link_objs s !! l with
  | Some L => Ok L
  | None => Raise Dangling
  end.

Definition the_query (s : State) (q : qid) : result Query.t :=
  match query_objs s !! q with
  | Some Q => Ok Q
  | None => Raise Dangling
  end.

Definition update_metaclass (m : mcid) (f : MetaClass.t → MetaClass.t) : M unit :=
  λ s, match metaclass_objs s !! m with
       | Some mc => (set_metaclass_objs s (<[m := f mc]> (metaclass_objs s)), Ok ())
       | None => (s, Raise Dangling)
       end.

Definition update_query (q : qid) (Q : Query.t) : M unit :=
  λ s, (set_query_objs s (<[q := Q]> (query_objs s)), Ok ()).

Definition alloc : M nat :=
  λ s, (set_next_object s (S (next_object s)), Ok (next_object s)).

Definition inst_dict (s : State) (inst : Inst) : gmap string value :=
  default ∅ (inst_dicts s !! inst).

(** ** class BaseObject *)

Definition find_attribute (uname : string) (attributes : list (string * string))
    : option (string * string) :=
  snd <$> list_find (λ a, upper a.1 = uname) attributes.

(** [getattr(inst, name)]. The lookup finds, in this order: the instance
    dictionary, the class attribute that [append_attribute] has set to
    [None], and then calls [BaseObject.__getattr__], which reads the
    dictionary under the first declared attribute of that name in any
    letter case. Names of methods that [BaseObject] or [object] define are
    outside the model. *)
Definition getattr (s : State) (inst : Inst) (name : string) : result value :=
  match metaclass_objs s !! inst_class inst with
  | None => Raise Dangling
  | Some mc =>
      match inst_dict s inst !! name with
      | Some v => Ok v
      | None =>
          if bool_decide (name ∈ MetaClass.clazz mc) then Ok VNone
          else
            match find_attribute (upper name) (MetaClass.attributes mc) with
            | Some (attr, _) =>
                match inst_dict s inst !! attr with
                | Some v => Ok v
                | None => Raise KeyError
                end
            | None => Raise AttributeError
            end
      end
  end.

(** [self.__dict__[key] = value] *)
Definition dict_store (inst : Inst) (key : string) (v : value) : M unit :=
  λ s, (set_inst_dicts s (<[inst := <[key := v]> (inst_dict s inst)]> (inst_dicts s)),
        Ok ()).

(** [BaseObject.__setattr__] *)
Definition setattr (inst : Inst) (name : string) (v : value) : M unit :=
  mc <- read (λ s, the_metaclass s (inst_class inst));
  match find_attribute (upper name) (MetaClass.attributes mc) with
  | Some (attr, _) =>
      _ <- dict_store inst attr v;
      update_metaclass (inst_class inst) (λ mc, MetaClass.set_cache mc ∅)
  | None => dict_store inst name v
  end.

(** [_is_null]; what it returns is only ever tested for truth, so the
    implicit [None] of a name that is not an attribute is [false]. *)
Definition _is_null (s : State) (instance : Inst) (name : string) : result bool :=
  match getattr s instance name with
  | Raise e => Raise e
  | Ok v =>
      if truthy v then Ok false
      else if bool_decide (v = VNone) then Ok true
      else
        match the_metaclass s (inst_class instance) with
        | Raise e => Raise e
        | Ok mc =>
            match find_attribute (upper name) (MetaClass.attributes mc) with
            | None => Ok false
            | Some (_, attr_ty) =>
                let attr_ty := upper attr_ty in
                if bool_decide (attr_ty = "UNIQUE_ID") then Ok (py_eq v (VInt 0))
                else if bool_decide (attr_ty = "STRING") then
                  match v with
                  | VStr x => Ok (bool_decide (x = ""))
                  | _ => Raise TypeError (* len() of a number *)
                  end
                else Ok false
            end
        end
  end.

(** ** Query.mk_generator and Query.execute *)

(** The inner loop of [mk_generator]: [true] when the [for ... else]
    reaches its [else], [false] on [break]. *)
Fixpoint Query_match (s : State) (inst : Inst) (items : list (string * value))
    : result bool :=
  match items with
  | [] => Ok true
  | (name, v) :: rest =>
      match getattr s inst name with
      | Raise e => Raise e
      | Ok x =>
          if negb (py_eq x v) then Ok false
          else match _is_null s inst name with
               | Raise e => Raise e
               | Ok true => Ok false
               | Ok false => Query_match s inst rest
               end
      end
  end.

(** The outer loop of [mk_generator], from the position [i] of the list
    iterator to the next [yield]. *)
Fixpoint Query_scan (s : State) (items : list (string * value))
    (rest : list Inst) (i : nat) : result (option (Inst * nat)) :=
  match rest with
  | [] => Ok None
  | inst :: rest' =>
      match Query_match s inst items with
      | Raise e => Raise e
      | Ok true => Ok (Some (inst, S i))
      | Ok false => Query_scan s items rest' (S i)
      end
  end.

(** [next(self.generator)]; [None] is [StopIteration]. *)
Definition Query_next (q : qid) : M (option Inst) :=
  Q <- read (λ s, the_query s q);
  match Query.generator Q with
  | None => raise TypeError
  | Some Query.GenClosed => ret None
  | Some (Query.GenAt i) =>
      mc <- read (λ s, the_metaclass s (Query.table Q));
      r <- (λ s, (s, Ok (Query_scan s (Query.items Q)
                            (drop i (MetaClass.instances mc)) i)));
      match r with
      | Raise e =>
          _ <- update_query q (Query.mk (Query.table Q) (Query.items Q)
                                 (Query.result Q) (Some Query.GenClosed));
          raise e
      | Ok None =>
          _ <- update_query q (Query.mk (Query.table Q) (Query.items Q)
                                 (Query.result Q) None);
          ret None
      | Ok (Some (inst, j)) =>
          _ <- update_query q (Query.mk (Query.table Q) (Query.items Q)
                                 (Query.result Q ++ [inst])
                                 (Some (Query.GenAt j)));
          ret (Some inst)
      end
  end.

(** The generator object made by [execute()]. *)
Inductive execution :=
  | ExecNew
  | ExecReplay (i n : nat)
  | ExecResume
  | ExecDone.

(** [while self.generator: yield next(self.generator)]; a [StopIteration]
    that [next] raises inside the generator ends the generator. *)
Definition execute_resume (q : qid) : M (option Inst * execution) :=
  Q <- read (λ s, the_query s q);
  match Query.generator Q with
  | None => ret (None, ExecDone)
  | Some _ =>
      r <- Query_next q;
      match r with
      | Some inst => ret (Some inst, ExecResume)
      | None => ret (None, ExecDone)
      end
  end.

(** [next(it)] on a generator made by [execute()]. *)
Definition execute_next (q : qid) (it : execution) : M (option Inst * execution) :=
  Q <- read (λ s, the_query s q);
  let it := match it with
            | ExecNew => ExecReplay 0 (length (Query.result Q))
            | _ => it
            end in
  match it with
  | ExecReplay i n =>
      if negb (length (Query.result Q) =? n)%nat
      then raise RuntimeError (* deque mutated during iteration *)
      else match Query.result Q !! i with
           | Some inst => ret (Some inst, ExecReplay (S i) n)
           | None => execute_resume q
           end
  | ExecResume => execute_resume q
  | _ => ret (None, ExecDone)
  end.

(** [for inst in q.execute()], to the end. *)
Fixpoint execute_all (fuel : nat) (q : qid) (it : execution) : M (list Inst) :=
  match fuel with
  | O => raise Diverged
  | S fuel =>
      '(r, it) <- execute_next q it;
      match r with
      | None => ret []
      | Some inst =>
          l <- execute_all fuel q it;
          ret (inst :: l)
      end
  end.

(** The number of [next] calls after which a generator made by [execute()]
    on [q] is finished. *)
Definition execute_bound (s : State) (q : qid) : nat :=
  match query_objs s !! q with
  | Some Q =>
      match metaclass_objs s !! Query.table Q with
      | Some mc => length (Query.result Q) + length (MetaClass.instances mc) + 2
      | None => 2
      end
  | None => 1
  end.

(** ** MetaClass *)

(** [MetaClass.query]: the cached query whose [execute()] is returned. *)
Definition MetaClass_query (self : mcid) (kwargs : list (string * value)) : M qid :=
  mc <- read (λ s, the_metaclass s self);
  let index := frozenset kwargs in
  match MetaClass.cache mc !! index with
  | Some q => ret q
  | None =>
      q <- alloc;
      _ <- update_query q (Query.init self kwargs);
      _ <- update_metaclass self
             (λ mc, MetaClass.set_cache mc (<[index := q]> (MetaClass.cache mc)));
      ret q
  end.

(** the [kwargs] that [Link.navigate] builds *)
Fixpoint navigate_kwargs (s : State) (inst : Inst) (key_map : list (string * string))
    (kwargs : list (string * value)) : result (list (string * value)) :=
  match key_map with
  | [] => Ok kwargs
  | (key, mapped_key) :: rest =>
      match getattr s inst key with
      | Raise e => Raise e
      | Ok v => navigate_kwargs s inst rest (dict_set mapped_key v kwargs)
      end
  end.

(** [Link.navigate] *)
Definition Link_navigate (self : Link.t) (inst : Inst) : M qid :=
  kwargs <- read (λ s, navigate_kwargs s inst (Link.key_map self) []);
  MetaClass_query (Link.to_metaclass self) kwargs.

(** [MetaClass.find_link]; [None] when there is no such link. *)
Definition find_link (s : State) (self : mcid) (kind : string) (rel_id : RelId)
    (phrase : string) : result (option lid) :=
  match the_metaclass s self with
  | Raise e => Raise e
  | Ok mc =>
      let key : link_key := (kind, normalize rel_id, phrase) in
      Ok (dict_get key (MetaClass.links mc))
  end.

(** [MetaClass.navigate] *)
Definition MetaClass_navigate (self : mcid) (inst : Inst) (kind : string)
    (rel_id : RelId) (phrase : string) : M qid :=
  mc <- read (λ s, the_metaclass s self);
  let key : link_key := (kind, rel_id, phrase) in
  match dict_get key (MetaClass.links mc) with
  | Some l =>
      link <- read (λ s, the_link s l);
      Link_navigate link inst
  | None => raise UnknownAssociationException
  end.

(** [navigate_many(inst).nav(kind, rel_id, phrase)()] for an instance:
    [_nav] folds the kind to upper case and normalizes the relation id,
    iterates the navigation to its end, and the call collects the truthy
    results, which all instances are, in a [QuerySet]. *)
Definition navigate_many_nav (inst : Inst) (kind : string) (rel_id : RelId)
    (phrase : string) : M (list Inst) :=
  q <- MetaClass_navigate (inst_class inst) inst (upper kind) (normalize rel_id) phrase;
  fuel <- read (λ s, Ok (execute_bound s q));
  l <- execute_all fuel q ExecNew;
  ret (QuerySet l).

(** ** relate, unrelate *)

(** The loop of [_find_link] over [metaclass1.links.values()]; [link] is
    what the second [find_link] has returned. *)
Fixpoint _find_link_in (s : State) (links : list lid) (link : option lid)
    (metaclass1 : mcid) (rel_id phrase : string) : result (option lid) :=
  match links with
  | [] => Ok None
  | other_link :: rest =>
      match the_link s other_link with
      | Raise e => Raise e
      | Ok L =>
          if bool_decide (Some other_link = link)
          then _find_link_in s rest link metaclass1 rel_id phrase
          else if negb (bool_decide (Link.to_metaclass L = metaclass1))
          then _find_link_in s rest link metaclass1 rel_id phrase
          else if negb (bool_decide (Link.rel_id L = rel_id))
          then _find_link_in s rest link metaclass1 rel_id phrase
          else if bool_decide (Link.phrase L = phrase)
          then _find_link_in s rest link metaclass1 rel_id phrase
          else Ok (Some other_link)
      end
  end.

(** is the link there, and not a [ReversedLink]? *)
Definition forward_link (s : State) (link : option lid) : result bool :=
  match link with
  | None => Ok false
  | Some l =>
      match the_link s l with
      | Raise e => Raise e
      | Ok L => Ok (negb (Link.reversed L))
      end
  end.

Definition _find_link (s : State) (inst1 inst2 : Inst) (rel_id : RelId)
    (phrase : string) : result (Inst * Inst * lid) :=
  match the_metaclass s (inst_class inst1), the_metaclass s (inst_class inst2) with
  | Ok metaclass1, Ok metaclass2 =>
      match find_link s (inst_class inst2) (MetaClass.kind metaclass1) rel_id phrase with
      | Raise e => Raise e
      | Ok link =>
          match forward_link s link, link with
          | Raise e, _ => Raise e
          | Ok true, Some l => Ok (inst2, inst1, l)
          | Ok _, _ =>
              match find_link s (inst_class inst1) (MetaClass.kind metaclass2)
                      rel_id phrase with
              | Raise e => Raise e
              | Ok link =>
                  match forward_link s link, link with
                  | Raise e, _ => Raise e
                  | Ok true, Some l => Ok (inst1, inst2, l)
                  | Ok _, _ =>
                      match _find_link_in s (dict_values (MetaClass.links metaclass1))
                              link (inst_class inst1) (rel_name rel_id) phrase with
                      | Raise e => Raise e
                      | Ok (Some l) => Ok (inst1, inst2, l)
                      | Ok None => Raise UnknownAssociationException
                      end
                  end
              end
          end
      end
  | Raise e, _ => Raise e
  | _, Raise e => Raise e
  end.

(** A deferred operation: [partial(op, from_inst, inst, rel_id, phrase)]. *)
Definition deferred : Type := Inst * Inst * string * string.

(** The loop of [_deferred_link_operation] over [metaclass.links.values()]. *)
Fixpoint _deferred_links (inst : Inst) (keys : list string) (links : list lid)
    : M (list deferred) :=
  match links with
  | [] => ret []
  | l :: rest =>
      link <- read (λ s, the_link s l);
      if negb (Link.reversed link) then _deferred_links inst keys rest
      else
        let derived_keys := dict_values (Link.key_map link) in
        if negb (bool_decide (Exists (λ k, k ∈ derived_keys) keys))
        then _deferred_links inst keys rest
        else
          to_metaclass <- read (λ s, the_metaclass s (Link.to_metaclass link));
          found <- navigate_many_nav inst (MetaClass.kind to_metaclass)
                     (RStr (Link.rel_id link)) (Link.phrase link);
          later <- _deferred_links inst keys rest;
          ret (((λ from_inst, (from_inst, inst, Link.rel_id link, Link.phrase link))
                  <$> found) ++ later)
  end.

Definition _deferred_link_operation (inst : Inst) (link : Link.t)
    : M (list deferred) :=
  metaclass <- read (λ s, the_metaclass s (inst_class inst));
  _deferred_links inst (dict_keys (Link.key_map link))
    (dict_values (MetaClass.links metaclass)).

(** The loop of [relate] over [link.key_map.items()]; the result is
    [updated]. *)
Fixpoint relate_keys (from_instance to_instance : Inst)
    (key_map : list (string * string)) (updated : bool) : M bool :=
  match key_map with
  | [] => ret updated
  | (from_name, to_name) :: rest =>
      null <- read (λ s, _is_null s to_instance to_name);
      if (null : bool) then raise ModelException
      else
        from_value <- read (λ s, getattr s from_instance from_name);
        to_value <- read (λ s, getattr s to_instance to_name);
        if py_eq from_value to_value
        then relate_keys from_instance to_instance rest updated
        else
          null <- read (λ s, _is_null s from_instance from_name);
          if negb null then raise ModelException
          else
            _ <- setattr from_instance from_name to_value;
            relate_keys from_instance to_instance rest true
  end.

(** The loop of [unrelate] over the keys of [link.key_map]. *)
Fixpoint unrelate_keys (from_instance : Inst) (keys : list string)
    (updated : bool) : M bool :=
  match keys with
  | [] => ret updated
  | from_name :: rest =>
      null <- read (λ s, _is_null s from_instance from_name);
      if (null : bool) then raise ModelException
      else
        _ <- setattr from_instance from_name VNone;
        unrelate_keys from_instance rest true
  end.

(** [relate]; an argument may be [None]. The fuel bounds the nesting of the
    deferred calls. *)
Fixpoint relate (fuel : nat) (from_instance to_instance : option Inst)
    (rel_id : RelId) (phrase : string) : M bool :=
  match from_instance, to_instance with
  | Some from_instance, Some to_instance =>
      match fuel with
      | O => raise Diverged
      | S fuel =>
          '(from_instance, to_instance, l) <-
            read (λ s, _find_link s from_instance to_instance rel_id phrase);
          link <- read (λ s, the_link s l);
          post_process <- _deferred_link_operation from_instance link;
          updated <- relate_keys from_instance to_instance (Link.key_map link) false;
          if (updated : bool) then
            _ <- for_each post_process
                   (λ '(from_inst, inst, rel_id, phrase),
                      _ <- relate fuel (Some from_inst) (Some inst) (RStr rel_id) phrase;
                      ret ());
            ret updated
          else ret updated
      end
  | _, _ => ret false
  end.

(** [unrelate] *)
Fixpoint unrelate (fuel : nat) (from_instance to_instance : option Inst)
    (rel_id : RelId) (phrase : string) : M bool :=
  match from_instance, to_instance with
  | Some from_instance, Some to_instance =>
      match fuel with
      | O => raise Diverged
      | S fuel =>
          '(from_instance, to_instance, l) <-
            read (λ s, _find_link s from_instance to_instance rel_id phrase);
          link <- read (λ s, the_link s l);
          post_process <- _deferred_link_operation from_instance link;
          updated <- unrelate_keys from_instance (dict_keys (Link.key_map link)) false;
          if (updated : bool) then
            _ <- for_each post_process
                   (λ '(from_inst, inst, rel_id, phrase),
                      _ <- unrelate fuel (Some from_inst) (Some inst) (RStr rel_id) phrase;
                      ret ());
            ret updated
          else ret updated
      end
  | _, _ => ret false
  end.

(** ** Definitions and instances *)

Definition update_metamodel (f : MetaModel.t → MetaModel.t) : M unit :=
  λ s, (set_metamodel s (f (metamodel s)), Ok ()).

(** [MetaClass.append_attribute] *)
Definition append_attribute (self : mcid) (name ty : string) : M unit :=
  update_metaclass self
    (λ mc, MetaClass.set_clazz
             (MetaClass.set_attributes mc (MetaClass.attributes mc ++ [(name, ty)]))
             (MetaClass.clazz mc ∪ {[name]})).

(** [MetaModel.define_class] *)
Definition define_class (kind : string) (attributes : list (string * string))
    : M mcid :=
  let ukind := upper kind in
  mm <- read (λ s, Ok (metamodel s));
  if bool_decide (is_Some (dict_get ukind (MetaModel.metaclasses mm)))
  then raise ModelException
  else
    metaclass <- alloc;
    _ <- (λ s, (set_metaclass_objs s
                  (<[metaclass := MetaClass.init kind true]> (metaclass_objs s)),
                Ok ()));
    _ <- for_each attributes (λ a, append_attribute metaclass a.1 a.2);
    _ <- update_metamodel
           (λ mm, MetaModel.mk (dict_set ukind metaclass (MetaModel.metaclasses mm))
                    (MetaModel.associations mm) (MetaModel.id_generator mm));
    ret metaclass.

(** [MetaModel.find_metaclass] *)
Definition find_metaclass (s : State) (kind : string) : result mcid :=
  match dict_get (upper kind) (MetaModel.metaclasses (metamodel s)) with
  | Some metaclass => Ok metaclass
  | None => Raise UnknownClassException
  end.

(** [MetaClass.add_link] *)
Definition add_link (self : mcid) (metaclass : mcid) (rel_id : RelId)
    (key_map : list (string * string)) (phrase : string)
    (conditional many reverse : bool) : M lid :=
  target <- read (λ s, the_metaclass s metaclass);
  let link :=
    if reverse
    then Link.init_reversed self rel_id metaclass key_map phrase conditional many
    else Link.init self rel_id metaclass key_map phrase conditional many in
  l <- alloc;
  _ <- (λ s, (set_link_objs s (<[l := link]> (link_objs s)), Ok ()));
  let names : gset string := list_to_set (dict_keys (Link.key_map link)) in
  _ <- update_metaclass self
         (λ mc, if reverse
                then MetaClass.set_identifying_attributes mc
                       (MetaClass.identifying_attributes mc ∪ names)
                else MetaClass.set_referential_attributes mc
                       (MetaClass.referential_attributes mc ∪ names));
  let key : link_key := (MetaClass.kind target, normalize rel_id, phrase) in
  _ <- update_metaclass self
         (λ mc, MetaClass.set_links mc (dict_set key l (MetaClass.links mc)));
  ret l.

(** [MetaModel.define_association] *)
Definition define_association (rel_id : RelId)
    (source_kind : string) (source_keys : list string)
    (source_many source_conditional : bool) (source_phrase : string)
    (target_kind : string) (target_keys : list string)
    (target_many target_conditional : bool) (target_phrase : string)
    : M Association.t :=
  source_metaclass <- read (λ s, find_metaclass s source_kind);
  target_metaclass <- read (λ s, find_metaclass s target_kind);
  let key_map := dict_of (zip source_keys target_keys) in
  link1 <- add_link source_metaclass target_metaclass rel_id key_map
             target_phrase target_conditional target_many false;
  link2 <- add_link target_metaclass source_metaclass rel_id key_map
             source_phrase source_conditional source_many true;
  let ass := Association.mk (rel_name rel_id) link1 link2 in
  _ <- update_metamodel
         (λ mm, MetaModel.mk (MetaModel.metaclasses mm)
                  (MetaModel.associations mm ++ [ass])
                  (MetaModel.id_generator mm));
  ret ass.

(** [MetaClass.default_value] *)
Definition default_value (self : mcid) (type_name : string) : M value :=
  let uname := upper type_name in
  if bool_decide (uname = "BOOLEAN") then ret (VBool false)
  else if bool_decide (uname = "INTEGER") then ret (VInt 0)
  else if bool_decide (uname = "REAL") then ret (VReal 0%Qc)
  else if bool_decide (uname = "STRING") then ret (VStr "")
  else if bool_decide (uname = "UNIQUE_ID") then
    mc <- read (λ s, the_metaclass s self);
    if MetaClass.metamodel mc then
      λ s, let mm := metamodel s in
           let n := (MetaModel.id_generator mm + 1)%Z in
           (set_metamodel s (MetaModel.mk (MetaModel.metaclasses mm)
                               (MetaModel.associations mm) n),
            Ok (VInt n))
    else ret VNone
  else raise ModelException.

(** [MetaClass.new] *)
Definition new (self : mcid) (args : list value) (kwargs : list (string * value))
    : M Inst :=
  (* inst = self.clazz(): BaseObject.__init__ clears the cache *)
  _ <- update_metaclass self (λ mc, MetaClass.set_cache mc ∅);
  o <- alloc;
  let inst := mkInst o self in
  mc <- read (λ s, the_metaclass s self);
  _ <- for_each (MetaClass.attributes mc)
         (λ '(name, ty),
            if bool_decide (name ∈ MetaClass.referential_attributes mc)
            then setattr inst name VNone
            else v <- default_value self ty; setattr inst name v);
  _ <- for_each (zip (fst <$> MetaClass.attributes mc) args)
         (λ '(name, v), setattr inst name v);
  _ <- for_each kwargs (λ '(name, v), setattr inst name v);
  _ <- update_metaclass self
         (λ mc, MetaClass.set_instances mc (MetaClass.instances mc ++ [inst]));
  ret inst.

(** [MetaClass.delete] *)
Definition MetaClass_delete (self : mcid) (inst : Inst) : M unit :=
  mc <- read (λ s, the_metaclass s self);
  if bool_decide (inst ∈ MetaClass.instances mc) then
    _ <- update_metaclass self
           (λ mc, MetaClass.set_instances mc
                    (Meta.list_remove_first inst (MetaClass.instances mc)));
    update_metaclass self (λ mc, MetaClass.set_cache mc ∅)
  else raise ModelException.

End Model.

(** [PERSON(id UNIQUE_ID, name STRING)] and
    [DOG(name STRING, owner_id UNIQUE_ID)] with R1 as before, in
    [xtuml.model]: [owner_id] holds a copy of the owner's [id]. *)
Module ModelKennel.
Import Model.

Definition empty : State := mkState ∅ ∅ ∅ ∅ (MetaModel.mk [] [] 0) 0%nat.

Definition person : mcid := 0%nat.
Definition dog : mcid := 1%nat.

Definition populate : M unit :=
  _ <- define_class "PERSON" [("id", "UNIQUE_ID"); ("name", "STRING")];
  _ <- define_class "DOG" [("name", "STRING"); ("owner_id", "UNIQUE_ID")];
  _ <- define_association (RInt 1)
         "DOG" ["owner_id"] false true ""
         "PERSON" ["id"] false false "";
  _ <- new person [] [("id", VInt 42); ("name", VStr "Ann")];
  _ <- new person [] [("id", VInt 43); ("name", VStr "Bob")];
  _ <- new dog [] [("name", VStr "Rex")];
  _ <- new dog [] [("name", VStr "Spot")];
  ret ().

Definition ann : Inst := mkInst 4 person.
Definition bob : Inst := mkInst 5 person.
Definition rex : Inst := mkInst 6 dog.
Definition spot : Inst := mkInst 7 dog.

(** nobody is related *)
Definition s0 : State := (populate empty).1.
(** Rex is Ann's *)
Definition s1 : State := (relate 1 (Some rex) (Some ann) (RInt 1) "" s0).1.

(** the link from the dogs to their owners, and the metaclass of the
    dogs as it is once Rex is Ann's *)
Definition owner : Link.t :=
  Link.init dog (RInt 1) person [("owner_id", "id")] "" false false.
Definition dogs1 : MetaClass.t :=
  Eval vm_compute in default (MetaClass.init "" false) (metaclass_objs s1 !! dog).
(** the metaclasses while nobody is related *)
Definition dogs0 : MetaClass.t :=
  Eval vm_compute in default (MetaClass.init "" false) (metaclass_objs s0 !! dog).
End ModelKennel.

(** [Person(id UNIQUE_ID)], [Dog(id UNIQUE_ID, owner_id UNIQUE_ID)] and
    [Puppy(id UNIQUE_ID, owner_id UNIQUE_ID)], the kinds in mixed case,
    with R1 ([Dog.owner_id] refers to [Person.id]) and R2
    ([Puppy.owner_id] refers to [Dog.id]). Rex is created with the [id] of
    Ann as his [owner_id]. *)
Module ModelLitter.
Import Model.

Definition person : mcid := 0%nat.
Definition dog : mcid := 1%nat.
Definition puppy : mcid := 2%nat.

Definition populate : M unit :=
  _ <- define_class "Person" [("id", "UNIQUE_ID")];
  _ <- define_class "Dog" [("id", "UNIQUE_ID"); ("owner_id", "UNIQUE_ID")];
  _ <- define_class "Puppy" [("id", "UNIQUE_ID"); ("owner_id", "UNIQUE_ID")];
  _ <- define_association (RInt 1)
         "Dog" ["owner_id"] false true ""
         "Person" ["id"] false false "";
  _ <- define_association (RInt 2)
         "Puppy" ["owner_id"] true true ""
         "Dog" ["id"] false false "";
  _ <- new person [] [("id", VInt 42)];
  _ <- new dog [] [("id", VInt 7); ("owner_id", VInt 42)];
  ret ().

Definition ann : Inst := mkInst 7 person.
Definition rex : Inst := mkInst 8 dog.

Definition s0 : State := (populate ModelKennel.empty).1.
End ModelLitter.

(** [PERSON(id UNIQUE_ID)] and [DOG(owner_id UNIQUE_ID, OWNER_ID UNIQUE_ID)],
    a class that declares one name in two letter cases, with R1 formalized
    on the second spelling: [DOG.OWNER_ID] refers to [PERSON.id]. *)
Module ModelAlias.
Import Model.

Definition person : mcid := 0%nat.
Definition dog : mcid := 1%nat.

Definition populate : M unit :=
  _ <- define_class "PERSON" [("id", "UNIQUE_ID")];
  _ <- define_class "DOG" [("owner_id", "UNIQUE_ID"); ("OWNER_ID", "UNIQUE_ID")];
  _ <- define_association (RInt 1)
         "DOG" ["OWNER_ID"] false true ""
         "PERSON" ["id"] false false "";
  _ <- new person [] [("id", VInt 42)];
  _ <- new dog [] [];
  ret ().

Definition ann : Inst := mkInst 4 person.
Definition rex : Inst := mkInst 5 dog.

Definition s0 : State := (populate ModelKennel.empty).1.
Definition s1 : State := (relate 1 (Some rex) (Some ann) (RInt 1) "" s0).1.
End ModelAlias.

(** * bridgepoint/gen_sql_schema.py *)

Module GenSqlSchema.
(** [mult_cond]; the arguments are taken by their truth value. *)
Definition mult_cond (mult cond : bool) : string :=
  let s := if mult then "M" else "1" in
  if cond then s +:+ "C" else s.
End GenSqlSchema.

(** * Properties *)
(** * Properties *)

(** ** Link: connect, disconnect, navigate *)

Section LinkFacts.
Import Meta.
Implicit Types (L : Link.t) (a b : Inst).

Lemma Link_item_navigate L a : Link.item L a = Link.navigate L a.
Proof. unfold Link.item, Link.navigate. by destruct (Link.dict L !! a). Qed.

Lemma Link_navigate_set_dict L d a :
  Link.navigate (Link.set_dict L d) a = default ∅ (d !! a).
Proof. unfold Link.navigate. simpl. by destruct (d !! a). Qed.

(** A neighbour that is present is not added again. *)
Lemma Link_connect_present L a b check :
  b ∈ Link.navigate L a → Link.connect L a b check = (L, true).
Proof.
  intros Hb. unfold Link.connect.
  assert (is_Some (Link.dict L !! a)) as Hs.
  { unfold Link.navigate in Hb. destruct (Link.dict L !! a); [by eexists|].
    set_solver. }
  rewrite (bool_decide_eq_true_2 _ Hs).
  change (Link.item L a) with (Link.navigate L a) in *. by rewrite (bool_decide_eq_true_2 _ Hb).
Qed.

(** The cardinality check: a link that is not many takes no second
    neighbour. *)
Lemma Link_connect_reject L a b :
  Link.many L = false → Link.navigate L a ≠ ∅ → b ∉ Link.navigate L a →
  Link.connect L a b true = (L, false).
Proof.
  intros Hm Hne Hb. unfold Link.connect.
  assert (is_Some (Link.dict L !! a)) as Hs.
  { unfold Link.navigate in Hne. destruct (Link.dict L !! a); [by eexists|done]. }
  rewrite (bool_decide_eq_true_2 _ Hs).
  change (Link.item L a) with (Link.navigate L a) in *. rewrite (bool_decide_eq_false_2 _ Hb).
  rewrite (bool_decide_eq_false_2 _ Hne). by rewrite Hm.
Qed.

(** What [connect] does to the neighbours of every instance. *)
Lemma Link_connect_navigate L a b check x :
  Link.navigate (Link.connect L a b check).1 x =
    if (Link.connect L a b check).2 && bool_decide (x = a)
    then Link.navigate L a ∪ {[b]}
    else Link.navigate L x.
Proof.
  unfold Link.connect.
  destruct (bool_decide (is_Some (Link.dict L !! a))) eqn:Hs.
  - apply bool_decide_eq_true in Hs.
    change (Link.item L a) with (Link.navigate L a) in *.
    destruct (bool_decide (b ∈ Link.navigate L a)) eqn:Hb; simpl.
    { apply bool_decide_eq_true in Hb.
      destruct (bool_decide (x = a)) eqn:Hx; [|done].
      apply bool_decide_eq_true in Hx. subst x. set_solver. }
    destruct (negb (bool_decide (Link.navigate L a = ∅)) && negb (Link.many L) && check);
      simpl; [done|].
    rewrite Link_navigate_set_dict.
    destruct (bool_decide (x = a)) eqn:Hx.
    + apply bool_decide_eq_true in Hx. subst x. by rewrite lookup_insert_eq.
    + apply bool_decide_eq_false in Hx. rewrite lookup_insert_ne by done.
      unfold Link.navigate. by destruct (Link.dict L !! x).
  - apply bool_decide_eq_false in Hs.
    assert (Link.dict L !! a = None) as Hnone.
    { destruct (Link.dict L !! a) eqn:E; [|done]. exfalso. apply Hs. by eexists. }
    assert (Link.navigate L a = ∅) as Hnav.
    { unfold Link.navigate. by rewrite Hnone. }
    unfold Link.item. simpl. rewrite lookup_insert_eq. simpl.
    rewrite bool_decide_eq_false_2 by set_solver.
    rewrite (bool_decide_eq_true_2 (∅ = ∅)) by done. simpl.
    rewrite Link_navigate_set_dict.
    destruct (bool_decide (x = a)) eqn:Hx.
    + apply bool_decide_eq_true in Hx. subst x.
      rewrite lookup_insert_eq. simpl. by rewrite Hnav.
    + apply bool_decide_eq_false in Hx.
      rewrite !lookup_insert_ne by done.
      unfold Link.navigate. by destruct (Link.dict L !! x).
Qed.

(** [connect] changes nothing of a link but its dictionary. *)
Lemma Link_connect_schema L a b check :
  Link.set_dict (Link.connect L a b check).1 ∅ = Link.set_dict L ∅.
Proof.
  unfold Link.connect.
  repeat (case_match; simpl); by destruct L.
Qed.

Lemma Link_disconnect_schema L a b :
  Link.set_dict (Link.disconnect L a b).1 ∅ = Link.set_dict L ∅.
Proof.
  unfold Link.disconnect.
  repeat (case_match; simpl); by destruct L.
Qed.


(** What [disconnect] does to the neighbours of every instance. *)
Lemma Link_disconnect_navigate L a b x :
  Link.navigate (Link.disconnect L a b).1 x =
    if (Link.disconnect L a b).2 && bool_decide (x = a)
    then Link.navigate L a ∖ {[b]}
    else Link.navigate L x.
Proof.
  unfold Link.disconnect.
  destruct (bool_decide (is_Some (Link.dict L !! a))) eqn:Hs; simpl; [|done].
  change (Link.item L a) with (Link.navigate L a) in *.
  destruct (bool_decide (b ∈ Link.navigate L a)) eqn:Hb; simpl; [|done].
  rewrite Link_navigate_set_dict.
  destruct (bool_decide (x = a)) eqn:Hx.
  - apply bool_decide_eq_true in Hx. subst x. by rewrite lookup_insert_eq.
  - apply bool_decide_eq_false in Hx. rewrite lookup_insert_ne by done.
    unfold Link.navigate. by destruct (Link.dict L !! x).
Qed.

Lemma Link_disconnect_result L a b :
  (Link.disconnect L a b).2 = bool_decide (b ∈ Link.navigate L a).
Proof.
  unfold Link.disconnect.
  destruct (bool_decide (is_Some (Link.dict L !! a))) eqn:Hs; simpl.
  - change (Link.item L a) with (Link.navigate L a) in *. by destruct (bool_decide (b ∈ Link.navigate L a)).
  - apply bool_decide_eq_false in Hs. symmetry. apply bool_decide_eq_false.
    unfold Link.navigate. destruct (Link.dict L !! a) eqn:E; [|set_solver].
    exfalso. apply Hs. by eexists.
Qed.
End LinkFacts.

(** ** relate and unrelate on the store *)

Section RelateFacts.
Import Meta.
Implicit Types (s : State) (a b : Inst) (l : lid).

Lemma set_link_objs_id s : set_link_objs s (link_objs s) = s.
Proof. by destruct s. Qed.

Lemma on_link_unfold {A} l (f : Link.t → Link.t * A) s L :
  link_objs s !! l = Some L →
  on_link l f s = (set_link_objs s (<[l := (f L).1]> (link_objs s)), Ok (f L).2).
Proof. intros H. unfold on_link. by rewrite H. Qed.

(** A method that leaves the link as it is leaves the store as it is. *)
Lemma on_link_same {A} l (f : Link.t → Link.t * A) s L :
  link_objs s !! l = Some L → (f L).1 = L →
  on_link l f s = (s, Ok (f L).2).
Proof.
  intros H Hf. rewrite (on_link_unfold _ _ _ _ H), Hf.
  by rewrite insert_id, set_link_objs_id.
Qed.

Lemma neighbours_on_link {A} l (f : Link.t → Link.t * A) s L l' x :
  link_objs s !! l = Some L →
  neighbours (on_link l f s).1 l' x =
    if bool_decide (l' = l) then Link.navigate (f L).1 x else neighbours s l' x.
Proof.
  intros H. rewrite (on_link_unfold _ _ _ _ H). unfold neighbours. simpl.
  case_bool_decide as Hl.
  - subst l'. by rewrite lookup_insert_eq.
  - by rewrite lookup_insert_ne.
Qed.

(** Two stores with the same classes, associations and link schemas
    resolve links alike. *)
Definition same_schema s s' : Prop :=
  metaclass_objs s' = metaclass_objs s ∧ metamodel s' = metamodel s ∧
  link_schema s' = link_schema s.

Lemma same_schema_refl s : same_schema s s.
Proof. done. Qed.

Lemma same_schema_trans s1 s2 s3 :
  same_schema s1 s2 → same_schema s2 s3 → same_schema s1 s3.
Proof. intros (?&?&?) (?&?&?). repeat split; congruence. Qed.

Lemma same_schema_on_link {A} l (f : Link.t → Link.t * A) s :
  (∀ L, Link.set_dict (f L).1 ∅ = Link.set_dict L ∅) →
  same_schema s (on_link l f s).1.
Proof.
  intros Hf. unfold on_link.
  destruct (link_objs s !! l) as [L|] eqn:HL; [|apply same_schema_refl].
  repeat split; simpl. unfold link_schema. simpl.
  rewrite fmap_insert, Hf. apply insert_id.
  by rewrite lookup_fmap, HL.
Qed.

Lemma same_schema_link s s' l L :
  same_schema s s' → link_objs s !! l = Some L →
  ∃ L', link_objs s' !! l = Some L' ∧ Link.set_dict L' ∅ = Link.set_dict L ∅.
Proof.
  intros (_&_&Hs) HL.
  assert (link_schema s' !! l = link_schema s !! l) as E by by rewrite Hs.
  unfold link_schema in E. rewrite !lookup_fmap, HL in E. simpl in E.
  destruct (link_objs s' !! l) as [L'|]; [|done].
  exists L'. split; [done|]. simpl in E. congruence.
Qed.

Lemma same_schema_the_link s s' l :
  same_schema s s' →
  match the_link s l, the_link s' l with
  | Ok L, Ok L' => Link.set_dict L' ∅ = Link.set_dict L ∅
  | Raise e, Raise e' => e = e'
  | _, _ => False
  end.
Proof.
  intros (_&_&Hs).
  assert (link_schema s' !! l = link_schema s !! l) as E by by rewrite Hs.
  unfold link_schema in E. rewrite !lookup_fmap in E. unfold the_link.
  destruct (link_objs s !! l), (link_objs s' !! l); simpl in E; try done.
  congruence.
Qed.

Lemma schema_fields L L' :
  Link.set_dict L' ∅ = Link.set_dict L ∅ →
  Link.from_metaclass L' = Link.from_metaclass L ∧
  Link.to_metaclass L' = Link.to_metaclass L ∧
  Link.phrase L' = Link.phrase L ∧ Link.many L' = Link.many L ∧
  Link.rel_id L' = Link.rel_id L.
Proof. destruct L, L'. unfold Link.set_dict. simpl. intros [=]. by subst. Qed.
End RelateFacts.

Section FindLinkFacts.
Import Meta.
Implicit Types (s : State) (a b : Inst) (l : lid).

Lemma _find_link_in_schema s s' assocs a b R p :
  same_schema s s' →
  _find_link_in s' assocs a b R p = _find_link_in s assocs a b R p ∧
  link_from_in s' assocs a b R p = link_from_in s assocs a b R p.
Proof.
  intros Hs. induction assocs as [|ass rest [IH1 IH2]]; [done|]. simpl.
  destruct (negb (bool_decide (Association.rel_id ass = R))); [done|].
  pose proof (same_schema_the_link _ _ (Association.source_link ass) Hs) as H1.
  pose proof (same_schema_the_link _ _ (Association.target_link ass) Hs) as H2.
  destruct (the_link s (Association.source_link ass)) as [L1|],
           (the_link s' (Association.source_link ass)) as [L1'|]; try done.
  destruct (the_link s (Association.target_link ass)) as [L2|],
           (the_link s' (Association.target_link ass)) as [L2'|]; try done.
  apply schema_fields in H1 as (->&->&->&_).
  apply schema_fields in H2 as (->&->&->&_).
  rewrite IH1, IH2. done.
Qed.

Lemma _find_link_schema s s' a b R p :
  same_schema s s' →
  _find_link s' a b R p = _find_link s a b R p ∧
  link_from s' a b R p = link_from s a b R p.
Proof.
  intros Hs. unfold _find_link, link_from, the_metaclass.
  destruct (Hs) as (->&->&_).
  destruct (_find_link_in_schema s s' (MetaModel.associations (metamodel s))
              a b (normalize R) p Hs) as [-> ->].
  done.
Qed.

(** [_find_link] either keeps the order of the two instances or swaps
    them, and which of the two depends on their classes only. *)
Definition keeps s (a b : Inst) R p (ass : Association.t) : Prop :=
  ∀ a' b', inst_class a' = inst_class a → inst_class b' = inst_class b →
    _find_link s a' b' R p = Ok (a', b', ass) ∧
    link_from s a' b' R p = Ok (Association.source_link ass).

Definition swaps s (a b : Inst) R p (ass : Association.t) : Prop :=
  ∀ a' b', inst_class a' = inst_class a → inst_class b' = inst_class b →
    _find_link s a' b' R p = Ok (b', a', ass) ∧
    link_from s a' b' R p = Ok (Association.target_link ass).

Lemma _find_link_in_cons s ass rest a b R p :
  _find_link_in s (ass :: rest) a b R p =
    if negb (bool_decide (Association.rel_id ass = R))
    then _find_link_in s rest a b R p
    else
      match the_link s (Association.source_link ass),
            the_link s (Association.target_link ass) with
      | Ok source_link, Ok target_link =>
          if bool_decide (Link.from_metaclass source_link = inst_class a)
             && bool_decide (Link.to_metaclass source_link = inst_class b)
             && bool_decide (Link.phrase target_link = p)
          then Ok (a, b, ass)
          else if bool_decide (Link.from_metaclass target_link = inst_class a)
                  && bool_decide (Link.to_metaclass target_link = inst_class b)
                  && bool_decide (Link.phrase source_link = p)
          then Ok (b, a, ass)
          else _find_link_in s rest a b R p
      | _, _ => Raise Dangling
      end.
Proof. reflexivity. Qed.

Lemma link_from_in_cons s ass rest a b R p :
  link_from_in s (ass :: rest) a b R p =
    if negb (bool_decide (Association.rel_id ass = R))
    then link_from_in s rest a b R p
    else
      match the_link s (Association.source_link ass),
            the_link s (Association.target_link ass) with
      | Ok source_link, Ok target_link =>
          if bool_decide (Link.from_metaclass source_link = inst_class a)
             && bool_decide (Link.to_metaclass source_link = inst_class b)
             && bool_decide (Link.phrase target_link = p)
          then Ok (Association.source_link ass)
          else if bool_decide (Link.from_metaclass target_link = inst_class a)
                  && bool_decide (Link.to_metaclass target_link = inst_class b)
                  && bool_decide (Link.phrase source_link = p)
          then Ok (Association.target_link ass)
          else link_from_in s rest a b R p
      | _, _ => Raise Dangling
      end.
Proof. reflexivity. Qed.

Lemma _find_link_in_cases s assocs a b R p :
  is_ok (_find_link_in s assocs a b R p) = true →
  ∃ ass,
    (∀ a' b', inst_class a' = inst_class a → inst_class b' = inst_class b →
       _find_link_in s assocs a' b' R p = Ok (a', b', ass) ∧
       link_from_in s assocs a' b' R p = Ok (Association.source_link ass)) ∨
    (∀ a' b', inst_class a' = inst_class a → inst_class b' = inst_class b →
       _find_link_in s assocs a' b' R p = Ok (b', a', ass) ∧
       link_from_in s assocs a' b' R p = Ok (Association.target_link ass)).
Proof.
  induction assocs as [|ass rest IH]; [done|].
  rewrite _find_link_in_cons.
  destruct (negb (bool_decide (Association.rel_id ass = R))) eqn:HR.
  { intros H. destruct (IH H) as [ass' Hc]. exists ass'.
    destruct Hc as [Hc|Hc]; [left|right]; intros a' b' Ha Hb;
      rewrite _find_link_in_cons, link_from_in_cons, HR; by apply Hc. }
  destruct (the_link s (Association.source_link ass)) as [L1|] eqn:E1; [|done].
  destruct (the_link s (Association.target_link ass)) as [L2|] eqn:E2; [|done].
  destruct (bool_decide (Link.from_metaclass L1 = inst_class a)
            && bool_decide (Link.to_metaclass L1 = inst_class b)
            && bool_decide (Link.phrase L2 = p)) eqn:C1.
  { intros _. exists ass. left. intros a' b' Ha Hb.
    by rewrite _find_link_in_cons, link_from_in_cons, HR, E1, E2, Ha, Hb, C1. }
  destruct (bool_decide (Link.from_metaclass L2 = inst_class a)
            && bool_decide (Link.to_metaclass L2 = inst_class b)
            && bool_decide (Link.phrase L1 = p)) eqn:C2.
  { intros _. exists ass. right. intros a' b' Ha Hb.
    by rewrite _find_link_in_cons, link_from_in_cons, HR, E1, E2, Ha, Hb, C1, C2. }
  intros H. destruct (IH H) as [ass' Hc]. exists ass'.
  destruct Hc as [Hc|Hc]; [left|right]; intros a' b' Ha Hb;
    rewrite _find_link_in_cons, link_from_in_cons, HR, E1, E2, Ha, Hb, C1, C2;
    by apply Hc.
Qed.

Lemma _find_link_cases s a b R p :
  is_ok (_find_link s a b R p) = true →
  ∃ ass, keeps s a b R p ass ∨ swaps s a b R p ass.
Proof.
  unfold keeps, swaps. unfold _find_link, link_from.
  destruct (the_metaclass s (inst_class a)) as [mc|] eqn:Emc; [|done].
  destruct (MetaClass.metamodel mc) eqn:Emm; [|done].
  intros H. destruct (_find_link_in_cases _ _ _ _ _ _ H) as [ass Hc].
  exists ass. destruct Hc as [Hc|Hc]; [left|right]; intros a' b' Ha Hb;
    rewrite Ha, Emc, Emm; by apply Hc.
Qed.
End FindLinkFacts.

Section ConnectOnStore.
Import Meta.
Implicit Types (s : State) (a b x y z : Inst) (l : lid).

Lemma neighbours_lookup s l L x :
  link_objs s !! l = Some L → neighbours s l x = Link.navigate L x.
Proof. intros H. unfold neighbours. by rewrite H. Qed.

(** One [connect] on a link object of the store. *)
Lemma connect_on s l L x y c :
  link_objs s !! l = Some L →
  ∃ s', on_link l (λ L, Link.connect L x y c) s
          = (s', Ok (Link.connect L x y c).2) ∧
        same_schema s s' ∧
        (∀ l' z, neighbours s' l' z =
                   if bool_decide (l' = l) && (Link.connect L x y c).2
                      && bool_decide (z = x)
                   then neighbours s l x ∪ {[y]}
                   else neighbours s l' z) ∧
        ((Link.connect L x y c).1 = L → s' = s).
Proof.
  intros HL. eexists. split.
  { exact (on_link_unfold l (λ L, Link.connect L x y c) s L HL). }
  split.
  { pose proof (same_schema_on_link l (λ L, Link.connect L x y c) s) as H.
    rewrite (on_link_unfold _ _ _ _ HL) in H. apply H.
    intros L0. exact (Link_connect_schema L0 x y c). }
  split.
  - intros l' z.
    pose proof (neighbours_on_link l (λ L, Link.connect L x y c) s L l' z HL) as H.
    rewrite (on_link_unfold _ _ _ _ HL) in H. simpl in H. rewrite H.
    case_bool_decide as Hl; simpl; [|done]. subst l'.
    rewrite Link_connect_navigate, (neighbours_lookup _ _ _ _ HL).
    by rewrite (neighbours_lookup _ _ _ _ HL).
  - intros E. rewrite E, insert_id by done. apply set_link_objs_id.
Qed.

Lemma connect_on_present s l x y c :
  y ∈ neighbours s l x →
  ∃ L, link_objs s !! l = Some L ∧ Link.connect L x y c = (L, true).
Proof.
  unfold neighbours. destruct (link_objs s !! l) as [L|]; [|set_solver].
  intros H. exists L. split; [done|]. by apply Link_connect_present.
Qed.

Lemma relate_unfold s a b R p i1 i2 ass :
  _find_link s a b R p = Ok (i1, i2, ass) →
  relate (Some a) (Some b) R p s =
    (ok <- on_link (Association.source_link ass)
                   (λ L, Link.connect L i1 i2 true);
     if negb ok then raise RelateException
     else
       ok <- on_link (Association.target_link ass)
                     (λ L, Link.connect L i2 i1 true);
       if negb ok then raise RelateException
       else ret true) s.
Proof. intros H. unfold relate, bind at 1, read. by rewrite H. Qed.

Lemma neighbours_after_two (N : nat → Inst → gset Inst) (src tgt : nat)
    (i1 i2 : Inst) (l : nat) (z : Inst) :
  (if bool_decide (l = tgt) && bool_decide (z = i2)
   then (if bool_decide (tgt = src) && bool_decide (i2 = i1)
         then N src i1 ∪ {[i2]} else N tgt i2) ∪ {[i1]}
   else if bool_decide (l = src) && bool_decide (z = i1)
        then N src i1 ∪ {[i2]} else N l z)
  ⊆ N l z
    ∪ (if bool_decide (l = src ∧ z = i1) then {[i2]} else ∅)
    ∪ (if bool_decide (l = tgt ∧ z = i2) then {[i1]} else ∅).
Proof.
  rewrite !bool_decide_and.
  destruct (decide (l = tgt)) as [->|Ht].
  - rewrite (bool_decide_eq_true_2 (tgt = tgt) eq_refl). simpl.
    destruct (decide (z = i2)) as [->|Hz].
    + rewrite (bool_decide_eq_true_2 (i2 = i2) eq_refl). simpl.
      destruct (bool_decide (tgt = src)) eqn:E1; simpl.
      * apply bool_decide_eq_true in E1. subst.
        destruct (bool_decide (i2 = i1)) eqn:E2; simpl.
        -- apply bool_decide_eq_true in E2. subst.
           apply union_subseteq. split; [|apply union_subseteq_r].
           apply union_subseteq_l.
        -- apply union_subseteq. split; [|apply union_subseteq_r].
           etrans; [|apply union_subseteq_l]. apply union_subseteq_l.
      * apply union_subseteq. split; [|apply union_subseteq_r].
        etrans; [|apply union_subseteq_l]. apply union_subseteq_l.
    + rewrite (bool_decide_eq_false_2 (z = i2) Hz). simpl.
      rewrite ?andb_false_r.
      destruct (bool_decide (tgt = src) && bool_decide (z = i1)) eqn:E; simpl.
      * apply andb_true_iff in E as [E1 E2].
        apply bool_decide_eq_true in E1, E2. subst.
        rewrite union_empty_r_L.
        apply union_subseteq. split; [apply union_subseteq_l|apply union_subseteq_r].
      * rewrite !union_empty_r_L. done.
  - rewrite (bool_decide_eq_false_2 (l = tgt) Ht). simpl.
    destruct (bool_decide (l = src) && bool_decide (z = i1)) eqn:E; simpl.
    + apply andb_true_iff in E as [E1 E2].
      apply bool_decide_eq_true in E1, E2. subst.
      rewrite union_empty_r_L.
      apply union_subseteq. split; [apply union_subseteq_l|apply union_subseteq_r].
    + rewrite !union_empty_r_L. done.
Qed.

(** What a [relate] that returns has done. *)
Lemma relate_ok_inv s s1 a b R p r :
  relate (Some a) (Some b) R p s = (s1, Ok r) →
  r = true ∧ same_schema s s1 ∧
  ∃ i1 i2 ass,
    _find_link s a b R p = Ok (i1, i2, ass) ∧
    i2 ∈ neighbours s1 (Association.source_link ass) i1 ∧
    i1 ∈ neighbours s1 (Association.target_link ass) i2 ∧
    ∀ l z, neighbours s1 l z ⊆
             neighbours s l z
             ∪ (if bool_decide (l = Association.source_link ass ∧ z = i1)
                then {[i2]} else ∅)
             ∪ (if bool_decide (l = Association.target_link ass ∧ z = i2)
                then {[i1]} else ∅).
Proof.
  destruct (_find_link s a b R p) as [[[i1 i2] ass]|e] eqn:Hf.
  2:{ unfold relate, bind, read. rewrite Hf. intros [=]. }
  rewrite (relate_unfold _ _ _ _ _ _ _ _ Hf). unfold bind at 1.
  destruct (link_objs s !! Association.source_link ass) as [L1|] eqn:HL1.
  2:{ unfold on_link. rewrite HL1. intros [=]. }
  destruct (connect_on s _ L1 i1 i2 true HL1) as (s'&E1&Hs1&Hn1&_).
  rewrite E1. destruct (Link.connect L1 i1 i2 true).2 eqn:R1; simpl.
  2:{ unfold raise. intros [=]. }
  unfold bind at 1.
  destruct (link_objs s' !! Association.target_link ass) as [L2|] eqn:HL2.
  2:{ unfold on_link. rewrite HL2. intros [=]. }
  destruct (connect_on s' _ L2 i2 i1 true HL2) as (s''&E2&Hs2&Hn2&_).
  rewrite E2. destruct (Link.connect L2 i2 i1 true).2 eqn:R2; simpl.
  2:{ unfold raise. intros [=]. }
  unfold ret. intros [= <- <-]. split; [done|].
  split; [by eapply same_schema_trans|].
  exists i1, i2, ass. split; [done|].
  assert (∀ l z, neighbours s'' l z =
            (if bool_decide (l = Association.target_link ass) && bool_decide (z = i2)
             then neighbours s' (Association.target_link ass) i2 ∪ {[i1]}
             else neighbours s' l z)) as Hn2'.
  { intros l z. rewrite Hn2. by rewrite andb_true_r. }
  assert (∀ l z, neighbours s' l z =
            (if bool_decide (l = Association.source_link ass) && bool_decide (z = i1)
             then neighbours s (Association.source_link ass) i1 ∪ {[i2]}
             else neighbours s l z)) as Hn1'.
  { intros l z. rewrite Hn1. by rewrite andb_true_r. }
  clear Hn1 Hn2. split; [|split].
  - rewrite Hn2'.
    destruct (bool_decide (Association.source_link ass = Association.target_link ass)
              && bool_decide (i1 = i2)) eqn:E.
    + apply andb_true_iff in E as [_ E]. apply bool_decide_eq_true in E.
      subst. apply elem_of_union_r. by apply elem_of_singleton.
    + rewrite Hn1', !(bool_decide_eq_true_2 (_ = _) eq_refl). simpl.
      apply elem_of_union_r. by apply elem_of_singleton.
  - rewrite Hn2', !(bool_decide_eq_true_2 (_ = _) eq_refl). simpl.
    apply elem_of_union_r. by apply elem_of_singleton.
  - intros l z. rewrite Hn2'. rewrite !Hn1'.
    apply (neighbours_after_two (neighbours s)).
Qed.
End ConnectOnStore.

(** ** Cardinality, idempotence, atomicity *)

Section RelateTheorems.
Import Meta.
Implicit Types (s : State) (a b x y z : Inst) (l : lid).

Lemma relate_raise_inv_find s a b R p i1 i2 ass L1 :
  _find_link s a b R p = Ok (i1, i2, ass) →
  link_objs s !! Association.source_link ass = Some L1 →
  (Link.connect L1 i1 i2 true).2 = false →
  relate (Some a) (Some b) R p s =
    (set_link_objs s (<[Association.source_link ass := (Link.connect L1 i1 i2 true).1]>
                        (link_objs s)),
     Raise RelateException).
Proof.
  intros Hf HL1 R1. rewrite (relate_unfold _ _ _ _ _ _ _ _ Hf). unfold bind at 1.
  rewrite (on_link_unfold _ (λ L, Link.connect L i1 i2 true) _ _ HL1).
  by rewrite R1.
Qed.

Lemma relate_raise_second s a b R p i1 i2 ass L1 s' L2 :
  _find_link s a b R p = Ok (i1, i2, ass) →
  link_objs s !! Association.source_link ass = Some L1 →
  (Link.connect L1 i1 i2 true).2 = true →
  s' = set_link_objs s (<[Association.source_link ass := (Link.connect L1 i1 i2 true).1]>
                          (link_objs s)) →
  link_objs s' !! Association.target_link ass = Some L2 →
  (Link.connect L2 i2 i1 true).2 = false →
  relate (Some a) (Some b) R p s =
    (set_link_objs s' (<[Association.target_link ass := (Link.connect L2 i2 i1 true).1]>
                         (link_objs s')),
     Raise RelateException).
Proof.
  intros Hf HL1 R1 -> HL2 R2.
  rewrite (relate_unfold _ _ _ _ _ _ _ _ Hf). unfold bind at 1.
  rewrite (on_link_unfold _ (λ L, Link.connect L i1 i2 true) _ _ HL1).
  rewrite R1. simpl. unfold bind at 1.
  rewrite (on_link_unfold _ (λ L, Link.connect L i2 i1 true) _ _ HL2).
  by rewrite R2.
Qed.

(** relate on a pair that the two links hold already, however it got
    there: nothing changes, [True] is returned. *)
Lemma relate_connected s a b R p i1 i2 ass :
  _find_link s a b R p = Ok (i1, i2, ass) →
  i2 ∈ neighbours s (Association.source_link ass) i1 →
  i1 ∈ neighbours s (Association.target_link ass) i2 →
  relate (Some a) (Some b) R p s = (s, Ok true).
Proof.
  intros Hf Hin1 Hin2.
  rewrite (relate_unfold _ _ _ _ _ _ _ _ Hf). unfold bind at 1.
  destruct (connect_on_present s _ i1 i2 true Hin1) as (L1&HL1&E1).
  rewrite (on_link_same _ (λ L, Link.connect L i1 i2 true) _ _ HL1)
    by by rewrite E1.
  rewrite E1. simpl. unfold bind at 1.
  destruct (connect_on_present s _ i2 i1 true Hin2) as (L2&HL2&E2).
  rewrite (on_link_same _ (λ L, Link.connect L i2 i1 true) _ _ HL2)
    by by rewrite E2.
  by rewrite E2.
Qed.

(** relate on a pair that is related already: nothing changes, [True]
    is returned. *)
Lemma relate_again s s1 a b R p :
  relate (Some a) (Some b) R p s = (s1, Ok true) →
  relate (Some a) (Some b) R p s1 = (s1, Ok true).
Proof.
  intros H. apply relate_ok_inv in H as (_&Hs&i1&i2&ass&Hf&Hin1&Hin2&_).
  destruct (_find_link_schema s s1 a b R p Hs) as [Hf1 _].
  rewrite Hf in Hf1.
  rewrite (relate_unfold _ _ _ _ _ _ _ _ Hf1). unfold bind at 1.
  destruct (connect_on_present s1 _ i1 i2 true Hin1) as (L1&HL1&E1).
  rewrite (on_link_same _ (λ L, Link.connect L i1 i2 true) _ _ HL1)
    by by rewrite E1.
  rewrite E1. simpl. unfold bind at 1.
  destruct (connect_on_present s1 _ i2 i1 true Hin2) as (L2&HL2&E2).
  rewrite (on_link_same _ (λ L, Link.connect L i2 i1 true) _ _ HL2)
    by by rewrite E2.
  by rewrite E2.
Qed.
End RelateTheorems.

Section Cardinality.
Import Meta.
Implicit Types (s : State) (a b x y z : Inst) (l : lid).

(** C1, as amended. Cardinality enforcement. [a] is related to [b1] and
    then to a different [b2] of the same class, across the same relation
    and phrase; the link that holds the neighbours of [a] is not many,
    and [b2] is not among the neighbours of [a] already. Once the first
    [relate] has succeeded, the second raises [RelateException]; and
    [connect] with the check, on that link, returns [False] for [a] and
    [b2] and leaves the link as it is: [a] has a neighbour. ([connect]
    looks for [b2] among the neighbours before it looks at the
    cardinality, so a [b2] that is there already is accepted.) *)
Theorem relate_second_target_raises s s1 a b1 b2 R p l L :
  b1 ≠ b2 → inst_class b1 = inst_class b2 →
  link_from s a b1 R p = Ok l →
  link_objs s !! l = Some L → Link.many L = false →
  b2 ∉ Link.navigate L a →
  relate (Some a) (Some b1) R p s = (s1, Ok true) →
  (∃ s2, relate (Some a) (Some b2) R p s1 = (s2, Raise RelateException)) ∧
  (∃ L1, link_objs s1 !! l = Some L1 ∧ Link.navigate L1 a ≠ ∅ ∧
         Link.connect L1 a b2 true = (L1, false)).
Proof.
  intros Hne Hcl Hl HL Hmany Hb2 Hrel.
  apply relate_ok_inv in Hrel as (_&Hs&i1&i2&ass&Hf&Hin1&Hin2&Hsub).
  destruct (same_schema_link _ _ _ _ Hs HL) as (L1&HL1&HS1).
  apply schema_fields in HS1 as (_&_&_&Hm1&_). rewrite Hmany in Hm1.
  assert (b2 ∉ neighbours s l a) as Hb2' by by rewrite (neighbours_lookup _ _ _ _ HL).
  destruct (_find_link_cases s a b1 R p) as [ass' [Hk|Hk]]; [by rewrite Hf| |].
  - (* the order of the instances is kept: the source link holds the
       neighbours of [a] *)
    destruct (Hk a b1 eq_refl eq_refl) as [Hf' Hl'].
    rewrite Hf in Hf'. injection Hf' as -> -> <-.
    rewrite Hl in Hl'. injection Hl' as ->.
    destruct (Hk a b2 eq_refl (eq_sym Hcl)) as [Hf2 _].
    destruct (_find_link_schema s s1 a b2 R p Hs) as [Hf2' _]. rewrite Hf2 in Hf2'.
    assert (b1 ∈ Link.navigate L1 a) as Hb1
      by by rewrite <-(neighbours_lookup _ _ _ _ HL1).
    assert (b2 ∉ Link.navigate L1 a) as Hnb2.
    { rewrite <-(neighbours_lookup _ _ _ _ HL1). intros Hin.
      apply Hsub in Hin. repeat case_bool_decide; set_solver. }
    assert (Link.connect L1 a b2 true = (L1, false)) as Hc.
    { apply Link_connect_reject; [done| |done]. set_solver. }
    split.
    + eexists. rewrite (relate_raise_inv_find _ _ _ _ _ _ _ _ _ Hf2' HL1); [done|].
      by rewrite Hc.
    + exists L1. split; [done|]. split; [set_solver|done].
  - (* the instances are swapped: the target link holds the neighbours
       of [a] *)
    destruct (Hk a b1 eq_refl eq_refl) as [Hf' Hl'].
    rewrite Hf in Hf'. injection Hf' as -> -> <-.
    rewrite Hl in Hl'. injection Hl' as ->.
    destruct (Hk a b2 eq_refl (eq_sym Hcl)) as [Hf2 _].
    destruct (_find_link_schema s s1 a b2 R p Hs) as [Hf2' _]. rewrite Hf2 in Hf2'.
    assert (b1 ∈ Link.navigate L1 a) as Hb1
      by by rewrite <-(neighbours_lookup _ _ _ _ HL1).
    assert (b2 ∉ Link.navigate L1 a) as Hnb2.
    { rewrite <-(neighbours_lookup _ _ _ _ HL1). intros Hin.
      apply Hsub in Hin. repeat case_bool_decide; set_solver. }
    assert (Link.connect L1 a b2 true = (L1, false)) as Hc.
    { apply Link_connect_reject; [done| |done]. set_solver. }
    split; [|exists L1; split; [done|]; split; [set_solver|done]].
    assert (is_Some (link_objs s1 !! Association.source_link ass)) as [Ls HLs].
    { unfold neighbours in Hin1.
      destruct (link_objs s1 !! Association.source_link ass); [by eexists|set_solver]. }
    destruct (Link.connect Ls b2 a true).2 eqn:R1.
    2:{ eexists. by rewrite (relate_raise_inv_find _ _ _ _ _ _ _ _ _ Hf2' HLs R1). }
    destruct (connect_on s1 _ Ls b2 a true HLs) as (s1'&E1&Hs1'&Hn1'&_).
    rewrite (on_link_unfold _ (λ L, Link.connect L b2 a true) _ _ HLs) in E1.
    injection E1 as E1.
    destruct (same_schema_link _ _ _ _ Hs1' HL1) as (L1'&HL1'&HS1').
    apply schema_fields in HS1' as (_&_&_&Hm1'&_). rewrite Hm1 in Hm1'.
    assert (Link.navigate L1' a = Link.navigate L1 a) as Hnav.
    { rewrite <-(neighbours_lookup _ _ _ _ HL1'), <-(neighbours_lookup _ _ _ _ HL1).
      rewrite Hn1', R1.
      destruct (bool_decide (Association.target_link ass = Association.source_link ass))
        eqn:Ealias; [|done].
      destruct (bool_decide (a = b2)) eqn:Eab; [|done]. exfalso.
      apply bool_decide_eq_true in Ealias. apply bool_decide_eq_true in Eab.
      subst b2. rewrite Ealias, HLs in HL1. injection HL1 as ->.
      by rewrite Hc in R1. }
    eexists. rewrite (relate_raise_second _ _ _ _ _ _ _ _ _ _ _ Hf2' HLs R1 (eq_sym E1) HL1');
      [done|].
    rewrite Link_connect_reject; [done|done| |]; rewrite Hnav; [set_solver|done].
Qed.
End Cardinality.

Section Atomicity.
Import Meta.
Implicit Types (s : State) (a b x y z : Inst) (l : lid).

(** C9. relate is not atomic on error. [_find_link] resolves the pair to
    [(inst1, inst2, ass)]; the source link takes [inst2] as a new
    neighbour of [inst1], and the target link, which is not many and has
    another neighbour for [inst2], rejects [inst1]. Then [relate] raises
    [RelateException], and in the store it leaves behind [inst2] is a
    neighbour of [inst1] in the source link, which it was not before. *)
Theorem relate_not_atomic s a b R p inst1 inst2 ass Ls Lt :
  _find_link s a b R p = Ok (inst1, inst2, ass) →
  Association.source_link ass ≠ Association.target_link ass →
  link_objs s !! Association.source_link ass = Some Ls →
  link_objs s !! Association.target_link ass = Some Lt →
  inst2 ∉ Link.navigate Ls inst1 →
  Link.many Ls = true ∨ Link.navigate Ls inst1 = ∅ →
  Link.many Lt = false → Link.navigate Lt inst2 ≠ ∅ →
  inst1 ∉ Link.navigate Lt inst2 →
  ∃ s', relate (Some a) (Some b) R p s = (s', Raise RelateException) ∧
        inst2 ∈ neighbours s' (Association.source_link ass) inst1 ∧
        (inst2 ∉ neighbours s (Association.source_link ass) inst1) ∧
        neighbours s' (Association.target_link ass) inst2
          = neighbours s (Association.target_link ass) inst2.
Proof.
  intros Hf Hne HLs HLt Hnew Hfree Hmany Hocc Hnot.
  assert ((Link.connect Ls inst1 inst2 true).2 = true) as R1.
  { unfold Link.connect.
    destruct (bool_decide (is_Some (Link.dict Ls !! inst1))) eqn:E; simpl.
    - change (Link.item Ls inst1) with (Link.navigate Ls inst1).
      rewrite (bool_decide_eq_false_2 _ Hnew).
      destruct Hfree as [H|H]; rewrite H; simpl; [by rewrite andb_false_r|].
      by rewrite (bool_decide_eq_true_2 (∅ = ∅) eq_refl).
    - unfold Link.item. simpl. rewrite lookup_insert_eq. simpl.
      rewrite (bool_decide_eq_false_2 (inst2 ∈ ∅)) by set_solver.
      by rewrite (bool_decide_eq_true_2 (∅ = ∅) eq_refl). }
  destruct (connect_on s _ Ls inst1 inst2 true HLs) as (s1&E1&Hs1&Hn1&_).
  rewrite (on_link_unfold _ (λ L, Link.connect L inst1 inst2 true) _ _ HLs) in E1.
  injection E1 as E1.
  assert (link_objs s1 !! Association.target_link ass = Some Lt) as HLt1.
  { rewrite <-E1. simpl. by rewrite lookup_insert_ne. }
  assert (Link.connect Lt inst2 inst1 true = (Lt, false)) as R2
    by by apply Link_connect_reject.
  eexists. split.
  { rewrite (relate_raise_second _ _ _ _ _ _ _ _ _ _ _ Hf HLs R1 (eq_sym E1) HLt1);
      [done|by rewrite R2]. }
  rewrite R2. simpl. rewrite insert_id by done. rewrite set_link_objs_id.
  split; [|split].
  - rewrite Hn1, R1, !(bool_decide_eq_true_2 (_ = _) eq_refl). simpl. set_solver.
  - by rewrite (neighbours_lookup _ _ _ _ HLs).
  - rewrite Hn1. by rewrite (bool_decide_eq_false_2 (_ = _)) by done.
Qed.
End Atomicity.

Section NavigationOrder.
Import Meta.
Implicit Types (L : Link.t) (a b : Inst) (S : gset Inst) (l : list Inst).

(** Every set can be iterated, and every iteration has the elements of
    the set, each once. *)
Lemma set_iter_elements S : set_iter S (elements S).
Proof. split; [apply NoDup_elements|apply list_to_set_elements_L]. Qed.


Lemma set_iter_Permutation S l : set_iter S l ↔ l ≡ₚ elements S.
Proof.
  split.
  - intros [Hnd <-]. symmetry. by apply elements_list_to_set.
  - intros H. split.
    + rewrite H. apply NoDup_elements.
    + apply set_eq. intros x. rewrite elem_of_list_to_set, H. apply elem_of_elements.
Qed.

(** Where [set_first] gives an element, every iteration of the set
    starts with it. *)
Lemma set_first_iter S r l : set_first S = Ok r → set_iter S l → head l = r.
Proof.
  intros Hr Hl. apply set_iter_Permutation in Hl. unfold set_first in Hr.
  destruct (elements S) as [|x [|y rest]]; [| |done].
  - apply Permutation_nil_r in Hl. subst l. by injection Hr as <-.
  - apply Permutation_singleton_r in Hl. subst l. by injection Hr as <-.
Qed.

Lemma connect_each_many L a bs check :
  Link.many (connect_each L a bs check) = Link.many L.
Proof.
  revert L. induction bs as [|b bs IH]; intros L; [done|]. simpl.
  change (foldl _ ?x bs) with (connect_each x a bs check). rewrite IH.
  pose proof (Link_connect_schema L a b check) as H.
  by apply schema_fields in H as (_&_&_&H&_).
Qed.


End NavigationOrder.

Section Delete.
Import Meta.
Implicit Types (s : State) (a b x y z : Inst) (l : lid).

Lemma bind_ok {S A B} (m : stmt S A) (f : A → stmt S B) (t t' : S) (r : A) :
  m t = (t', Ok r) → bind m f t = f r t'.
Proof. intros H. unfold bind. by rewrite H. Qed.

Lemma bind_raise {S A B} (m : stmt S A) (f : A → stmt S B) (t t' : S) e :
  m t = (t', Raise e) → bind m f t = (t', Raise e).
Proof. intros H. unfold bind. by rewrite H. Qed.

Lemma update_metaclass_unfold m f s mc :
  metaclass_objs s !! m = Some mc →
  update_metaclass m f s
    = (set_metaclass_objs s (<[m := f mc]> (metaclass_objs s)), Ok ()).
Proof. intros H. unfold update_metaclass. by rewrite H. Qed.

Lemma list_remove_first_NoDup x (pool : list Inst) :
  NoDup pool → x ∉ list_remove_first x pool.
Proof.
  induction 1 as [|y pool Hy Hnd IH]; simpl; [set_solver|].
  case_bool_decide as E; [by subst|]. set_solver.
Qed.

Lemma list_remove_first_other x y (pool : list Inst) :
  y ≠ x → y ∈ list_remove_first x pool ↔ y ∈ pool.
Proof.
  intros Hne. induction pool as [|z pool IH]; simpl; [done|].
  case_bool_decide as E; [subst; set_solver|]. set_solver.
Qed.

(** What [delete] does to the store. *)
Lemma delete_run s x mc :
  metaclass_objs s !! inst_class x = Some mc →
  x ∈ MetaClass.storage mc →
  delete x s =
    (set_metaclass_objs s
       (<[inst_class x :=
            MetaClass.set_cache
              (MetaClass.set_storage mc
                 (list_remove_first x (MetaClass.storage mc))) ∅]>
          (metaclass_objs s)),
     Ok ()).
Proof.
  intros Hmc Hin.
  set (mc1 := MetaClass.set_storage mc (list_remove_first x (MetaClass.storage mc))).
  set (s1 := set_metaclass_objs s (<[inst_class x := mc1]> (metaclass_objs s))).
  unfold delete, MetaClass_delete.
  rewrite (bind_ok _ _ s s mc) by (unfold read, the_metaclass; by rewrite Hmc).
  rewrite (bool_decide_eq_true_2 _ Hin).
  rewrite (bind_ok _ _ s s1 ()) by exact (update_metaclass_unfold _ _ s mc Hmc).
  rewrite (update_metaclass_unfold _ _ s1 mc1 (lookup_insert_eq _ _ _)).
  unfold s1. simpl. by rewrite insert_insert_eq.
Qed.

(** An instance that is not in the pool cannot be deleted. *)
Lemma delete_absent s x mc :
  metaclass_objs s !! inst_class x = Some mc →
  x ∉ MetaClass.storage mc →
  delete x s = (s, Raise DeleteException).
Proof.
  intros Hmc Hin. unfold delete, MetaClass_delete.
  rewrite (bind_ok _ _ s s mc) by (unfold read, the_metaclass; by rewrite Hmc).
  by rewrite (bool_decide_eq_false_2 _ Hin).
Qed.

(** C10. delete takes the instance out of the pool of its metaclass and
    clears the query cache of that metaclass, and touches no link: every
    navigation yields what it yielded before, so an instance that was
    related to the deleted one still reaches it. *)
Theorem delete_leaves_links s x mc :
  metaclass_objs s !! inst_class x = Some mc →
  x ∈ MetaClass.storage mc → NoDup (MetaClass.storage mc) →
  ∃ s' mc',
    delete x s = (s', Ok ()) ∧
    metaclass_objs s' !! inst_class x = Some mc' ∧
    (x ∉ MetaClass.storage mc') ∧
    (∀ y, y ≠ x → y ∈ MetaClass.storage mc' ↔ y ∈ MetaClass.storage mc) ∧
    MetaClass.cache mc' = ∅ ∧
    link_objs s' = link_objs s ∧
    (∀ l y, neighbours s' l y = neighbours s l y) ∧
    (∀ m y kind R p,
       MetaClass_navigate s' m y kind R p = MetaClass_navigate s m y kind R p).
Proof.
  intros Hmc Hin Hnd.
  eexists _, _. split; [by apply delete_run|]. simpl.
  split; [apply lookup_insert_eq|]. simpl.
  split; [by apply list_remove_first_NoDup|].
  split; [intros y Hy; by apply list_remove_first_other|].
  do 3 (split; [done|]).
  intros m y kind R p. unfold MetaClass_navigate, the_metaclass, the_link. simpl.
  destruct (decide (m = inst_class x)) as [->|Hm].
  - by rewrite lookup_insert_eq, Hmc.
  - by rewrite !lookup_insert_ne.
Qed.
End Delete.

(** ** The properties at work on a population *)

Section KennelWitnesses.
Import Meta Kennel.

(** Rex is Ann's; giving Rex to Bob as well is refused. *)
Lemma relate_second_target_raises_kennel :
  (∃ s2, relate (Some rex) (Some bob) (RInt 1) "" s1 = (s2, Raise RelateException)) ∧
  (∃ L1, link_objs s1 !! Association.target_link R1 = Some L1 ∧
         Link.navigate L1 rex ≠ ∅ ∧ Link.connect L1 rex bob true = (L1, false)).
Proof.
  apply (relate_second_target_raises s0 s1 rex ann bob (RInt 1) ""
           (Association.target_link R1) owns0).
  - discriminate.
  - reflexivity.
  - vm_compute. reflexivity.
  - vm_compute. reflexivity.
  - vm_compute. reflexivity.
  - vm_compute. intros H. discriminate.
  - vm_compute. reflexivity.
Defined.

(** Bob claims Rex, who is Ann's: the call raises, and Bob keeps Rex as
    a neighbour. *)
Lemma relate_not_atomic_kennel :
  ∃ s', relate (Some bob) (Some rex) (RInt 1) "" s1 = (s', Raise RelateException) ∧
        rex ∈ neighbours s' (Association.source_link R1) bob ∧
        (rex ∉ neighbours s1 (Association.source_link R1) bob) ∧
        neighbours s' (Association.target_link R1) rex
          = neighbours s1 (Association.target_link R1) rex.
Proof.
  apply (relate_not_atomic s1 bob rex (RInt 1) "" bob rex R1 dogs1 owns1).
  - vm_compute. reflexivity.
  - discriminate.
  - vm_compute. reflexivity.
  - vm_compute. reflexivity.
  - vm_compute. intros H. discriminate.
  - right. vm_compute. reflexivity.
  - vm_compute. reflexivity.
  - vm_compute. intros H. discriminate.
  - vm_compute. intros H. discriminate.
Defined.

(** Ann is deleted; Rex still reaches her. *)
Lemma delete_leaves_links_kennel :
  ∃ s' mc',
    delete ann s1 = (s', Ok ()) ∧
    metaclass_objs s' !! inst_class ann = Some mc' ∧
    (ann ∉ MetaClass.storage mc') ∧
    (∀ y, y ≠ ann → y ∈ MetaClass.storage mc' ↔ y ∈ MetaClass.storage persons1) ∧
    MetaClass.cache mc' = ∅ ∧
    link_objs s' = link_objs s1 ∧
    (∀ l y, neighbours s' l y = neighbours s1 l y) ∧
    (∀ m y kind R p,
       MetaClass_navigate s' m y kind R p = MetaClass_navigate s1 m y kind R p).
Proof.
  apply (delete_leaves_links s1 ann persons1).
  - vm_compute. reflexivity.
  - refine (bool_decide_unpack _ _). vm_compute. exact I.
  - refine (bool_decide_unpack _ _). vm_compute. exact I.
Defined.
End KennelWitnesses.

Section LoadedPopulation.
Import Meta Loaded.

(** C1 as the spec has it fails. The instances were there before R1:
    [batch_relate] has connected Rex and Spot to Ann without the check,
    on the link that is not many. Then Ann is related to Rex, which
    succeeds, and to Spot, who is not Rex: the call returns [True] and
    does not raise, and [connect] with the check returns [True] for Ann
    and Spot although Ann has a neighbour. *)
Lemma relate_second_target_connected_before :
  rex ≠ spot ∧ inst_class rex = inst_class spot ∧
  link_from s0 ann rex (RInt 1) "" = Ok (Association.source_link R1) ∧
  link_objs s0 !! Association.source_link R1 = Some dogs0 ∧
  Link.many dogs0 = false ∧
  Link.navigate dogs0 ann = {[rex; spot]} ∧
  relate (Some ann) (Some rex) (RInt 1) "" s0 = (s0, Ok true) ∧
  relate (Some ann) (Some spot) (RInt 1) "" s0 = (s0, Ok true) ∧
  Link.connect dogs0 ann spot true = (dogs0, true).
Proof.
  split; [discriminate|]. split; [reflexivity|].
  split; [vm_compute; reflexivity|]. split; [vm_compute; reflexivity|].
  split; [reflexivity|].
  split; [refine (bool_decide_unpack _ _); vm_compute; exact I|].
  split; [|split].
  - apply (relate_connected s0 ann rex (RInt 1) "" ann rex R1).
    + vm_compute. reflexivity.
    + refine (bool_decide_unpack _ _). vm_compute. exact I.
    + refine (bool_decide_unpack _ _). vm_compute. exact I.
  - apply (relate_connected s0 ann spot (RInt 1) "" ann spot R1).
    + vm_compute. reflexivity.
    + refine (bool_decide_unpack _ _). vm_compute. exact I.
    + refine (bool_decide_unpack _ _). vm_compute. exact I.
  - apply Link_connect_present.
    refine (bool_decide_unpack _ _). vm_compute. exact I.
Qed.
End LoadedPopulation.
Section NavigationOrderWitness.
Import Meta Kennel.


End NavigationOrderWitness.

Section CaseFolding.
Import Meta Kennel.

(** C7 at work. The kind is folded to upper case; the relation id is
    not: the link that Dog registers for Person across [R1] is found
    under [person] and [PERSON], and is not found under [r1]. *)
Lemma find_link_folds_kind_only :
  find_link s0 dog "Person" (RStr "R1") "" = Ok (Some (Association.target_link R1)) ∧
  find_link s0 dog "person" (RStr "R1") "" = Ok (Some (Association.target_link R1)) ∧
  find_link s0 dog "PERSON" (RInt 1) "" = Ok (Some (Association.target_link R1)) ∧
  find_link s0 dog "Person" (RStr "r1") "" = Ok None ∧
  MetaClass_navigate s1 dog rex "Person" (RStr "R1") "" = Ok {[ann]} ∧
  MetaClass_navigate s1 dog rex "Person" (RStr "r1") "" = Raise UnknownLinkException.
Proof. repeat split; vm_compute; reflexivity. Qed.
End CaseFolding.

(** ** Query caches and mutation *)

Section CacheFacts.
Import Meta.
Implicit Types (s : State) (a b x y z : Inst) (l : lid).

Lemma bind_ok_inv {S A B} (m : stmt S A) (f : A → stmt S B) (t t' : S) (r : B) :
  bind m f t = (t', Ok r) →
  ∃ t1 r1, m t = (t1, Ok r1) ∧ f r1 t1 = (t', Ok r).
Proof.
  unfold bind. destruct (m t) as [t1 [r1|e]]; [|done]. intros H. by exists t1, r1.
Qed.

(** Everything in the store but the link objects. *)
Definition off_links s s' : Prop :=
  metaclass_objs s' = metaclass_objs s ∧ query_objs s' = query_objs s ∧
  inst_dicts s' = inst_dicts s ∧ metamodel s' = metamodel s ∧
  next_object s' = next_object s.

Lemma off_links_refl s : off_links s s.
Proof. done. Qed.

Lemma off_links_trans s1 s2 s3 :
  off_links s1 s2 → off_links s2 s3 → off_links s1 s3.
Proof. intros (?&?&?&?&?) (?&?&?&?&?). repeat split; congruence. Qed.

Lemma on_link_off_links {A} l (f : Link.t → Link.t * A) s :
  off_links s (on_link l f s).1.
Proof. unfold on_link. by destruct (link_objs s !! l). Qed.

(** [relate] writes to link objects only, whether it returns or raises. *)
Lemma relate_off_links from_instance to_instance R p s :
  off_links s (relate from_instance to_instance R p s).1.
Proof.
  unfold relate. destruct from_instance as [a|], to_instance as [b|]; try done.
  unfold bind at 1, read.
  destruct (_find_link s a b R p) as [[[i1 i2] ass]|e]; [|done].
  unfold bind at 1.
  pose proof (on_link_off_links (Association.source_link ass)
                (λ L, Link.connect L i1 i2 true) s) as H1.
  destruct (on_link (Association.source_link ass) _ s) as [s1 [ok1|e]]; [|done].
  simpl in H1. destruct ok1; simpl; [|done].
  unfold bind at 1.
  pose proof (on_link_off_links (Association.target_link ass)
                (λ L, Link.connect L i2 i1 true) s1) as H2.
  destruct (on_link (Association.target_link ass) _ s1) as [s2 [ok2|e]];
    simpl in H2; [|by eapply off_links_trans].
  destruct ok2; simpl; by eapply off_links_trans.
Qed.

(** So does [unrelate]. *)
Lemma unrelate_off_links from_instance to_instance R p s :
  off_links s (unrelate from_instance to_instance R p s).1.
Proof.
  unfold unrelate. destruct from_instance as [a|], to_instance as [b|]; try done.
  unfold bind at 1, read.
  destruct (_find_link s a b R p) as [[[i1 i2] ass]|e]; [|done].
  unfold bind at 1.
  pose proof (on_link_off_links (Association.source_link ass)
                (λ L, Link.disconnect L i1 i2) s) as H1.
  destruct (on_link (Association.source_link ass) _ s) as [s1 [ok1|e]]; [|done].
  simpl in H1. destruct ok1; simpl; [|done].
  unfold bind at 1.
  pose proof (on_link_off_links (Association.target_link ass)
                (λ L, Link.disconnect L i2 i1) s1) as H2.
  destruct (on_link (Association.target_link ass) _ s1) as [s2 [ok2|e]];
    simpl in H2; [|by eapply off_links_trans].
  destruct ok2; simpl; by eapply off_links_trans.
Qed.

(** Writing a declared attribute, under any letter case of its name,
    stores the value under the declared name and clears the cache. *)
Lemma setattr_declared s inst name v mc attr ty :
  metaclass_objs s !! inst_class inst = Some mc →
  find_attribute (upper name) (MetaClass.attributes mc) = Some (attr, ty) →
  setattr inst name v s =
    (set_metaclass_objs
       (set_inst_dicts s (<[inst := <[attr := v]> (inst_dict s inst)]> (inst_dicts s)))
       (<[inst_class inst := MetaClass.set_cache mc ∅]> (metaclass_objs s)),
     Ok ()).
Proof.
  intros Hmc Hattr. unfold setattr.
  rewrite (bind_ok _ _ s s mc) by (unfold read, the_metaclass; by rewrite Hmc).
  rewrite Hattr. unfold bind, dict_store, update_metaclass. simpl. by rewrite Hmc.
Qed.

(** Writing a name that is no attribute of the class stores the value
    under that name and leaves the cache alone. *)
Lemma setattr_undeclared s inst name v mc :
  metaclass_objs s !! inst_class inst = Some mc →
  find_attribute (upper name) (MetaClass.attributes mc) = None →
  setattr inst name v s =
    (set_inst_dicts s (<[inst := <[name := v]> (inst_dict s inst)]> (inst_dicts s)),
     Ok ()).
Proof.
  intros Hmc Hattr. unfold setattr.
  rewrite (bind_ok _ _ s s mc) by (unfold read, the_metaclass; by rewrite Hmc).
  by rewrite Hattr.
Qed.

Lemma for_each_invariant {A} (J : State → Prop) (l : list A)
    (body : A → M unit) s s' :
  (∀ (e : A) t t', J t → body e t = (t', Ok ()) → J t') →
  J s → for_each l body s = (s', Ok ()) → J s'.
Proof.
  intros Hbody. revert s. induction l as [|e l IH]; intros s HJ; simpl.
  { unfold ret. by intros [= <-]. }
  intros H. apply bind_ok_inv in H as (t1&[]&H1&H2). eauto.
Qed.

(** The metaclass [self] has an empty cache, the pool [pool], and no
    referential attribute. *)
Definition fresh_class (self : mcid) (pool : list Inst) s : Prop :=
  ∃ mc, metaclass_objs s !! self = Some mc ∧ MetaClass.cache mc = ∅ ∧
        MetaClass.storage mc = pool ∧ MetaClass.referential_attributes mc = ∅.

Lemma setattr_fresh_class inst name v pool s s' :
  fresh_class (inst_class inst) pool s →
  setattr inst name v s = (s', Ok ()) → fresh_class (inst_class inst) pool s'.
Proof.
  intros (mc&Hmc&Hc&Hp&Hr) H.
  destruct (find_attribute (upper name) (MetaClass.attributes mc))
    as [[attr ty]|] eqn:E.
  - rewrite (setattr_declared _ _ _ _ _ _ _ Hmc E) in H. injection H as <-.
    eexists. split; [apply lookup_insert_eq|]. done.
  - rewrite (setattr_undeclared _ _ _ _ _ Hmc E) in H. injection H as <-.
    by exists mc.
Qed.

Lemma default_value_classes self ty s s' v :
  default_value self ty s = (s', Ok v) → metaclass_objs s' = metaclass_objs s.
Proof.
  unfold default_value.
  do 4 (case_bool_decide; [by intros [= <-]|]).
  case_bool_decide; [|by intros [=]].
  intros Hb. apply bind_ok_inv in Hb as (t1&mc&Hr1&Hr2).
  unfold read in Hr1. injection Hr1 as <- _.
  destruct (MetaClass.metamodel mc); by injection Hr2 as <-.
Qed.

Lemma new_assign_fresh_class inst pool named deferred s s' r :
  fresh_class (inst_class inst) pool s →
  new_assign inst ∅ named deferred s = (s', Ok r) →
  fresh_class (inst_class inst) pool s' ∧ r = deferred.
Proof.
  revert s. induction named as [|[name v] named IH]; intros s HJ; simpl.
  { unfold ret. by intros [= <- <-]. }
  rewrite bool_decide_eq_true_2 by set_solver.
  intros H. apply bind_ok_inv in H as (t1&[]&H1&H2).
  eapply IH; [|done]. by eapply setattr_fresh_class.
Qed.

(** [new] on a class without referential attributes: the instance is a
    new object at the end of the pool, and the cache of the class is
    empty when [new] returns. *)
Lemma new_clears_cache s self args kwargs mc s' inst :
  metaclass_objs s !! self = Some mc →
  MetaClass.referential_attributes mc = ∅ →
  new self args kwargs s = (s', Ok inst) →
  inst = mkInst (next_object s) self ∧
  fresh_class self (MetaClass.storage mc ++ [inst]) s'.
Proof.
  intros Hmc Href H. unfold new in H.
  rewrite (bind_ok _ _ s _ ()) in H by exact (update_metaclass_unfold _ _ s mc Hmc).
  apply bind_ok_inv in H as (t1&o&H1&H). unfold alloc in H1.
  injection H1 as <- <-.
  set (inst0 := mkInst (next_object s) self) in *.
  apply bind_ok_inv in H as (t2&[]&H2&H).
  unfold update_metaclass in H2. simpl in H2. rewrite lookup_insert_eq in H2.
  injection H2 as <-.
  apply bind_ok_inv in H as (t3&mc3&H3&H).
  unfold read, the_metaclass in H3. simpl in H3. rewrite lookup_insert_eq in H3.
  injection H3 as <- <-. simpl in H. rewrite Href in H.
  match type of H with bind _ _ ?t = _ =>
    assert (fresh_class self (MetaClass.storage mc ++ [inst0]) t) as HJ
  end.
  { eexists. split; [apply lookup_insert_eq|]. done. }
  apply bind_ok_inv in H as (t4&[]&H4&H).
  eapply (for_each_invariant (fresh_class self (MetaClass.storage mc ++ [inst0])))
    in H4; [|clear H|exact HJ].
  2:{ intros [name ty] t t' Ht Hb.
      rewrite bool_decide_eq_true_2 in Hb by set_solver.
      apply bind_ok_inv in Hb as (u&v&Hd&Hs).
      apply (setattr_fresh_class inst0 name v _ u t'); [|done].
      destruct Ht as (m&?&?). exists m.
      by rewrite (default_value_classes _ _ _ _ _ Hd). }
  apply bind_ok_inv in H as (t5&d5&H5&H).
  apply (new_assign_fresh_class inst0 _ _ _ _ _ _ H4) in H5 as [H5 ->].
  apply bind_ok_inv in H as (t6&d6&H6&H).
  apply (new_assign_fresh_class inst0 _ _ _ _ _ _ H5) in H6 as [H6 ->].
  unfold ret in H. by injection H as <- <-.
Qed.
End CacheFacts.

(** ** A cached query across [relate] *)

Section StaleQuery.
Import Meta Kennel.

(** The dogs owned by the person 42, asked for and iterated to the end. *)
Definition by_owner : list (string * value) := [("owner_id", VInt 42)].
Definition ask_dogs_of_ann : M (qid * list Inst) :=
  q <- MetaClass_query dog by_owner;
  found <- execute_all 3 q ExecNew;
  ret (q, found).

(** C3 at work. On the population where nobody is related the query
    yields nobody. Then Rex is related to Ann, whose id is 42: [relate]
    returns [True] and Rex's [owner_id] reads 42, but the cache of Dog
    still holds the query object made before the call, so the same
    question is answered by the same object, and it yields nobody. *)
Lemma relate_keeps_cached_query :
  ∃ q : qid,
    (ask_dogs_of_ann s0).2 = Ok (q, []) ∧
    let t := (ask_dogs_of_ann s0).1 in
    (relate (Some rex) (Some ann) (RInt 1) "" t).2 = Ok true ∧
    let t' := (relate (Some rex) (Some ann) (RInt 1) "" t).1 in
    getattr t' rex "owner_id" = Ok (VInt 42) ∧
    (mc ← metaclass_objs t' !! dog; MetaClass.cache mc !! frozenset by_owner)
      = Some q ∧
    (ask_dogs_of_ann t').2 = Ok (q, []).
Proof. exists 8%nat. repeat split; vm_compute; reflexivity. Qed.
End StaleQuery.

(** ** Queries: lazy evaluation, replay and resumption *)

Section QueryFacts.
Import Meta.
Implicit Types (s : State) (inst x : Inst) (q : qid) (m : mcid)
               (f : Inst → bool) (pool rest res : list Inst).

(** The store [s] with the query object [q] set to [Q]. *)
Definition with_query s q (Q : Query.t) : State :=
  set_query_objs s (<[q := Q]> (query_objs s)).

Lemma with_query_id s q Q : query_objs s !! q = Some Q → with_query s q Q = s.
Proof.
  intros H. unfold with_query. rewrite insert_id by done. by destruct s.
Qed.

Lemma with_query_twice s q Q Q' :
  with_query (with_query s q Q) q Q' = with_query s q Q'.
Proof. unfold with_query, set_query_objs. simpl. by rewrite insert_insert_eq. Qed.

Lemma update_query_with s q Q Q' :
  update_query q Q' (with_query s q Q) = (with_query s q Q', Ok ()).
Proof. unfold update_query. by rewrite <- (with_query_twice s q Q Q'). Qed.

(** Reading attributes does not look at the query objects. *)
Lemma getattr_rec_with_query d s q Q inst name :
  getattr_rec d (with_query s q Q) inst name = getattr_rec d s inst name.
Proof.
  revert inst name. induction d as [|d IH]; intros inst name; [done|].
  simpl. destruct (metaclass_objs s !! inst_class inst) as [mc|]; [|done].
  destruct (MetaClass.clazz mc !! name) as [[tl rn]|]; [|done].
  destruct (link_objs s !! tl) as [L|]; [|done].
  destruct (set_first (Link.navigate L inst)) as [[other|]|]; [|done..].
  by rewrite IH.
Qed.

Lemma _is_null_with_query s q Q inst name :
  _is_null (with_query s q Q) inst name = _is_null s inst name.
Proof. unfold _is_null, getattr. by rewrite getattr_rec_with_query. Qed.

Lemma Query_match_with_query s q Q inst items :
  Query_match (with_query s q Q) inst items = Query_match s inst items.
Proof.
  induction items as [|[name v] items IH]; [done|]. simpl.
  unfold getattr. rewrite getattr_rec_with_query, _is_null_with_query.
  by rewrite IH.
Qed.

(** What the loop of [evaluate] does from position [i] on when the
    instances that match are those that [f] accepts. *)
Fixpoint scan f rest (i : nat) : option (Inst * nat) :=
  match rest with
  | [] => None
  | x :: rest' => if f x then Some (x, S i) else scan f rest' (S i)
  end.

Lemma Query_scan_scan s items f rest i :
  (∀ x, x ∈ rest → Query_match s x items = Ok (f x)) →
  Query_scan s items rest i = Ok (scan f rest i).
Proof.
  revert i. induction rest as [|x rest IH]; intros i H; [done|]. simpl.
  rewrite (H x) by left. destruct (f x); [done|].
  apply IH. intros y Hy. apply H. by right.
Qed.

Lemma scan_Some f rest i inst j :
  scan f rest i = Some (inst, j) →
  ∃ n, j = (i + S n)%nat ∧ rest !! n = Some inst ∧ f inst = true ∧
       List.filter f (take n rest) = [].
Proof.
  revert i. induction rest as [|x rest IH]; intros i; [done|]. simpl.
  destruct (f x) eqn:E.
  - intros [= <- <-]. exists 0%nat. repeat split; [lia|done].
  - intros H. apply IH in H as (n&->&?&?&?). exists (S n).
    repeat split; [lia|done|done|]. simpl. by rewrite E.
Qed.

Lemma scan_None f rest i : scan f rest i = None → List.filter f rest = [].
Proof.
  revert i. induction rest as [|x rest IH]; intros i; [done|]. simpl.
  destruct (f x); [done|]. apply IH.
Qed.

(** One more match from position [i] of the pool: the instances up to
    it are the only ones looked at. *)
Lemma scan_drop_Some f pool i inst j :
  scan f (drop i pool) i = Some (inst, j) →
  (i < j ≤ length pool)%nat ∧
  List.filter f (drop i pool) = inst :: List.filter f (drop j pool) ∧
  List.filter f (take j pool) = List.filter f (take i pool) ++ [inst] ∧
  ∀ j', (i ≤ j' < j)%nat → List.filter f (take j' pool) = List.filter f (take i pool).
Proof.
  intros H. apply scan_Some in H as (n&->&Hn&Hf&Hnone).
  rewrite lookup_drop in Hn.
  assert (i + n < length pool)%nat as Hlt by (by apply lookup_lt_is_Some; eexists).
  split; [lia|].
  assert (drop i pool = take n (drop i pool) ++ inst :: drop (i + S n) pool) as E.
  { rewrite <- (take_drop n (drop i pool)) at 1. f_equal.
    rewrite drop_drop. rewrite (drop_S _ inst) by done. f_equal. f_equal. lia. }
  split; [|split].
  - rewrite E at 1. rewrite List.filter_app, Hnone. simpl. by rewrite Hf.
  - rewrite <- (take_take_drop pool i (S n)).
    rewrite List.filter_app. f_equal.
    rewrite (take_S_r _ _ inst) by (by rewrite lookup_drop).
    rewrite List.filter_app, Hnone. simpl. by rewrite Hf.
  - intros j' Hj'. replace j' with (i + (j' - i))%nat by lia.
    rewrite <- (take_take_drop pool i (j' - i)).
    rewrite List.filter_app.
    assert (List.filter f (take (j' - i) (drop i pool)) = []) as ->; [|by rewrite app_nil_r].
    assert (take (j' - i) (drop i pool) = take (j' - i) (take n (drop i pool))) as ->.
    { rewrite take_take. f_equal. lia. }
    revert Hnone. generalize (take n (drop i pool)). intros l Hl.
    rewrite <- (take_drop (j' - i) l) in Hl. rewrite List.filter_app in Hl.
    by apply app_eq_nil in Hl as [? _].
Qed.
End QueryFacts.

Section QueryRun.
Import Meta.
Variables (s : State) (q : qid) (m : mcid) (mc : MetaClass.t)
          (items : list (string * value)) (f : Inst → bool).
Hypothesis Hmc : metaclass_objs s !! m = Some mc.
Hypothesis Hf : ∀ x, x ∈ MetaClass.storage mc → Query_match s x items = Ok (f x).

Abbreviation pool := (MetaClass.storage mc).
(** the store with the query at the result [res] and the generator [gen] *)
Abbreviation at_ res gen := (with_query s q (Query.mk m items res gen)).

Lemma Query_scan_at res gen i :
  Query_scan (at_ res gen) items (drop i pool) i = Ok (scan f (drop i pool) i).
Proof.
  apply Query_scan_scan. intros x Hx. rewrite Query_match_with_query.
  apply Hf. by eapply subseteq_drop.
Qed.

(** [next(self.evaluation)] on a suspended generator. *)
Lemma Query_next_at res i :
  Query_next q (at_ res (Some (Query.GenAt i))) =
    match scan f (drop i pool) i with
    | Some (inst, j) => (at_ (res ++ [inst]) (Some (Query.GenAt j)), Ok (Some inst))
    | None => (at_ res None, Ok None)
    end.
Proof.
  unfold Query_next.
  rewrite (bind_ok _ _ _ (at_ res (Some (Query.GenAt i)))
             (Query.mk m items res (Some (Query.GenAt i))))
    by (unfold read, the_query; simpl; by rewrite lookup_insert_eq).
  simpl.
  rewrite (bind_ok _ _ _ (at_ res (Some (Query.GenAt i))) mc)
    by (unfold read, the_metaclass; simpl; by rewrite Hmc).
  unfold bind at 1. rewrite Query_scan_at.
  destruct (scan f (drop i pool) i) as [[inst j]|];
    unfold bind; rewrite update_query_with; done.
Qed.

Lemma execute_resume_at res i :
  execute_resume q (at_ res (Some (Query.GenAt i))) =
    match scan f (drop i pool) i with
    | Some (inst, j) =>
        (at_ (res ++ [inst]) (Some (Query.GenAt j)), Ok (Some inst, ExecResume))
    | None => (at_ res None, Ok (None, ExecDone))
    end.
Proof.
  unfold execute_resume.
  rewrite (bind_ok _ _ _ (at_ res (Some (Query.GenAt i)))
             (Query.mk m items res (Some (Query.GenAt i))))
    by (unfold read, the_query; simpl; by rewrite lookup_insert_eq).
  simpl. unfold bind. rewrite Query_next_at.
  by destruct (scan f (drop i pool) i) as [[inst j]|].
Qed.

Lemma execute_resume_done res :
  execute_resume q (at_ res None) = (at_ res None, Ok (None, ExecDone)).
Proof.
  unfold execute_resume.
  by rewrite (bind_ok _ _ _ (at_ res None) (Query.mk m items res None))
    by (unfold read, the_query; simpl; by rewrite lookup_insert_eq).
Qed.

Lemma execute_next_replay res gen a n :
  execute_next q (ExecReplay a n) (at_ res gen) =
    if negb (length res =? n)%nat then (at_ res gen, Raise RuntimeError)
    else match res !! a with
         | Some inst => (at_ res gen, Ok (Some inst, ExecReplay (S a) n))
         | None => execute_resume q (at_ res gen)
         end.
Proof.
  unfold execute_next.
  rewrite (bind_ok _ _ _ (at_ res gen) (Query.mk m items res gen))
    by (unfold read, the_query; simpl; by rewrite lookup_insert_eq).
  simpl. destruct (negb (length res =? n)%nat); [done|].
  by destruct (res !! a).
Qed.

Lemma execute_next_new res gen :
  execute_next q ExecNew (at_ res gen) =
    execute_next q (ExecReplay 0 (length res)) (at_ res gen).
Proof.
  unfold execute_next.
  by rewrite !(bind_ok _ _ _ (at_ res gen) (Query.mk m items res gen))
    by (unfold read, the_query; simpl; by rewrite lookup_insert_eq).
Qed.

Lemma execute_next_resume res gen :
  execute_next q ExecResume (at_ res gen) = execute_resume q (at_ res gen).
Proof.
  unfold execute_next.
  by rewrite !(bind_ok _ _ _ (at_ res gen) (Query.mk m items res gen))
    by (unfold read, the_query; simpl; by rewrite lookup_insert_eq).
Qed.

(** A consumer that takes [k] instances from the resumed generator and
    stops: the generator is left suspended right behind the [k]-th match. *)
Lemma execute_take_resume k : ∀ i res,
  (i ≤ length pool)%nat →
  (k ≤ length (List.filter f (drop i pool)))%nat →
  ∃ j, execute_take k q ExecResume (at_ res (Some (Query.GenAt i))) =
         (at_ (res ++ take k (List.filter f (drop i pool))) (Some (Query.GenAt j)),
          Ok (take k (List.filter f (drop i pool)), ExecResume)) ∧
       (i ≤ j ≤ length pool)%nat ∧
       List.filter f (take j pool) =
         List.filter f (take i pool) ++ take k (List.filter f (drop i pool)) ∧
       List.filter f (drop i pool) =
         take k (List.filter f (drop i pool)) ++ List.filter f (drop j pool) ∧
       ∀ j', (i ≤ j' < j)%nat →
             (length (List.filter f (take j' pool)) <
                length (List.filter f (take i pool)) + k)%nat.
Proof.
  induction k as [|k IH]; intros i res Hi Hk.
  { exists i. simpl. rewrite !app_nil_r. unfold ret.
    repeat split; try done; lia. }
  simpl. unfold bind at 1. rewrite execute_next_resume, execute_resume_at.
  destruct (scan f (drop i pool) i) as [[inst j1]|] eqn:E.
  2:{ apply scan_None in E. rewrite E in Hk. simpl in Hk. lia. }
  apply scan_drop_Some in E as (Hj1&E1&E2&E3).
  rewrite E1 in Hk |- *. simpl in Hk.
  destruct (IH j1 (res ++ [inst])) as (j&Hrun&Hj&F1&F2&F3); [lia|lia|].
  exists j. unfold bind at 1. rewrite Hrun. unfold ret. simpl.
  rewrite <- app_assoc. simpl. repeat split; try done; try lia.
  - by rewrite F1, E2, <- app_assoc.
  - by rewrite <- F2.
  - intros j' Hj'. destruct (decide (j' < j1)%nat) as [Hlt|Hge].
    + rewrite E3 by lia. lia.
    + specialize (F3 j' ltac:(lia)). rewrite E2, length_app in F3.
      simpl in F3. lia.
Qed.

(** A consumer that iterates the resumed generator to its end. *)
Lemma execute_all_resume fuel : ∀ i res,
  (length (List.filter f (drop i pool)) < fuel)%nat →
  execute_all fuel q ExecResume (at_ res (Some (Query.GenAt i))) =
    (at_ (res ++ List.filter f (drop i pool)) None,
     Ok (List.filter f (drop i pool))).
Proof.
  induction fuel as [|fuel IH]; intros i res Hfuel; [lia|].
  simpl. unfold bind at 1. rewrite execute_next_resume, execute_resume_at.
  destruct (scan f (drop i pool) i) as [[inst j1]|] eqn:E.
  - apply scan_drop_Some in E as (Hj1&E1&E2&E3).
    rewrite E1 in Hfuel |- *. simpl in Hfuel.
    unfold bind. rewrite IH by lia. unfold ret.
    by rewrite <- app_assoc.
  - apply scan_None in E. rewrite E. unfold ret. by rewrite app_nil_r.
Qed.

(** Replaying the materialized matches does not touch the store. *)
Lemma execute_take_replay res gen k : ∀ a,
  (a + k ≤ length res)%nat →
  execute_take k q (ExecReplay a (length res)) (at_ res gen) =
    (at_ res gen, Ok (take k (drop a res), ExecReplay (a + k) (length res))).
Proof.
  induction k as [|k IH]; intros a Hk; simpl.
  { unfold ret. by rewrite Nat.add_0_r. }
  unfold bind at 1. rewrite execute_next_replay, Nat.eqb_refl. simpl.
  destruct (res !! a) as [inst|] eqn:E.
  2:{ apply lookup_ge_None in E. lia. }
  unfold bind. rewrite IH by lia. unfold ret.
  rewrite (drop_S _ inst a) by done. simpl.
  repeat f_equal. lia.
Qed.

(** Iterating on after taking a prefix. *)
Lemma execute_all_after_take k : ∀ it t t' l it' fuel,
  execute_take k q it t = (t', Ok (l, it')) → length l = k →
  execute_all (k + fuel) q it t =
    bind (execute_all fuel q it') (λ l', ret (l ++ l')) t'.
Proof.
  induction k as [|k IH]; intros it t t' l it' fuel; simpl.
  { unfold ret. intros [= <- <- <-] _. unfold bind.
    by destruct (execute_all fuel q it t) as [? [?|?]]. }
  unfold bind at 1 3.
  destruct (execute_next q it t) as [t1 [[[inst|] it1]|e]]; [| |done].
  2:{ unfold ret. by intros [= <- <- <-] [=]. }
  unfold bind at 1.
  destruct (execute_take k q it1 t1) as [t2 [[l2 it2]|e]] eqn:E; [|done].
  unfold ret. intros [= <- <- <-] [= Hlen].
  unfold bind at 1. rewrite (IH _ _ _ _ _ fuel E Hlen).
  unfold bind, ret. by destruct (execute_all fuel q it2 t2) as [? [?|?]].
Qed.

(** At the end of the replay the iterator resumes the generator. *)
Lemma execute_all_replay_end fuel res gen :
  execute_all fuel q (ExecReplay (length res) (length res)) (at_ res gen) =
    execute_all fuel q ExecResume (at_ res gen).
Proof.
  destruct fuel as [|fuel]; [done|]. simpl. unfold bind at 1 3.
  rewrite execute_next_replay, Nat.eqb_refl, execute_next_resume. simpl.
  by rewrite (lookup_ge_None_2 res (length res)) by lia.
Qed.

Lemma execute_all_new fuel res gen :
  execute_all fuel q ExecNew (at_ res gen) =
    execute_all fuel q (ExecReplay 0 (length res)) (at_ res gen).
Proof.
  destruct fuel as [|fuel]; [done|]. simpl. unfold bind at 1 3.
  by rewrite execute_next_new.
Qed.

Lemma execute_take_new k res gen :
  execute_take (S k) q ExecNew (at_ res gen) =
    execute_take (S k) q (ExecReplay 0 (length res)) (at_ res gen).
Proof. simpl. unfold bind at 1 3. by rewrite execute_next_new. Qed.

Lemma execute_take_replay_end k res gen :
  execute_take (S k) q (ExecReplay (length res) (length res)) (at_ res gen) =
    execute_take (S k) q ExecResume (at_ res gen).
Proof.
  simpl. unfold bind at 1 3.
  rewrite execute_next_replay, Nat.eqb_refl, execute_next_resume. simpl.
  by rewrite (lookup_ge_None_2 res (length res)) by lia.
Qed.

Abbreviation found := (List.filter f pool).

(** The first consumer, on the query as [Query.__init__] leaves it. *)
Lemma execute_take_first k :
  (k ≤ length found)%nat →
  ∃ it j,
    execute_take k q ExecNew (at_ [] (Some (Query.GenAt 0))) =
      (at_ (take k found) (Some (Query.GenAt j)), Ok (take k found, it)) ∧
    (j ≤ length pool)%nat ∧
    List.filter f (take j pool) = take k found ∧
    found = take k found ++ List.filter f (drop j pool) ∧
    ∀ j', (j' < j)%nat → (length (List.filter f (take j' pool)) < k)%nat.
Proof.
  intros Hk. destruct k as [|k].
  { exists ExecNew, 0%nat. simpl. unfold ret. repeat split; try done; lia. }
  destruct (execute_take_resume (S k) 0 []) as (j&Hrun&Hj&F1&F2&F3);
    [lia|by rewrite drop_0|].
  rewrite drop_0 in *. rewrite app_nil_l in Hrun. simpl take in F1 at 2.
  exists ExecResume, j.
  rewrite execute_take_new. change (length []) with 0%nat.
  rewrite (execute_take_replay_end k []), Hrun.
  repeat split; try done; try lia.
  intros j' Hj'. specialize (F3 j' ltac:(lia)). simpl in F3. lia.
Qed.

(** A later consumer, on the query as the first one has left it. *)
Lemma execute_again k j :
  (k ≤ length found)%nat →
  found = take k found ++ List.filter f (drop j pool) →
  ∃ it,
    execute_take k q ExecNew (at_ (take k found) (Some (Query.GenAt j))) =
      (at_ (take k found) (Some (Query.GenAt j)), Ok (take k found, it)) ∧
    ∀ fuel,
      ((length found - k < fuel)%nat →
       execute_all fuel q it (at_ (take k found) (Some (Query.GenAt j))) =
         (at_ found None, Ok (drop k found))) ∧
      ((length found < fuel)%nat →
       execute_all fuel q ExecNew (at_ (take k found) (Some (Query.GenAt j))) =
         (at_ found None, Ok found)).
Proof.
  intros Hk Hfound.
  assert (length (take k found) = k) as Hlen by (rewrite length_take; lia).
  assert (List.filter f (drop j pool) = drop k found) as Hrest.
  { rewrite Hfound at 1. by rewrite drop_app_length'. }
  assert (∀ fuel, (length found - k < fuel)%nat →
            execute_all fuel q ExecResume (at_ (take k found) (Some (Query.GenAt j)))
            = (at_ found None, Ok (drop k found))) as Hresume.
  { intros fuel Hfuel. rewrite execute_all_resume.
    - by rewrite Hrest, take_drop.
    - rewrite Hrest, length_drop. lia. }
  assert (∀ fuel, (length found - k < fuel)%nat →
            execute_all fuel q (ExecReplay k k) (at_ (take k found) (Some (Query.GenAt j)))
            = (at_ found None, Ok (drop k found))) as Hreplay.
  { intros fuel Hfuel. rewrite <- Hlen at 1 2.
    rewrite execute_all_replay_end. by apply Hresume. }
  destruct k as [|k].
  { exists ExecNew. change (take 0 found) with (@nil Inst) in *.
    split; [done|]. intros fuel.
    assert ((length found - 0 < fuel)%nat →
            execute_all fuel q ExecNew (at_ [] (Some (Query.GenAt j)))
            = (at_ found None, Ok (drop 0 found))) as H0.
    { intros Hfuel. rewrite execute_all_new. by apply (Hreplay fuel). }
    split; [done|]. intros Hfuel. rewrite H0 by lia. by rewrite drop_0. }
  exists (ExecReplay (S k) (S k)).
  assert (execute_take (S k) q (ExecReplay 0 (length (take (S k) found)))
            (at_ (take (S k) found) (Some (Query.GenAt j)))
          = (at_ (take (S k) found) (Some (Query.GenAt j)),
             Ok (take (S k) found, ExecReplay (S k) (S k)))) as Htake.
  { rewrite execute_take_replay by lia. rewrite drop_0, take_take, Hlen.
    by rewrite Nat.min_id. }
  split; [by rewrite execute_take_new|].
  intros fuel. split; [by apply Hreplay|]. intros Hfuel.
  rewrite execute_all_new.
  replace fuel with (S k + (fuel - S k))%nat by lia.
  rewrite (execute_all_after_take _ _ _ _ _ _ _ Htake Hlen).
  unfold bind. rewrite Hreplay by lia. unfold ret. by rewrite take_drop.
Qed.
End QueryRun.

Section QueryLaziness.
Import Meta.

(** C5. A query fresh from [Query.__init__], over a pool whose instances
    can be matched against the items without an exception, the matching
    ones being those that [f] accepts. A consumer takes [k] of the
    matches and stops: it gets the first [k] matches, they are the
    materialized result, and the generator is suspended at a position
    [j] of the pool right behind the [k]-th match, so nothing from [j] on
    has been looked at. An [execute()] after that replays the same [k]
    matches without any change to the store; iterating on resumes the
    generator and yields the matches that remain, and a full iteration
    yields all the matches from the start. *)
Theorem query_replays_then_resumes s (q : qid) (m : mcid) mc items
    (f : Inst → bool) (k : nat) :
  query_objs s !! q = Some (Query.init m items) →
  metaclass_objs s !! m = Some mc →
  (∀ x, x ∈ MetaClass.storage mc → Query_match s x items = Ok (f x)) →
  (k ≤ length (List.filter f (MetaClass.storage mc)))%nat →
  let pool := MetaClass.storage mc in
  let found := List.filter f pool in
  ∃ (j : nat) (it it' : execution),
    let paused :=
      with_query s q (Query.mk m items (take k found) (Some (Query.GenAt j))) in
    let finished := with_query s q (Query.mk m items found None) in
    execute_take k q ExecNew s = (paused, Ok (take k found, it)) ∧
    List.filter f (take j pool) = take k found ∧
    (∀ j', (j' < j)%nat → (length (List.filter f (take j' pool)) < k)%nat) ∧
    execute_take k q ExecNew paused = (paused, Ok (take k found, it')) ∧
    ∀ fuel,
      ((length found - k < fuel)%nat →
       execute_all fuel q it' paused = (finished, Ok (drop k found))) ∧
      ((length found < fuel)%nat →
       execute_all fuel q ExecNew paused = (finished, Ok found)).
Proof.
  intros Hq Hmc Hf Hk pool found.
  destruct (execute_take_first s q m mc items f Hmc Hf k Hk)
    as (it&j&Hrun&Hj&F1&F2&F3).
  destruct (execute_again s q m mc items f Hmc Hf k j Hk F2) as (it'&Hagain&Hall).
  exists j, it, it'. simpl.
  change (with_query s q (Query.mk m items [] (Some (Query.GenAt 0))))
    with (with_query s q (Query.init m items)) in Hrun.
  rewrite (with_query_id s q _ Hq) in Hrun.
  repeat split; try done; apply Hall.
Qed.
End QueryLaziness.

Section QueryLazinessWitness.
Import Meta Kennel Shelter.

(** The dogs called Rex are asked for, and one match is taken: the first
    Rex. The generator is suspended behind him, at position 1 of the
    pool; Spot, the second Rex and Fido have not been looked at. The
    next [execute()] replays the first Rex and leaves the store as it
    is; iterating on resumes the generator, which passes Spot, yields
    the second Rex, passes Fido and ends. *)
Lemma query_replays_then_resumes_shelter :
  ∃ (it it' : execution),
    let paused :=
      with_query asked 10%nat
        (Query.mk dog by_name [rex] (Some (Query.GenAt 1))) in
    let finished :=
      with_query asked 10%nat (Query.mk dog by_name [rex; rex2] None) in
    MetaClass.storage dogs0 = [rex; spot; rex2; fido] ∧
    execute_take 1 10%nat ExecNew asked = (paused, Ok ([rex], it)) ∧
    execute_take 1 10%nat ExecNew paused = (paused, Ok ([rex], it')) ∧
    ∀ fuel,
      ((1 < fuel)%nat →
       execute_all fuel 10%nat it' paused = (finished, Ok [rex2])) ∧
      ((2 < fuel)%nat →
       execute_all fuel 10%nat ExecNew paused = (finished, Ok [rex; rex2])).
Proof.
  destruct (query_replays_then_resumes asked 10%nat dog dogs0 by_name is_rex 1)
    as (j&it&it'&H1&H2&H3&H4&H5).
  - vm_compute. reflexivity.
  - vm_compute. reflexivity.
  - intros x Hx.
    change (MetaClass.storage dogs0) with [rex; spot; rex2; fido] in Hx.
    apply elem_of_cons in Hx as [->|Hx]; [vm_compute; reflexivity|].
    apply elem_of_cons in Hx as [->|Hx]; [vm_compute; reflexivity|].
    apply elem_of_cons in Hx as [->|Hx]; [vm_compute; reflexivity|].
    apply list_elem_of_singleton in Hx as ->. vm_compute. reflexivity.
  - vm_compute. lia.
  - change (MetaClass.storage dogs0) with [rex; spot; rex2; fido] in *.
    change (List.filter is_rex [rex; spot; rex2; fido]) with [rex; rex2] in *.
    change (take 1 [rex; rex2]) with [rex] in *.
    change (drop 1 [rex; rex2]) with [rex2] in *.
    assert (j = 1%nat) as ->.
    { destruct j as [|[|j]]; [discriminate H2|done|].
      specialize (H3 1%nat). simpl in H3. lia. }
    exists it, it'. simpl. split; [done|]. split; [done|]. split; [done|].
    exact H5.
Defined.
End QueryLazinessWitness.

(** ** sort_reflexive *)

Section SortReflexive.
Import Meta.
Variables (s : State) (kind : string) (R : RelId) (phrase other : string).
Implicit Types (x y first : Inst) (c l : list Inst).

(** [x] has [y] as its only neighbour across [other], and [y] has [x] as
    its only neighbour across [phrase]. *)
Definition linked x y : Prop :=
  MetaClass_navigate s (inst_class x) x kind (normalize R) other = Ok {[y]} ∧
  MetaClass_navigate s (inst_class y) y kind (normalize R) phrase = Ok {[x]}.

(** [x] has no neighbour across [p]. *)
Definition unlinked (p : string) x : Prop :=
  MetaClass_navigate s (inst_class x) x kind (normalize R) p = Ok ∅.

(** The instances of [c] in a row: each is linked to the next one, the
    first has no predecessor and the last no successor. *)
Definition linear_chain c : Prop :=
  (∀ i x y, c !! i = Some x → c !! S i = Some y → linked x y) ∧
  (∀ x, head c = Some x → unlinked phrase x) ∧
  (∀ i x, c !! i = Some x → c !! S i = None → unlinked other x).

(** The instances of [c] in a ring: each is linked to the next one, and
    the last to the first. *)
Definition single_cycle c : Prop :=
  ∀ i x y, c !! i = Some x → c !! (S i mod length c)%nat = Some y → linked x y.

Lemma set_first_singleton x : set_first {[x]} = Ok (Some x).
Proof. unfold set_first. by rewrite elements_singleton. Qed.

Lemma set_first_empty : set_first ∅ = Ok None.
Proof. unfold set_first. by rewrite elements_empty. Qed.

Lemma navigate_one_nav_set x p (S : gset Inst) :
  MetaClass_navigate s (inst_class x) x kind (normalize R) p = Ok S →
  navigate_one_nav s x kind (RStr (rel_name R)) p = set_first S.
Proof.
  intros H. unfold navigate_one_nav.
  change (normalize (RStr (rel_name R))) with (normalize R). by rewrite H.
Qed.

Lemma linked_succ x y :
  linked x y → navigate_one_nav s x kind (RStr (rel_name R)) other = Ok (Some y).
Proof.
  intros [H _]. rewrite (navigate_one_nav_set _ _ _ H). by rewrite set_first_singleton.
Qed.

Lemma linked_pred x y :
  linked x y → navigate_one_nav s y kind (RStr (rel_name R)) phrase = Ok (Some x).
Proof.
  intros [_ H]. rewrite (navigate_one_nav_set _ _ _ H). by rewrite set_first_singleton.
Qed.

Lemma unlinked_nav p x :
  unlinked p x → navigate_one_nav s x kind (RStr (rel_name R)) p = Ok None.
Proof.
  intros H. rewrite (navigate_one_nav_set _ _ _ H). by rewrite set_first_empty.
Qed.

(** [first_filt] keeps the instances without a predecessor. *)
Lemma first_instances_of_filter (P : Inst → bool) l :
  (∀ x, x ∈ l →
     navigate_one_nav s x kind (RStr (rel_name R)) phrase = Ok None ∧ P x = true ∨
     (∃ y, navigate_one_nav s x kind (RStr (rel_name R)) phrase = Ok (Some y)) ∧
     P x = false) →
  first_instances_of s kind (RStr (rel_name R)) phrase l = Ok (List.filter P l).
Proof.
  induction l as [|x l IH]; intros H; [done|]. simpl.
  rewrite IH by (intros y Hy; apply H; by right).
  destruct (H x) as [[-> ->]|[[y ->] ->]]; [by left|done..].
Qed.

(** The [while inst:] loop along a row of instances that ends without a
    successor or closes on its first instance. *)
Lemma sequence_from_path c first closing :
  NoDup c → head c = Some first →
  closing = None ∨ closing = Some first →
  (∀ i x, c !! i = Some x →
     navigate_one_nav s x kind (RStr (rel_name R)) other =
       Ok (match c !! S i with Some y => Some y | None => closing end)) →
  ∀ fuel i x, c !! i = Some x → (length c - i ≤ fuel)%nat →
    sequence_from fuel s kind (RStr (rel_name R)) other first x = Ok (drop i c).
Proof.
  intros Hnd Hhead Hclosing Hsucc fuel.
  induction fuel as [|fuel IH]; intros i x Hx Hfuel.
  { apply lookup_lt_Some in Hx. lia. }
  simpl. rewrite (Hsucc i x Hx). rewrite (drop_S _ x i) by done.
  destruct (c !! S i) as [y|] eqn:Hy.
  - assert (y ≠ first) as Hne.
    { intros ->. rewrite head_lookup in Hhead.
      by pose proof (NoDup_lookup _ _ _ _ Hnd Hy Hhead). }
    rewrite (bool_decide_eq_false_2 _ Hne).
    by rewrite (IH (S i) y Hy) by lia.
  - apply lookup_ge_None in Hy. rewrite (drop_ge c (S i)) by lia.
    destruct Hclosing as [->| ->]; [done|].
    by rewrite (bool_decide_eq_true_2 (first = first)).
Qed.

Lemma OrderedSet_NoDup l : ∀ seen,
  NoDup l → (∀ x, x ∈ l → x ∉ seen) → OrderedSet l seen = l.
Proof.
  induction l as [|x l IH]; intros seen Hnd Hseen; [done|]. simpl.
  inversion_clear Hnd as [|? ? Hx Hnd'].
  rewrite bool_decide_eq_false_2 by (apply Hseen; by left).
  f_equal. apply IH; [done|]. intros y Hy [->|?]%elem_of_cons; [done|].
  by apply (Hseen y); [right|].
Qed.

Lemma QuerySet_NoDup l : NoDup l → QuerySet l = l.
Proof.
  intros H. apply OrderedSet_NoDup; [done|]. intros x _. apply not_elem_of_nil.
Qed.

Lemma filter_the_one x l :
  NoDup l → x ∈ l → List.filter (λ y, bool_decide (y = x)) l = [x].
Proof.
  induction l as [|z l IH]; intros Hnd Hx; [by apply elem_of_nil in Hx|].
  inversion_clear Hnd as [|? ? Hz Hnd']. simpl. case_bool_decide as E.
  - subst z. f_equal. clear IH Hx.
    induction l as [|w l IH]; [done|]. simpl.
    apply not_elem_of_cons in Hz as [Hne Hz].
    inversion_clear Hnd' as [|? ? _ Hnd].
    rewrite bool_decide_eq_false_2 by done. by apply IH.
  - apply elem_of_cons in Hx as [->|Hx]; [done|]. by apply IH.
Qed.

Lemma filter_none l : List.filter (λ _ : Inst, false) l = [].
Proof. by induction l. Qed.
End SortReflexive.

Section SortReflexiveRun.
Import Meta.
Variables (s : State) (m : mcid) (mc : MetaClass.t) (R : RelId)
          (phrase other : string).
Hypothesis Hmc : metaclass_objs s !! m = Some mc.
Hypothesis Hother :
  other_phrase_of s m (rel_name R) phrase (dict_values (MetaClass.links mc))
    = Ok (Some other).
Implicit Types (x y first : Inst) (c l set : list Inst).

Abbreviation kind := (MetaClass.kind mc).
Abbreviation name := (RStr (rel_name R)).

Lemma sort_reflexive_unfold fuel set first :
  head set = Some first → inst_class first = m →
  sort_reflexive fuel s set R phrase =
    match first_instances_of s kind name phrase set with
    | Raise e => Raise e
    | Ok first_instances =>
        match sequence_generator fuel s kind name other
                (if first_instances is [] then [first] else first_instances) with
        | Raise e => Raise e
        | Ok l => Ok (QuerySet l)
        end
    end.
Proof.
  intros Hhead Hclass. unfold sort_reflexive. rewrite Hhead, Hclass.
  unfold the_metaclass. by rewrite Hmc, Hother.
Qed.

Lemma rotate_Permutation k c : rotate k c ≡ₚ c.
Proof.
  unfold rotate. rewrite (comm (++)). by rewrite take_drop.
Qed.

Lemma mod_succ j n :
  (j < n)%nat → (S j mod n)%nat = if decide (S j < n)%nat then S j else 0%nat.
Proof.
  intros Hj. case_decide.
  - by apply Nat.mod_small.
  - replace (S j) with n by lia. apply Nat.Div0.mod_same.
Qed.

(** A row is sorted from its first instance on. *)
Lemma sort_reflexive_chain set c fuel :
  set ≡ₚ c → NoDup c → c ≠ [] → (∀ x, x ∈ c → inst_class x = m) →
  linear_chain s kind R phrase other c → (length c ≤ fuel)%nat →
  sort_reflexive fuel s set R phrase = Ok c.
Proof.
  intros Hperm Hnd Hne Hclass (Hlink&Hhead&Hlast) Hfuel.
  destruct c as [|c0 c'] eqn:Ec; [done|]. rewrite <- Ec in *.
  assert (c !! 0%nat = Some c0) as H0 by (by rewrite Ec).
  destruct set as [|first set'] eqn:Eset.
  { apply Permutation_nil_l in Hperm. by rewrite Ec in Hperm. }
  rewrite <- Eset in *.
  assert (first ∈ c) as Hfirst by (rewrite <- Hperm, Eset; by left).
  rewrite (sort_reflexive_unfold fuel set first)
    by (rewrite ?Eset; auto).
  rewrite (first_instances_of_filter s kind R phrase (λ y, bool_decide (y = c0))).
  2:{ intros x Hx. rewrite Hperm in Hx.
      apply list_elem_of_lookup in Hx as [i Hi]. destruct i as [|j].
      - left. assert (x = c0) as -> by congruence.
        split; [|by apply bool_decide_eq_true_2].
        apply unlinked_nav, Hhead. by rewrite Ec.
      - right. destruct (lookup_lt_is_Some_2 c j) as [w Hw].
        { apply lookup_lt_Some in Hi. lia. }
        split; [exists w; eapply linked_pred, Hlink; eauto|].
        apply bool_decide_eq_false_2. intros ->.
        by pose proof (NoDup_lookup _ _ _ _ Hnd Hi H0). }
  rewrite filter_the_one; [|by rewrite Hperm|rewrite Hperm, Ec; by left].
  simpl.
  assert (sequence_from fuel s kind name other c0 c0 = Ok (drop 0 c)) as ->.
  { apply (sequence_from_path s kind R other c c0 None Hnd); try done.
    - by rewrite Ec.
    - by left.
    - intros i x Hx. destruct (c !! S i) as [y|] eqn:Hy.
      + eapply linked_succ, Hlink; eauto.
      + eapply unlinked_nav, Hlast; eauto.
    - lia. }
  rewrite drop_0, app_nil_r. by rewrite QuerySet_NoDup.
Qed.

(** A ring is sorted from the first instance of the set on, once around. *)
Lemma sort_reflexive_cycle set c fuel :
  set ≡ₚ c → NoDup c → c ≠ [] → (∀ x, x ∈ c → inst_class x = m) →
  single_cycle s kind R phrase other c → (length c ≤ fuel)%nat →
  ∃ k, sort_reflexive fuel s set R phrase = Ok (rotate k c) ∧
       head (rotate k c) = head set.
Proof.
  intros Hperm Hnd Hne Hclass Hcyc Hfuel.
  destruct set as [|first set'] eqn:Eset.
  { apply Permutation_nil_l in Hperm. by subst c. }
  rewrite <- Eset in *.
  assert (first ∈ c) as Hfirst by (rewrite <- Hperm, Eset; by left).
  apply list_elem_of_lookup in Hfirst as [k Hk].
  assert (k < length c)%nat as Hklt by (by apply lookup_lt_Some in Hk).
  assert (rotate k c !! 0%nat = Some first) as Hrot0.
  { rewrite lookup_rotate_r by lia. by rewrite rotate_nat_add_0. }
  exists k. split; [|by rewrite head_lookup, Hrot0, Eset].
  rewrite (sort_reflexive_unfold fuel set first)
    by (rewrite ?Eset; eauto using list_elem_of_lookup_2).
  rewrite (first_instances_of_filter s kind R phrase (λ _, false)).
  2:{ intros x Hx. rewrite Hperm in Hx. right. split; [|done].
      apply list_elem_of_lookup in Hx as [i Hi].
      assert (i < length c)%nat as Hilt by (by apply lookup_lt_Some in Hi).
      set (i' := match i with O => (length c - 1)%nat | S j => j end).
      destruct (lookup_lt_is_Some_2 c i') as [w Hw]; [unfold i'; destruct i; lia|].
      exists w. eapply linked_pred, (Hcyc i' w x Hw).
      rewrite mod_succ by (unfold i'; destruct i; lia).
      unfold i'. destruct i as [|j].
      - rewrite decide_False by lia. done.
      - rewrite decide_True by lia. done. }
  rewrite filter_none. simpl.
  assert (sequence_from fuel s kind name other first first
          = Ok (drop 0 (rotate k c))) as ->.
  2:{ rewrite drop_0, app_nil_r. rewrite QuerySet_NoDup; [done|].
      by rewrite rotate_Permutation. }
  apply (sequence_from_path s kind R other (rotate k c) first (Some first)).
  - by rewrite rotate_Permutation.
  - by rewrite head_lookup.
  - by right.
  - intros i x Hx. apply lookup_rotate_r_Some in Hx as [Hx Hilt].
    rewrite rotate_nat_add_alt in Hx by lia.
    set (j := if decide (k + i < length c)%nat then (k + i)%nat
              else (k + i - length c)%nat) in *.
    assert (j < length c)%nat as Hjlt by (unfold j; case_decide; lia).
    destruct (lookup_lt_is_Some_2 c (S j mod length c)) as [y Hy].
    { apply Nat.mod_upper_bound. lia. }
    rewrite (linked_succ s kind R phrase other x y (Hcyc j x y Hx Hy)).
    f_equal. rewrite mod_succ in Hy by done.
    destruct (decide (S i < length c)%nat) as [Hlt|Hge].
    + rewrite lookup_rotate_r by lia. rewrite rotate_nat_add_alt by lia.
      assert ((if decide (k + S i < length c)%nat then (k + S i)%nat
               else (k + S i - length c)%nat)
              = (if decide (S j < length c)%nat then S j else 0%nat)) as ->;
        [|by rewrite Hy].
      unfold j. repeat case_decide; lia.
    + rewrite lookup_ge_None_2 by (rewrite length_rotate; lia).
      assert ((if decide (S j < length c)%nat then S j else 0%nat) = k) as E;
        [|congruence].
      unfold j. repeat case_decide; lia.
  - done.
  - rewrite length_rotate. lia.
Qed.
End SortReflexiveRun.

Section SortReflexiveTheorem.
Import Meta.

(** C8, as amended. On a metaclass with a reflexive association [R],
    where [sort_reflexive] finds [other] as the phrase of the other
    direction: a set whose members form a row across [R] (each linked to
    the next, the first without any neighbour across [phrase] and the
    last without any across [other], in the set or out of it) is sorted
    into that row, from the instance without a predecessor on; a set
    whose members form a ring is sorted into the ring read from the
    first instance of the set on, so every member is yielded once. The
    set may come in any order. *)
Theorem sort_reflexive_chain_and_cycle s (m : mcid) mc R phrase other :
  metaclass_objs s !! m = Some mc →
  other_phrase_of s m (rel_name R) phrase (dict_values (MetaClass.links mc))
    = Ok (Some other) →
  (∀ set c fuel,
     set ≡ₚ c → NoDup c → c ≠ [] → (∀ x, x ∈ c → inst_class x = m) →
     linear_chain s (MetaClass.kind mc) R phrase other c →
     (length c ≤ fuel)%nat →
     sort_reflexive fuel s set R phrase = Ok c) ∧
  (∀ set c fuel,
     set ≡ₚ c → NoDup c → c ≠ [] → (∀ x, x ∈ c → inst_class x = m) →
     single_cycle s (MetaClass.kind mc) R phrase other c →
     (length c ≤ fuel)%nat →
     ∃ k l, l = rotate k c ∧ head l = head set ∧ NoDup l ∧ l ≡ₚ set ∧
            sort_reflexive fuel s set R phrase = Ok l).
Proof.
  intros Hmc Hother. split.
  - intros set c fuel. by apply sort_reflexive_chain.
  - intros set c fuel Hperm Hnd Hne Hclass Hcyc Hfuel.
    destruct (sort_reflexive_cycle s m mc R phrase other Hmc Hother
                set c fuel Hperm Hnd Hne Hclass Hcyc Hfuel) as (k&Hrun&Hhead).
    exists k, (rotate k c). repeat split; try done.
    + by rewrite rotate_Permutation.
    + by rewrite rotate_Permutation.
Qed.
End SortReflexiveTheorem.

Section SortReflexiveWitness.
Import Meta Steps.

(** The row [a1; a2; a3] and the ring [b1; b2; b3], each given in another
    order. *)
Lemma sort_reflexive_chain_and_cycle_steps :
  (∀ fuel, (3 ≤ fuel)%nat →
     sort_reflexive fuel s0 [a3; a1; a2] (RInt 2) "precedes" = Ok [a1; a2; a3]) ∧
  (∀ fuel, (3 ≤ fuel)%nat →
     ∃ k l, l = rotate k [b1; b2; b3] ∧ head l = head [b3; b1; b2] ∧
            NoDup l ∧ l ≡ₚ [b3; b1; b2] ∧
            sort_reflexive fuel s0 [b3; b1; b2] (RInt 2) "precedes" = Ok l).
Proof.
  destruct (sort_reflexive_chain_and_cycle s0 step steps0 (RInt 2)
              "precedes" "succeeds") as [Hchain Hcycle].
  - vm_compute. reflexivity.
  - vm_compute. reflexivity.
  - split.
    + intros fuel Hfuel. apply Hchain; [| | | | |exact Hfuel].
      * etrans; [apply perm_swap|]. apply perm_skip, perm_swap.
      * refine (bool_decide_unpack _ _). vm_compute. exact I.
      * discriminate.
      * intros x Hx. repeat (apply elem_of_cons in Hx as [->|Hx]; [reflexivity|]).
        by apply elem_of_nil in Hx.
      * split; [|split].
        -- intros [|[|[|i]]] x y; simpl; intros [= <-] [= <-];
             split; vm_compute; reflexivity.
        -- intros x [= <-]. vm_compute. reflexivity.
        -- intros [|[|[|i]]] x; simpl; intros [= <-] [=]. vm_compute. reflexivity.
    + intros fuel Hfuel. apply Hcycle; [| | | | |exact Hfuel].
      * etrans; [apply perm_swap|]. apply perm_skip, perm_swap.
      * refine (bool_decide_unpack _ _). vm_compute. exact I.
      * discriminate.
      * intros x Hx. repeat (apply elem_of_cons in Hx as [->|Hx]; [reflexivity|]).
        by apply elem_of_nil in Hx.
      * intros [|[|[|i]]] x y; simpl; intros [= <-] [= <-];
          split; vm_compute; reflexivity.
Defined.

(** C8 as the spec has it fails: [sort_reflexive] follows the links and
    never asks whether an instance is in the set. In the row of [a1],
    [a2] and [a3], the set of [a2] and [a1] is a row of its own; it is
    sorted into all three, [a3] with them. The set of [a3] and [a2] is a
    row too; [a2], its first, has [a1] as a predecessor, so nobody is
    taken as a head, the walk starts at the first instance of the set,
    which is [a3], and ends there: [a2] is not yielded. *)
Lemma sort_reflexive_leaves_the_set :
  linked s0 "Step" (RInt 2) "precedes" "succeeds" a1 a2 ∧
  linked s0 "Step" (RInt 2) "precedes" "succeeds" a2 a3 ∧
  unlinked s0 "Step" (RInt 2) "precedes" a1 ∧
  unlinked s0 "Step" (RInt 2) "succeeds" a3 ∧
  sort_reflexive 3 s0 [a2; a1] (RInt 2) "precedes" = Ok [a1; a2; a3] ∧
  sort_reflexive 3 s0 [a3; a2] (RInt 2) "precedes" = Ok [a3].
Proof.
  split; [split; vm_compute; reflexivity|].
  split; [split; vm_compute; reflexivity|].
  do 3 (split; [vm_compute; reflexivity|]). vm_compute. reflexivity.
Qed.
End SortReflexiveWitness.

(** * xtuml.model *)

(** ** What queries and navigations leave alone *)

Section ModelQuiet.
Import Model.
Implicit Types (s t : State) (inst x : Inst) (q : qid) (m : mcid).

(** a metaclass without its cache *)
Definition schema (mc : MetaClass.t) : MetaClass.t := MetaClass.set_cache mc ∅.

(** Two stores with the same links, and the same metaclasses up to their
    caches. *)
Definition same_classes s s' : Prop :=
  link_objs s' = link_objs s ∧
  ∀ m, schema <$> (metaclass_objs s' !! m) = schema <$> (metaclass_objs s !! m).

(** Only caches, query objects and the allocation counter differ. *)
Definition quiet s s' : Prop :=
  same_classes s s' ∧ inst_dicts s' = inst_dicts s ∧ metamodel s' = metamodel s.

Lemma same_classes_refl s : same_classes s s.
Proof. done. Qed.

Lemma same_classes_trans s1 s2 s3 :
  same_classes s1 s2 → same_classes s2 s3 → same_classes s1 s3.
Proof.
  intros [H1 H2] [H3 H4]. split; [congruence|]. intros m. by rewrite H4, H2.
Qed.

Lemma quiet_refl s : quiet s s.
Proof. done. Qed.

Lemma quiet_trans s1 s2 s3 : quiet s1 s2 → quiet s2 s3 → quiet s1 s3.
Proof.
  intros (H1&H2&H3) (H4&H5&H6).
  split; [by eapply same_classes_trans|]. split; congruence.
Qed.

Lemma same_classes_lookup s s' m mc :
  same_classes s s' → metaclass_objs s !! m = Some mc →
  ∃ mc', metaclass_objs s' !! m = Some mc' ∧ schema mc' = schema mc.
Proof.
  intros [_ H] Hm. specialize (H m). rewrite Hm in H.
  destruct (metaclass_objs s' !! m) as [mc'|]; [|done].
  exists mc'. split; [done|]. by apply (inj Some).
Qed.

Lemma same_classes_lookup_None s s' m :
  same_classes s s' → metaclass_objs s !! m = None → metaclass_objs s' !! m = None.
Proof.
  intros [_ H] Hm. specialize (H m). rewrite Hm in H.
  by destruct (metaclass_objs s' !! m).
Qed.

Lemma schema_attributes mc mc' :
  schema mc' = schema mc → MetaClass.attributes mc' = MetaClass.attributes mc.
Proof. intros H. by apply (f_equal MetaClass.attributes) in H. Qed.

Lemma schema_clazz mc mc' :
  schema mc' = schema mc → MetaClass.clazz mc' = MetaClass.clazz mc.
Proof. intros H. by apply (f_equal MetaClass.clazz) in H. Qed.


Lemma schema_kind mc mc' :
  schema mc' = schema mc → MetaClass.kind mc' = MetaClass.kind mc.
Proof. intros H. by apply (f_equal MetaClass.kind) in H. Qed.

(** Reading an attribute depends on the dictionary of the instance and on
    the attributes of its class. *)
Lemma getattr_same s s' inst name :
  same_classes s s' → inst_dict s' inst = inst_dict s inst →
  getattr s' inst name = getattr s inst name.
Proof.
  intros Hc Hd. unfold getattr.
  destruct (metaclass_objs s !! inst_class inst) as [mc|] eqn:E.
  - destruct (same_classes_lookup _ _ _ _ Hc E) as (mc'&->&Hs).
    by rewrite Hd, (schema_clazz _ _ Hs), (schema_attributes _ _ Hs).
  - by rewrite (same_classes_lookup_None _ _ _ Hc E).
Qed.

Lemma _is_null_same s s' inst name :
  same_classes s s' → inst_dict s' inst = inst_dict s inst →
  _is_null s' inst name = _is_null s inst name.
Proof.
  intros Hc Hd. unfold _is_null. rewrite (getattr_same s s') by done.
  destruct (getattr s inst name) as [v|]; [|done].
  destruct (truthy v); [done|]. case_bool_decide; [done|].
  unfold the_metaclass.
  destruct (metaclass_objs s !! inst_class inst) as [mc|] eqn:E.
  - destruct (same_classes_lookup _ _ _ _ Hc E) as (mc'&->&Hs).
    by rewrite (schema_attributes _ _ Hs).
  - by rewrite (same_classes_lookup_None _ _ _ Hc E).
Qed.

Lemma quiet_inst_dict s s' inst : quiet s s' → inst_dict s' inst = inst_dict s inst.
Proof. intros (_&H&_). unfold inst_dict. by rewrite H. Qed.

Lemma getattr_quiet s s' inst name :
  quiet s s' → getattr s' inst name = getattr s inst name.
Proof. intros H. apply getattr_same; [apply H|by apply quiet_inst_dict]. Qed.

Lemma _is_null_quiet s s' inst name :
  quiet s s' → _is_null s' inst name = _is_null s inst name.
Proof. intros H. apply _is_null_same; [apply H|by apply quiet_inst_dict]. Qed.
End ModelQuiet.

(** ** Statements that preserve a relation between the store before and after *)

Section Keeps.
Context {S : Type} (Rel : S → S → Prop).
Hypothesis Rel_refl : ∀ s, Rel s s.
Hypothesis Rel_trans : ∀ s1 s2 s3, Rel s1 s2 → Rel s2 s3 → Rel s1 s3.

(** Whether it returns or raises, the statement leaves a related store. *)
Definition preserves {A} (m : stmt S A) : Prop := ∀ s, Rel s (m s).1.

Lemma preserves_ret {A} (a : A) : preserves (ret a).
Proof. intros s. apply Rel_refl. Qed.

Lemma preserves_raise {A} e : preserves (@raise S A e).
Proof. intros s. apply Rel_refl. Qed.

Lemma preserves_read {A} (f : S → result A) : preserves (read f).
Proof. intros s. apply Rel_refl. Qed.

Lemma preserves_bind {A B} (m : stmt S A) (f : A → stmt S B) :
  preserves m → (∀ a, preserves (f a)) → preserves (bind m f).
Proof.
  intros Hm Hf s. unfold bind. specialize (Hm s).
  destruct (m s) as [s1 [a|e]]; [|done]. simpl in Hm.
  eapply Rel_trans; [done|]. apply Hf.
Qed.

Lemma preserves_for_each {A} (l : list A) (body : A → stmt S unit) :
  (∀ a, preserves (body a)) → preserves (for_each l body).
Proof.
  intros Hbody. induction l as [|a l IH]; simpl; [apply preserves_ret|].
  apply preserves_bind; [done|]. by intros [].
Qed.
End Keeps.

Section ModelQueriesQuiet.
Import Model.
Implicit Types (s t : State) (inst x : Inst) (q : qid) (m : mcid).

Lemma quiet_update_query q Q : preserves quiet (update_query q Q).
Proof. by intros s. Qed.

Lemma quiet_alloc : preserves quiet alloc.
Proof. by intros s. Qed.

Lemma quiet_set_cache m (f : MetaClass.t → gmap (gset (string * value)) qid) :
  preserves quiet (update_metaclass m (λ mc, MetaClass.set_cache mc (f mc))).
Proof.
  intros s. unfold update_metaclass.
  destruct (metaclass_objs s !! m) as [mc|] eqn:E; [|done].
  repeat split. intros m'. simpl.
  destruct (decide (m' = m)) as [->|Hne].
  - by rewrite lookup_insert_eq, E.
  - by rewrite lookup_insert_ne.
Qed.

Lemma quiet_pure {A} (f : State → result A) : preserves quiet (λ s, (s, f s)).
Proof. by intros s. Qed.

Ltac quiet_step :=
  first
    [ apply (preserves_ret quiet quiet_refl)
    | apply (preserves_raise quiet quiet_refl)
    | apply (preserves_read quiet quiet_refl)
    | apply quiet_update_query
    | apply quiet_alloc
    | apply quiet_set_cache
    | apply quiet_pure
    | apply (preserves_bind quiet quiet_trans); [|intros ?]
    | match goal with
      | |- preserves _ (match ?x with _ => _ end) => destruct x
      end ].

Lemma quiet_Query_next q : preserves quiet (Query_next q).
Proof. unfold Query_next. repeat quiet_step. Qed.

Lemma quiet_execute_resume q : preserves quiet (execute_resume q).
Proof.
  unfold execute_resume. repeat (apply quiet_Query_next || quiet_step).
Qed.

Lemma quiet_execute_next q it : preserves quiet (execute_next q it).
Proof.
  unfold execute_next.
  apply (preserves_bind quiet quiet_trans); [quiet_step|]. intros Q.
  destruct it; simpl; repeat (apply quiet_execute_resume || quiet_step).
Qed.

Lemma quiet_execute_all fuel : ∀ q it, preserves quiet (execute_all fuel q it).
Proof.
  induction fuel as [|fuel IH]; intros q it; simpl; [quiet_step|].
  apply (preserves_bind quiet quiet_trans); [apply quiet_execute_next|].
  intros [[inst|] it']; repeat (apply IH || quiet_step).
Qed.

Lemma quiet_MetaClass_query m kwargs : preserves quiet (MetaClass_query m kwargs).
Proof.
  unfold MetaClass_query. repeat quiet_step.
Qed.

Lemma quiet_Link_navigate L inst : preserves quiet (Link_navigate L inst).
Proof.
  unfold Link_navigate. repeat (apply quiet_MetaClass_query || quiet_step).
Qed.

Lemma quiet_MetaClass_navigate m inst kind R p :
  preserves quiet (MetaClass_navigate m inst kind R p).
Proof.
  unfold MetaClass_navigate. repeat (apply quiet_Link_navigate || quiet_step).
Qed.

Lemma quiet_navigate_many_nav inst kind R p :
  preserves quiet (navigate_many_nav inst kind R p).
Proof.
  unfold navigate_many_nav.
  repeat (apply quiet_MetaClass_navigate || apply quiet_execute_all || quiet_step).
Qed.

Lemma quiet__deferred_links inst keys links :
  preserves quiet (_deferred_links inst keys links).
Proof.
  induction links as [|l links IH]; simpl; [quiet_step|].
  apply (preserves_bind quiet quiet_trans); [quiet_step|]. intros L.
  destruct (negb (Link.reversed L)); [done|].
  destruct (negb _); [done|].
  repeat (apply quiet_navigate_many_nav || apply IH || quiet_step).
Qed.

(** Collecting the deferred operations runs queries and writes nothing. *)
Lemma quiet__deferred_link_operation inst L :
  preserves quiet (_deferred_link_operation inst L).
Proof.
  unfold _deferred_link_operation.
  repeat (apply quiet__deferred_links || quiet_step).
Qed.
End ModelQueriesQuiet.

(** ** relate on a pair that is related already *)

Section ModelRelateAgain.
Import Model.
Implicit Types (s t : State) (inst x a b : Inst) (q : qid) (m : mcid).

(** In [xtuml.model] two instances are related across a link when the
    keys agree: the identifying attributes on the one side are not null,
    and the referential attributes on the other side equal them. *)
Definition related s (from_instance to_instance : Inst)
    (key_map : list (string * string)) : Prop :=
  Forall (λ kv, _is_null s to_instance kv.2 = Ok false ∧
                ∃ v1 v2, getattr s from_instance kv.1 = Ok v1 ∧
                         getattr s to_instance kv.2 = Ok v2 ∧
                         py_eq v1 v2 = true) key_map.

Lemma related_quiet s s' from_instance to_instance key_map :
  quiet s s' → related s from_instance to_instance key_map →
  related s' from_instance to_instance key_map.
Proof.
  intros Hq. apply Forall_impl. intros [fn tn] (Hn&v1&v2&H1&H2&He). simpl in *.
  rewrite (_is_null_quiet s s'), !(getattr_quiet s s') by done. eauto 6.
Qed.

(** The loop of [relate] finds nothing to update. *)
Lemma relate_keys_related s from_instance to_instance key_map updated :
  related s from_instance to_instance key_map →
  relate_keys from_instance to_instance key_map updated s = (s, Ok updated).
Proof.
  induction 1 as [|[fn tn] km (Hn&v1&v2&H1&H2&He) _ IH]; [done|].
  simpl in *. unfold bind, read. by rewrite Hn, H1, H2, He.
Qed.

Lemma relate_related s a b R p from_instance to_instance l L fuel :
  _find_link s a b R p = Ok (from_instance, to_instance, l) →
  link_objs s !! l = Some L →
  related s from_instance to_instance (Link.key_map L) →
  relate (S fuel) (Some a) (Some b) R p s =
    (_ <- _deferred_link_operation from_instance L; ret false) s.
Proof.
  intros Hf HL Hrel. simpl.
  rewrite (bind_ok _ _ s s (from_instance, to_instance, l))
    by (unfold read; by rewrite Hf).
  rewrite (bind_ok _ _ s s L) by (unfold read, the_link; by rewrite HL).
  pose proof (quiet__deferred_link_operation from_instance L s) as Hq.
  destruct (_deferred_link_operation from_instance L s) as [s1 [post|e]] eqn:E.
  2:{ by rewrite !(bind_raise _ _ s s1 e E). }
  rewrite !(bind_ok _ _ s s1 post E). simpl in Hq.
  rewrite (bind_ok _ _ s1 s1 false); [done|].
  apply relate_keys_related. by apply (related_quiet s).
Qed.
(** The class [m] has no [ReversedLink] with one of [keys] among its
    derived keys: [_deferred_link_operation] finds nothing to navigate. *)
Definition propagates_nowhere s m (keys : list string) : Prop :=
  ∃ mc, metaclass_objs s !! m = Some mc ∧
        Forall (λ l, ∃ L', link_objs s !! l = Some L' ∧
                           (Link.reversed L' = false ∨
                            ¬ Exists (λ k, k ∈ dict_values (Link.key_map L')) keys))
               (dict_values (MetaClass.links mc)).

Lemma _deferred_links_nowhere s inst keys links :
  Forall (λ l, ∃ L', link_objs s !! l = Some L' ∧
                     (Link.reversed L' = false ∨
                      ¬ Exists (λ k, k ∈ dict_values (Link.key_map L')) keys)) links →
  _deferred_links inst keys links s = (s, Ok []).
Proof.
  induction 1 as [|l links (L'&HL'&Hno) _ IH]; [done|]. simpl.
  rewrite (bind_ok _ _ s s L') by (unfold read, the_link; by rewrite HL').
  destruct (Link.reversed L') eqn:Hrev; simpl; [|done].
  destruct Hno as [|Hno]; [done|]. by rewrite (bool_decide_eq_false_2 _ Hno).
Qed.

Lemma _deferred_link_operation_nowhere s inst L :
  propagates_nowhere s (inst_class inst) (dict_keys (Link.key_map L)) →
  _deferred_link_operation inst L s = (s, Ok []).
Proof.
  intros (mc&Hmc&Hno). unfold _deferred_link_operation.
  rewrite (bind_ok _ _ s s mc) by (unfold read, the_metaclass; by rewrite Hmc).
  by apply _deferred_links_nowhere.
Qed.
End ModelRelateAgain.

Section RelateTwice.

(** C2, as amended. In [xtuml.meta], relate on a pair that the two links
    of the association hold already changes nothing, does not raise and
    returns [True]; a pair that a relate has connected is such a pair.
    In [xtuml.model], relate on a pair whose keys agree already collects
    the deferred operations, which writes no attribute, and then returns
    [updated], which is [False]: it raises what collecting them raises,
    and where the class has no [ReversedLink] that shares a key with the
    link there is nothing to collect, the store is left as it is and the
    call does not raise. *)
Theorem relate_on_related_pair :
  (∀ s a b R p i1 i2 ass,
     Meta._find_link s a b R p = Ok (i1, i2, ass) →
     i2 ∈ Meta.neighbours s (Meta.Association.source_link ass) i1 →
     i1 ∈ Meta.neighbours s (Meta.Association.target_link ass) i2 →
     Meta.relate (Some a) (Some b) R p s = (s, Ok true)) ∧
  (∀ s s1 a b R p,
     Meta.relate (Some a) (Some b) R p s = (s1, Ok true) →
     Meta.relate (Some a) (Some b) R p s1 = (s1, Ok true)) ∧
  (∀ s a b R p from_instance to_instance l L fuel,
     Model._find_link s a b R p = Ok (from_instance, to_instance, l) →
     Model.link_objs s !! l = Some L →
     related s from_instance to_instance (Model.Link.key_map L) →
     Model.relate (S fuel) (Some a) (Some b) R p s =
       (_ <- Model._deferred_link_operation from_instance L; ret false) s ∧
     quiet s (Model.relate (S fuel) (Some a) (Some b) R p s).1 ∧
     (propagates_nowhere s (inst_class from_instance)
        (dict_keys (Model.Link.key_map L)) →
      Model.relate (S fuel) (Some a) (Some b) R p s = (s, Ok false))).
Proof.
  split; [apply relate_connected|]. split; [apply relate_again|].
  intros s a b R p f t l L fuel Hf HL Hrel.
  rewrite (relate_related s a b R p f t l L fuel Hf HL Hrel).
  split; [done|]. split.
  - unfold bind.
    pose proof (quiet__deferred_link_operation f L s) as Hq.
    by destruct (Model._deferred_link_operation f L s) as [s1 [post|e]].
  - intros Hno. unfold bind.
    by rewrite (_deferred_link_operation_nowhere s f L Hno).
Qed.

(** C2 as the spec has it fails in [xtuml.model]. Rex is related to Ann,
    and relating them once more returns [False]. And where the kinds of
    the classes are not in upper case and a class has a [ReversedLink]
    that shares a key with the link, the call raises: the [owner_id] of
    Rex holds the [id] of Ann, and relating Rex to Ann navigates from
    Rex to the puppies under the kind [PUPPY], which Dog, who knows of
    [Puppy], does not find. *)
Lemma relate_again_returns_false :
  Model.relate 1 (Some ModelKennel.rex) (Some ModelKennel.ann) (RInt 1) ""
    ModelKennel.s0 = (ModelKennel.s1, Ok true) ∧
  (Model.relate 1 (Some ModelKennel.rex) (Some ModelKennel.ann) (RInt 1) ""
     ModelKennel.s1).2 = Ok false ∧
  Model.getattr ModelLitter.s0 ModelLitter.rex "owner_id" = Ok (VInt 42) ∧
  Model.getattr ModelLitter.s0 ModelLitter.ann "id" = Ok (VInt 42) ∧
  Model._is_null ModelLitter.s0 ModelLitter.ann "id" = Ok false ∧
  Model._find_link ModelLitter.s0 ModelLitter.rex ModelLitter.ann (RInt 1) ""
    = Ok (ModelLitter.rex, ModelLitter.ann, 3%nat) ∧
  Model.Link.key_map
    (default (Model.Link.init 0 (RInt 0) 0 [] "" false false)
             (Model.link_objs ModelLitter.s0 !! 3%nat)) = [("owner_id", "id")] ∧
  (Model.relate 2 (Some ModelLitter.rex) (Some ModelLitter.ann) (RInt 1) ""
     ModelLitter.s0).2 = Raise UnknownAssociationException.
Proof. do 7 (split; [vm_compute; reflexivity|]). vm_compute. reflexivity. Qed.

Lemma relate_on_related_pair_kennels :
  Meta.relate (Some Kennel.rex) (Some Kennel.ann) (RInt 1) "" Kennel.s1
    = (Kennel.s1, Ok true) ∧
  Meta.relate (Some Loaded.ann) (Some Loaded.spot) (RInt 1) "" Loaded.s0
    = (Loaded.s0, Ok true) ∧
  Model.relate 1 (Some ModelKennel.rex) (Some ModelKennel.ann) (RInt 1) ""
    ModelKennel.s1 = (ModelKennel.s1, Ok false).
Proof.
  destruct relate_on_related_pair as (Hlinks&Hmeta&Hmodel). split; [|split].
  - apply (Hmeta Kennel.s0). vm_compute. reflexivity.
  - apply (Hlinks Loaded.s0 Loaded.ann Loaded.spot (RInt 1) ""
             Loaded.ann Loaded.spot Loaded.R1).
    + vm_compute. reflexivity.
    + refine (bool_decide_unpack _ _). vm_compute. exact I.
    + refine (bool_decide_unpack _ _). vm_compute. exact I.
  - destruct (Hmodel ModelKennel.s1 ModelKennel.rex ModelKennel.ann (RInt 1) ""
                ModelKennel.rex ModelKennel.ann 2%nat ModelKennel.owner 0%nat)
      as (_&_&Hrun).
    + vm_compute. reflexivity.
    + vm_compute. reflexivity.
    + constructor; [|constructor]. split; [vm_compute; reflexivity|].
      exists (VInt 42), (VInt 42).
      split; [vm_compute; reflexivity|]. split; vm_compute; reflexivity.
    + apply Hrun. exists ModelKennel.dogs1.
      split; [vm_compute; reflexivity|].
      constructor; [|constructor]. exists ModelKennel.owner.
      split; [vm_compute; reflexivity|]. left. reflexivity.
Defined.
End RelateTwice.

(** ** Referential attributes in xtuml.meta *)

Section MetaReferential.
Import Meta.
Implicit Types (s : State) (a b x y z : Inst) (l : lid).




End MetaReferential.

(** ** unrelate in xtuml.model writes None *)

Section ModelUnrelate.
Import Model.
Implicit Types (s t : State) (inst x a b : Inst) (q : qid) (m : mcid).

(** Some attributes have been set to [None]; nothing else was written. *)
Definition nulled s s' : Prop :=
  same_classes s s' ∧
  ∀ x k, inst_dict s' x !! k = inst_dict s x !! k ∨
         inst_dict s' x !! k = Some VNone.

Lemma nulled_refl s : nulled s s.
Proof. split; [done|]. by left. Qed.

Lemma nulled_trans s1 s2 s3 : nulled s1 s2 → nulled s2 s3 → nulled s1 s3.
Proof.
  intros [H1 H2] [H3 H4]. split; [by eapply same_classes_trans|].
  intros x k. destruct (H4 x k) as [->| ->]; [apply H2|by right].
Qed.

Lemma quiet_nulled s s' : quiet s s' → nulled s s'.
Proof.
  intros H. split; [apply H|]. intros x k. left.
  by rewrite (quiet_inst_dict s s').
Qed.

Lemma preserves_quiet_nulled {A} (stm : M A) : preserves quiet stm → preserves nulled stm.
Proof. intros H s. apply quiet_nulled, H. Qed.

Lemma nulled_dict_store x key : preserves nulled (dict_store x key VNone).
Proof.
  intros s. split; [done|]. intros y k. unfold dict_store, inst_dict. simpl.
  destruct (decide (y = x)) as [->|Hne].
  - rewrite lookup_insert_eq. simpl.
    destruct (decide (k = key)) as [->|Hk].
    + right. by rewrite lookup_insert_eq.
    + left. by rewrite lookup_insert_ne.
  - left. by rewrite lookup_insert_ne.
Qed.

Lemma nulled_setattr x name : preserves nulled (setattr x name VNone).
Proof.
  unfold setattr. apply (preserves_bind nulled nulled_trans).
  { apply (preserves_read nulled nulled_refl). }
  intros mc. destruct (find_attribute _ _) as [[attr ty]|].
  - apply (preserves_bind nulled nulled_trans); [apply nulled_dict_store|].
    intros _. apply preserves_quiet_nulled.
    apply (quiet_set_cache (inst_class x) (λ _, ∅)).
  - apply nulled_dict_store.
Qed.

Lemma nulled_unrelate_keys x keys : ∀ updated,
  preserves nulled (unrelate_keys x keys updated).
Proof.
  induction keys as [|key keys IH]; intros updated; simpl.
  { apply (preserves_ret nulled nulled_refl). }
  apply (preserves_bind nulled nulled_trans).
  { apply (preserves_read nulled nulled_refl). }
  intros [|]; [apply (preserves_raise nulled nulled_refl)|].
  apply (preserves_bind nulled nulled_trans); [apply nulled_setattr|].
  intros _. apply IH.
Qed.

(** Whatever [unrelate] does, deferred calls included, it writes nothing
    but [None]. *)
Lemma nulled_unrelate fuel : ∀ from_instance to_instance R p,
  preserves nulled (unrelate fuel from_instance to_instance R p).
Proof.
  induction fuel as [|fuel IH]; intros [a|] [b|] R p; simpl;
    try apply (preserves_ret nulled nulled_refl);
    try apply (preserves_raise nulled nulled_refl).
  apply (preserves_bind nulled nulled_trans).
  { apply (preserves_read nulled nulled_refl). }
  intros [[f t] l]. apply (preserves_bind nulled nulled_trans).
  { apply (preserves_read nulled nulled_refl). }
  intros L. apply (preserves_bind nulled nulled_trans).
  { apply preserves_quiet_nulled, quiet__deferred_link_operation. }
  intros post. apply (preserves_bind nulled nulled_trans).
  { apply nulled_unrelate_keys. }
  intros [|]; [|apply (preserves_ret nulled nulled_refl)].
  apply (preserves_bind nulled nulled_trans);
    [|intros _; apply (preserves_ret nulled nulled_refl)].
  apply (preserves_for_each nulled nulled_refl nulled_trans).
  intros [[[fi i] r] ph]. apply (preserves_bind nulled nulled_trans); [apply IH|].
  intros _. apply (preserves_ret nulled nulled_refl).
Qed.





End ModelUnrelate.

(** ** relate in xtuml.model copies the keys *)

Section ModelNull.
Import Model.
Implicit Types (s t : State) (inst x a b : Inst) (q : qid) (m : mcid).









End ModelNull.

Section ModelStorable.
Import Model.
Implicit Types (s t : State) (inst x a b : Inst) (q : qid) (m : mcid).

(** [k] is no attribute of the class in any letter case, or it is an
    attribute as its declaration spells it: [k] is the key under which
    [setattr] stores it and [getattr] reads it. *)
Definition storable (mc : MetaClass.t) (k : string) : Prop :=
  match find_attribute (upper k) (MetaClass.attributes mc) with
  | Some (attr, _) => attr = k
  | None => True
  end.

Global Instance storable_dec mc k : Decision (storable mc k).
Proof.
  unfold storable. destruct (find_attribute _ _) as [[attr ty]|]; apply _.
Defined.

(** The keys of the link object [l] are storable in the class. *)
Definition link_keys_storable s (mc : MetaClass.t) (l : lid) : Prop :=
  match link_objs s !! l with
  | Some L => Forall (storable mc) (dict_keys (Link.key_map L))
  | None => True
  end.

Global Instance link_keys_storable_dec s mc l : Decision (link_keys_storable s mc l).
Proof. unfold link_keys_storable. destruct (link_objs s !! l); apply _. Defined.









End ModelStorable.

Section ModelFilled.
Import Model.
Implicit Types (s t : State) (inst x a b : Inst) (q : qid) (m : mcid).












End ModelFilled.

Section ModelRelateCopies.
Import Model.
Implicit Types (s t : State) (inst x a b : Inst) (q : qid) (m : mcid).






End ModelRelateCopies.

(** ** Referential attributes across relate and unrelate *)

Section ReferentialAttributes.



End ReferentialAttributes.

(** * Further properties of xtuml.meta *)

Section MetaMutations.
Import Meta.
Implicit Types (s : State) (a b x y z inst : Inst) (l : lid).

(** X1. [relate] and [unrelate] write to link objects only: whether they
    return or raise, the metaclasses (their pools and caches), the query
    objects, the instance dictionaries, the metamodel and the allocation
    counter are as before. *)
Theorem relate_unrelate_write_links_only from_instance to_instance R p s :
  off_links s (relate from_instance to_instance R p s).1 ∧
  off_links s (unrelate from_instance to_instance R p s).1.
Proof. split; [apply relate_off_links|apply unrelate_off_links]. Qed.

(** X3. [MetaClass.delete] of an instance that is not in the pool of its
    metaclass raises [DeleteException] and changes nothing. *)
Theorem delete_absent_raises s x mc :
  metaclass_objs s !! inst_class x = Some mc →
  x ∉ MetaClass.storage mc →
  delete x s = (s, Raise DeleteException).
Proof. apply delete_absent. Qed.

(** X4. [MetaClass.new] on a class without referential attributes: when
    it returns, the instance is a new object, it stands at the end of the
    pool, which is otherwise as before, and the cache of the class is
    empty. *)
Theorem new_appends_to_pool s self args kwargs mc s' inst :
  metaclass_objs s !! self = Some mc →
  MetaClass.referential_attributes mc = ∅ →
  new self args kwargs s = (s', Ok inst) →
  inst = mkInst (next_object s) self ∧
  ∃ mc', metaclass_objs s' !! self = Some mc' ∧
         MetaClass.storage mc' = MetaClass.storage mc ++ [inst] ∧
         MetaClass.cache mc' = ∅.
Proof.
  intros Hmc Href Hrun.
  destruct (new_clears_cache s self args kwargs mc s' inst Hmc Href Hrun)
    as [-> (mc'&?&?&?&?)].
  split; [done|]. by exists mc'.
Qed.

(** X5. [Link.disconnect] reports whether the other instance was a
    neighbour, takes exactly that one out of the neighbours of the
    instance, and leaves every other instance's neighbours and the
    attributes of the link as they are. *)
Theorem disconnect_removes_the_neighbour (L : Link.t) a b x :
  (Link.disconnect L a b).2 = bool_decide (b ∈ Link.navigate L a) ∧
  Link.navigate (Link.disconnect L a b).1 x =
    (if bool_decide (x = a) then Link.navigate L a ∖ {[b]} else Link.navigate L x) ∧
  Link.set_dict (Link.disconnect L a b).1 ∅ = Link.set_dict L ∅.
Proof.
  split; [apply Link_disconnect_result|]. split; [|apply Link_disconnect_schema].
  rewrite Link_disconnect_navigate, Link_disconnect_result.
  case_bool_decide as Hb; simpl; [done|].
  case_bool_decide as Hx; [|done]. subst x. set_solver.
Qed.
End MetaMutations.

Section MetaMutationsWitness.
Import Meta Kennel.

(** Ann is not a dog of the pool of Person twice: once deleted, she
    cannot be deleted again. *)
Lemma delete_absent_raises_kennel :
  delete ann (delete ann s0).1 = ((delete ann s0).1, Raise DeleteException).
Proof.
  apply (delete_absent_raises (delete ann s0).1 ann
           (default (MetaClass.init "" false)
                    (metaclass_objs (delete ann s0).1 !! person))).
  - vm_compute. reflexivity.
  - refine (bool_decide_unpack _ _). vm_compute. exact I.
Defined.

Lemma new_appends_to_pool_kennel :
  mkInst 8 person = mkInst (next_object s0) person ∧
  ∃ mc', metaclass_objs (new person [] [("name", VStr "Cy")] s0).1 !! person
           = Some mc' ∧
         MetaClass.storage mc' =
           MetaClass.storage
             (default (MetaClass.init "" false) (metaclass_objs s0 !! person))
           ++ [mkInst 8 person] ∧
         MetaClass.cache mc' = ∅.
Proof.
  apply (new_appends_to_pool s0 person [] [("name", VStr "Cy")]
           (default (MetaClass.init "" false) (metaclass_objs s0 !! person))
           (new person [] [("name", VStr "Cy")] s0).1 (mkInst 8 person)).
  - vm_compute. reflexivity.
  - vm_compute. reflexivity.
  - vm_compute. reflexivity.
Defined.
End MetaMutationsWitness.

Section MetaQueriesAndSchema.
Import Meta.
Implicit Types (s : State) (a b x y z inst : Inst) (l : lid) (m : mcid).

Lemma frozenset_Permutation (kw kw' : list (string * value)) :
  kw ≡ₚ kw' → frozenset kw = frozenset kw'.
Proof.
  intros H. unfold frozenset. apply set_eq. intros x.
  rewrite !elem_of_list_to_set, !list_elem_of_fmap.
  split.
  - intros (y&?&Hy). exists y. split; [done|]. by rewrite <- H.
  - intros (y&?&Hy). exists y. split; [done|]. by rewrite H.
Qed.

(** X6. [MetaClass.query] caches the query under the set of its items:
    asking again with the same items, in any order, hands out the same
    query object and changes nothing. *)
Theorem query_twice_same_object s m kw kw' s1 (q : qid) :
  MetaClass_query m kw s = (s1, Ok q) →
  kw' ≡ₚ kw →
  MetaClass_query m kw' s1 = (s1, Ok q).
Proof.
  intros Hrun Hperm. unfold MetaClass_query in Hrun |- *.
  rewrite (frozenset_Permutation kw' kw Hperm).
  apply bind_ok_inv in Hrun as (t&mc&H1&Hrun).
  unfold read, the_metaclass in H1.
  destruct (metaclass_objs s !! m) as [mc0|] eqn:Hmc; [|done].
  injection H1 as <- <-.
  destruct (MetaClass.cache mc0 !! frozenset kw) as [q0|] eqn:Hc.
  - unfold ret in Hrun. injection Hrun as <- <-.
    rewrite (bind_ok _ _ s s mc0) by (unfold read, the_metaclass; by rewrite Hmc).
    by rewrite Hc.
  - apply bind_ok_inv in Hrun as (t1&o&H1&Hrun).
    unfold alloc in H1. injection H1 as <- <-.
    apply bind_ok_inv in Hrun as (t2&[]&H2&Hrun).
    unfold update_query in H2. injection H2 as <-.
    apply bind_ok_inv in Hrun as (t3&[]&H3&Hrun).
    unfold update_metaclass in H3. simpl in H3. rewrite Hmc in H3.
    injection H3 as <-. unfold ret in Hrun. injection Hrun as <- <-.
    match goal with |- bind _ _ ?t = _ =>
      rewrite (bind_ok _ _ t t
                 (MetaClass.set_cache mc0 (<[frozenset kw := next_object s]>
                                             (MetaClass.cache mc0))))
    end.
    + simpl. by rewrite lookup_insert_eq.
    + unfold read, the_metaclass. simpl. by rewrite lookup_insert_eq.
Qed.

(** X9. [_is_null] knows a null value for UNIQUE_ID and for STRING only:
    an attribute of another declared type that holds a value other than
    [None] is not null, be the value zero or false. *)
Theorem not_null_outside_id_and_string s inst name v mc attr ty :
  getattr s inst name = Ok v → v ≠ VNone →
  metaclass_objs s !! inst_class inst = Some mc →
  find_attribute (upper name) (MetaClass.attributes mc) = Some (attr, ty) →
  upper ty ≠ "UNIQUE_ID" → upper ty ≠ "STRING" →
  _is_null s inst name = Ok false.
Proof.
  intros Hv Hne Hmc Hattr H1 H2. unfold _is_null. rewrite Hv.
  destruct (truthy v); [done|].
  rewrite (bool_decide_eq_false_2 _ Hne).
  unfold the_metaclass. rewrite Hmc, Hattr.
  by rewrite (bool_decide_eq_false_2 _ H1), (bool_decide_eq_false_2 _ H2).
Qed.

Lemma delete_first_named_app name ty (attributes : list (string * string)) :
  name ∉ attributes.*1 →
  delete_first_named name (attributes ++ [(name, ty)]) = attributes.
Proof.
  induction attributes as [|[n t] attributes IH]; intros Hin; simpl.
  - by rewrite bool_decide_eq_true_2.
  - apply not_elem_of_cons in Hin as [Hne Hin]. simpl in Hne.
    rewrite bool_decide_eq_false_2 by done. by rewrite IH.
Qed.

(** X11. [append_attribute] followed by [delete_attribute] of the same
    name gives back the attributes, when no attribute had that very name
    before; names are compared as they are, not in upper case. *)
Theorem append_then_delete_attribute s self name ty mc :
  metaclass_objs s !! self = Some mc →
  name ∉ (MetaClass.attributes mc).*1 →
  (_ <- append_attribute self name ty; delete_attribute self name) s = (s, Ok ()).
Proof.
  intros Hmc Hin. unfold append_attribute, delete_attribute.
  set (mc1 := MetaClass.set_attributes mc (MetaClass.attributes mc ++ [(name, ty)])).
  assert (MetaClass.set_attributes mc1
            (delete_first_named name (MetaClass.attributes mc1)) = mc) as E.
  { unfold mc1. simpl. rewrite (delete_first_named_app name ty _ Hin).
    by destruct mc. }
  rewrite (bind_ok _ _ s _ ()) by exact (update_metaclass_unfold _ _ s mc Hmc).
  rewrite (update_metaclass_unfold _ _ _ _ (lookup_insert_eq _ _ _)).
  cbv beta. fold mc1. rewrite E. unfold set_metaclass_objs. simpl.
  rewrite insert_insert_eq, insert_id by done. by destruct s.
Qed.
End MetaQueriesAndSchema.

Section MetaQueriesAndSchemaWitness.
Import Meta Kennel.

Lemma query_twice_same_object_kennel :
  MetaClass_query dog [("owner_id", VNone); ("name", VStr "Rex")]
    (MetaClass_query dog [("name", VStr "Rex"); ("owner_id", VNone)] s0).1 =
  ((MetaClass_query dog [("name", VStr "Rex"); ("owner_id", VNone)] s0).1, Ok 8%nat).
Proof.
  apply (query_twice_same_object s0 dog [("name", VStr "Rex"); ("owner_id", VNone)]).
  - etrans; [exact (surjective_pairing _)|]. apply (f_equal (pair _)).
    vm_compute. reflexivity.
  - apply perm_swap.
Defined.

(** The id 0 is null; the number 0 is not. *)
Lemma not_null_outside_id_and_string_kennel :
  _is_null ((_ <- append_attribute dog "age" "INTEGER"; setattr rex "age" (VInt 0)) s0).1
           rex "age" = Ok false.
Proof.
  apply (not_null_outside_id_and_string _ rex "age" (VInt 0)
           (default (MetaClass.init "" false)
              (metaclass_objs
                 ((_ <- append_attribute dog "age" "INTEGER";
                   setattr rex "age" (VInt 0)) s0).1 !! dog))
           "age" "INTEGER").
  - vm_compute. reflexivity.
  - discriminate.
  - vm_compute. reflexivity.
  - vm_compute. reflexivity.
  - vm_compute. discriminate.
  - vm_compute. discriminate.
Defined.

Lemma append_then_delete_attribute_kennel :
  (_ <- append_attribute dog "age" "INTEGER"; delete_attribute dog "age") s0
    = (s0, Ok ()).
Proof.
  apply (append_then_delete_attribute s0 dog "age" "INTEGER"
           (default (MetaClass.init "" false) (metaclass_objs s0 !! dog))).
  - vm_compute. reflexivity.
  - refine (bool_decide_unpack _ _). vm_compute. exact I.
Defined.
End MetaQueriesAndSchemaWitness.

Section MetaNames.
Import Meta.
Implicit Types (s : State) (a b x y z inst : Inst) (l : lid) (m : mcid).

Lemma find_attribute_cons uname attr ty (attributes : list (string * string)) :
  find_attribute uname ((attr, ty) :: attributes) =
    if bool_decide (upper attr = uname) then Some (attr, ty)
    else find_attribute uname attributes.
Proof.
  unfold find_attribute. simpl. case_decide as E; simpl.
  - by rewrite bool_decide_eq_true_2.
  - rewrite bool_decide_eq_false_2 by done.
    by destruct (list_find _ attributes) as [[i x]|].
Qed.

(** [Class.__getattr__] finds the value stored under the first declared
    attribute of that name. *)
Lemma Class_getattr_found uname (attributes : list (string * string))
    (d : gmap string value) attr ty v :
  find_attribute uname attributes = Some (attr, ty) →
  d !! attr = Some v →
  Class_getattr uname attributes d = Ok v.
Proof.
  induction attributes as [|[a t] attributes IH]; [done|].
  rewrite find_attribute_cons. simpl. case_bool_decide as E.
  - intros [= -> ->] Hd. by rewrite Hd.
  - apply IH.
Qed.

(** X8. What [setattr] writes under a declared attribute, in any letter
    case of the name, [getattr] reads back in any letter case: for a name
    that no getter on the class answers and that is the declared name or
    no key of the instance dictionary. *)
Theorem setattr_then_getattr s inst name name' v mc attr ty :
  metaclass_objs s !! inst_class inst = Some mc →
  find_attribute (upper name) (MetaClass.attributes mc) = Some (attr, ty) →
  upper name' = upper name →
  MetaClass.clazz mc !! name' = None →
  name' = attr ∨ inst_dict s inst !! name' = None →
  getattr (setattr inst name v s).1 inst name' = Ok v.
Proof.
  intros Hmc Hattr Hup Hprop Hkey.
  rewrite (setattr_declared s inst name v mc attr ty Hmc Hattr).
  unfold getattr. change recursion_limit with (S 999). simpl.
  rewrite lookup_insert_eq. simpl. rewrite Hprop.
  unfold inst_dict. simpl. rewrite lookup_insert_eq. simpl.
  destruct (decide (name' = attr)) as [->|Hne].
  - by rewrite lookup_insert_eq.
  - destruct Hkey as [?|Hkey]; [done|].
    rewrite lookup_insert_ne by done.
    unfold inst_dict in Hkey. rewrite Hkey, Hup.
    apply (Class_getattr_found _ _ _ attr ty); [done|].
    by rewrite lookup_insert_eq.
Qed.

Lemma dict_get_set_eq {V} (k : string) (v : V) (d : list (string * V)) :
  dict_get k (dict_set k v d) = Some v.
Proof.
  induction d as [|[k' v'] d IH]; simpl.
  - by rewrite decide_True.
  - case_decide as E; simpl; [by rewrite decide_True|].
    by rewrite decide_False.
Qed.

(** X10. A class that [define_class] has defined is found by
    [find_metaclass] under its kind in any letter case, and a second
    definition under such a kind raises [MetaModelException] and changes
    nothing. *)
Theorem define_class_then_find s kind attributes s1 (m : mcid) :
  define_class kind attributes s = (s1, Ok m) →
  ∀ kind' attributes',
    upper kind' = upper kind →
    find_metaclass s1 kind' = Ok m ∧
    define_class kind' attributes' s1 = (s1, Raise MetaModelException).
Proof.
  intros Hrun kind' attributes' Hup.
  unfold define_class in Hrun.
  apply bind_ok_inv in Hrun as (t0&mm&H0&Hrun).
  unfold read in H0. injection H0 as <- <-.
  case_bool_decide as Hnew; [done|].
  apply bind_ok_inv in Hrun as (t1&o&H1&Hrun).
  apply bind_ok_inv in Hrun as (t2&[]&H2&Hrun).
  apply bind_ok_inv in Hrun as (t3&[]&H3&Hrun).
  apply bind_ok_inv in Hrun as (t4&[]&H4&Hrun).
  unfold ret in Hrun. injection Hrun as <- <-.
  unfold alloc in H1. injection H1 as <- <-. injection H2 as <-.
  apply (for_each_invariant (λ t, metamodel t = metamodel s)) in H3; [|..|done].
  2:{ intros [n ty] t t' Ht Hb. unfold append_attribute, update_metaclass in Hb.
      destruct (metaclass_objs t !! next_object s); [|done].
      by injection Hb as <-. }
  unfold update_metamodel in H4. injection H4 as <-. rewrite H3.
  assert (dict_get (upper kind')
            (MetaModel.metaclasses
               (metamodel (set_metamodel t3
                  (MetaModel.mk
                     (dict_set (upper kind) (next_object s)
                        (MetaModel.metaclasses (metamodel s)))
                     (MetaModel.associations (metamodel s))
                     (MetaModel.id_generator (metamodel s))))))
          = Some (next_object s)) as Hget.
  { simpl. rewrite Hup. apply dict_get_set_eq. }
  split.
  - unfold find_metaclass. by rewrite Hget.
  - unfold define_class. unfold bind at 1, read.
    rewrite bool_decide_eq_true_2; [done|]. rewrite Hget. by eexists.
Qed.
End MetaNames.

Section MetaNamesWitness.
Import Meta Kennel.

Lemma setattr_then_getattr_kennel :
  getattr (setattr rex "Name" (VStr "Max") s0).1 rex "NAME" = Ok (VStr "Max").
Proof.
  apply (setattr_then_getattr s0 rex "Name" "NAME" (VStr "Max")
           (default (MetaClass.init "" false) (metaclass_objs s0 !! dog))
           "name" "STRING").
  - vm_compute. reflexivity.
  - vm_compute. reflexivity.
  - vm_compute. reflexivity.
  - vm_compute. reflexivity.
  - right. vm_compute. reflexivity.
Defined.

Lemma define_class_then_find_kennel :
  find_metaclass (define_class "Cat" [("name", "STRING")] s0).1 "CAT" = Ok 8%nat ∧
  define_class "CAT" [] (define_class "Cat" [("name", "STRING")] s0).1
    = ((define_class "Cat" [("name", "STRING")] s0).1, Raise MetaModelException).
Proof.
  apply (define_class_then_find s0 "Cat" [("name", "STRING")]).
  - etrans; [exact (surjective_pairing _)|]. apply (f_equal (pair _)).
    vm_compute. reflexivity.
  - vm_compute. reflexivity.
Defined.
End MetaNamesWitness.

Section MetaRoundTrip.
Import Meta.
Implicit Types (s : State) (a b x y z inst : Inst) (l : lid) (m : mcid).

(** One [disconnect] on a link object of the store. *)
Lemma disconnect_on s l L x y :
  link_objs s !! l = Some L →
  ∃ s', on_link l (λ L, Link.disconnect L x y) s
          = (s', Ok (bool_decide (y ∈ neighbours s l x))) ∧
        same_schema s s' ∧
        ∀ l' z, neighbours s' l' z =
                  if bool_decide (l' = l) && bool_decide (z = x)
                  then neighbours s l x ∖ {[y]}
                  else neighbours s l' z.
Proof.
  intros HL. eexists. split; [|split].
  - rewrite (on_link_unfold l (λ L, Link.disconnect L x y) s L HL).
    by rewrite Link_disconnect_result, (neighbours_lookup _ _ _ _ HL).
  - pose proof (same_schema_on_link l (λ L, Link.disconnect L x y) s) as H.
    rewrite (on_link_unfold _ _ _ _ HL) in H. apply H.
    intros L0. exact (Link_disconnect_schema L0 x y).
  - intros l' z.
    pose proof (neighbours_on_link l (λ L, Link.disconnect L x y) s L l' z HL) as H.
    rewrite (on_link_unfold _ _ _ _ HL) in H. simpl in H. rewrite H.
    case_bool_decide as Hl; simpl; [|done]. subst l'.
    rewrite Link_disconnect_navigate, Link_disconnect_result.
    rewrite !(neighbours_lookup _ _ _ _ HL).
    case_bool_decide as Hy; simpl; [done|].
    case_bool_decide as Hz; [|done]. subst z. set_solver.
Qed.

(** The neighbours after a [relate] that has returned, on an association
    whose two links are two objects. *)
Lemma relate_neighbours s s1 a b R p r i1 i2 ass :
  relate (Some a) (Some b) R p s = (s1, Ok r) →
  _find_link s a b R p = Ok (i1, i2, ass) →
  Association.source_link ass ≠ Association.target_link ass →
  ∀ l z, neighbours s1 l z =
           if bool_decide (l = Association.target_link ass) && bool_decide (z = i2)
           then neighbours s (Association.target_link ass) i2 ∪ {[i1]}
           else if bool_decide (l = Association.source_link ass)
                   && bool_decide (z = i1)
           then neighbours s (Association.source_link ass) i1 ∪ {[i2]}
           else neighbours s l z.
Proof.
  intros Hrun Hf Hne. rewrite (relate_unfold _ _ _ _ _ _ _ _ Hf) in Hrun.
  unfold bind at 1 in Hrun.
  destruct (link_objs s !! Association.source_link ass) as [L1|] eqn:HL1.
  2:{ unfold on_link in Hrun. by rewrite HL1 in Hrun. }
  destruct (connect_on s _ L1 i1 i2 true HL1) as (s'&E1&Hs1&Hn1&_).
  rewrite E1 in Hrun. destruct (Link.connect L1 i1 i2 true).2 eqn:R1; [|done].
  simpl in Hrun. unfold bind at 1 in Hrun.
  destruct (link_objs s' !! Association.target_link ass) as [L2|] eqn:HL2.
  2:{ unfold on_link in Hrun. by rewrite HL2 in Hrun. }
  destruct (connect_on s' _ L2 i2 i1 true HL2) as (s''&E2&Hs2&Hn2&_).
  rewrite E2 in Hrun. destruct (Link.connect L2 i2 i1 true).2 eqn:R2; [|done].
  simpl in Hrun. unfold ret in Hrun. injection Hrun as <- <-.
  intros l z. rewrite Hn2, andb_true_r.
  rewrite !Hn1, !andb_true_r.
  rewrite (bool_decide_eq_false_2 (Association.target_link ass
                                   = Association.source_link ass)) by done.
  simpl. rewrite andb_comm. simpl.
  destruct (bool_decide (l = Association.target_link ass)); simpl; [|done].
  by destruct (bool_decide (z = i2)).
Qed.

(** X7. [relate] and then [unrelate] of the same pair: on an association
    whose two links are two objects, and for a pair that was not related
    before, [unrelate] returns [True] and every navigation yields what it
    yielded before the [relate]. *)
Theorem relate_then_unrelate s s1 a b R p r i1 i2 ass :
  relate (Some a) (Some b) R p s = (s1, Ok r) →
  _find_link s a b R p = Ok (i1, i2, ass) →
  Association.source_link ass ≠ Association.target_link ass →
  i2 ∉ neighbours s (Association.source_link ass) i1 →
  i1 ∉ neighbours s (Association.target_link ass) i2 →
  ∃ s2, unrelate (Some a) (Some b) R p s1 = (s2, Ok true) ∧
        off_links s s2 ∧
        ∀ l z, neighbours s2 l z = neighbours s l z.
Proof.
  intros Hrun Hf Hne Hout2 Hout1.
  pose proof (relate_neighbours _ _ _ _ _ _ _ _ _ _ Hrun Hf Hne) as N1.
  pose proof (relate_off_links (Some a) (Some b) R p s) as Hoff1.
  rewrite Hrun in Hoff1. simpl in Hoff1.
  apply relate_ok_inv in Hrun as (_&Hs&j1&j2&ass'&Hf'&Hin2&Hin1&_).
  rewrite Hf in Hf'. injection Hf' as <- <- <-.
  destruct (_find_link_schema s s1 a b R p Hs) as [Hf1 _]. rewrite Hf in Hf1.
  pose proof (unrelate_off_links (Some a) (Some b) R p s1) as Hoff2.
  unfold unrelate in Hoff2 |- *. unfold bind at 1, read in Hoff2.
  unfold bind at 1, read. rewrite Hf1 in Hoff2 |- *.
  set (src := Association.source_link ass) in *.
  set (tgt := Association.target_link ass) in *.
  destruct (link_objs s1 !! src) as [L1|] eqn:HL1.
  2:{ unfold neighbours in Hin2. rewrite HL1 in Hin2. set_solver. }
  destruct (disconnect_on s1 src L1 i1 i2 HL1) as (s'&E1&Hs1&Hn1).
  unfold bind at 1 in Hoff2. unfold bind at 1. rewrite E1 in Hoff2 |- *.
  rewrite (bool_decide_eq_true_2 _ Hin2) in Hoff2 |- *. simpl in Hoff2 |- *.
  assert (i1 ∈ neighbours s' tgt i2) as Hin1'.
  { rewrite Hn1. rewrite (bool_decide_eq_false_2 (tgt = src)) by done. done. }
  destruct (link_objs s' !! tgt) as [L2|] eqn:HL2.
  2:{ unfold neighbours in Hin1'. rewrite HL2 in Hin1'. set_solver. }
  destruct (disconnect_on s' tgt L2 i2 i1 HL2) as (s2&E2&Hs2&Hn2).
  unfold bind at 1 in Hoff2. unfold bind at 1. rewrite E2 in Hoff2 |- *.
  rewrite (bool_decide_eq_true_2 _ Hin1') in Hoff2 |- *. simpl in Hoff2 |- *.
  exists s2. split; [done|]. split; [by eapply off_links_trans|].
  intros l z. rewrite Hn2, !Hn1, !N1.
  rewrite (bool_decide_eq_false_2 (tgt = src)) by done. simpl.
  rewrite !(bool_decide_eq_true_2 (tgt = tgt)), !(bool_decide_eq_true_2 (i2 = i2))
    by done.
  rewrite !(bool_decide_eq_true_2 (src = src)), !(bool_decide_eq_true_2 (i1 = i1))
    by done.
  rewrite (bool_decide_eq_false_2 (src = tgt)) by done. simpl.
  destruct (bool_decide (l = tgt)) eqn:El; simpl.
  - apply bool_decide_eq_true in El. subst l.
    destruct (bool_decide (z = i2)) eqn:Ez; simpl.
    + apply bool_decide_eq_true in Ez. subst z. set_solver.
    + rewrite (bool_decide_eq_false_2 (tgt = src)) by done. done.
  - destruct (bool_decide (l = src)) eqn:El'; simpl; [|done].
    apply bool_decide_eq_true in El'. subst l.
    destruct (bool_decide (z = i1)) eqn:Ez; simpl; [|done].
    apply bool_decide_eq_true in Ez. subst z. set_solver.
Qed.
End MetaRoundTrip.

Section MetaRoundTripWitness.
Import Meta Kennel.

Lemma relate_then_unrelate_kennel :
  ∃ s2, unrelate (Some rex) (Some ann) (RInt 1) "" s1 = (s2, Ok true) ∧
        off_links s0 s2 ∧
        ∀ l z, neighbours s2 l z = neighbours s0 l z.
Proof.
  apply (relate_then_unrelate s0 s1 rex ann (RInt 1) "" true ann rex R1).
  - vm_compute. reflexivity.
  - vm_compute. reflexivity.
  - vm_compute. discriminate.
  - vm_compute. intros H. discriminate.
  - vm_compute. intros H. discriminate.
Defined.
End MetaRoundTripWitness.

(** * Further properties of xtuml.model and of the schema generator *)

Section ModelExtras.
Import Model.
Implicit Types (s t : State) (inst x a b : Inst) (q : qid) (m : mcid).

(** X12. Navigating in [xtuml.model] runs queries: [MetaClass.query],
    [Link.navigate], [MetaClass.navigate], a navigation chain iterated to
    its end, and the collection of the deferred operations change caches,
    query objects and the allocation counter only, whether they return or
    raise; no attribute is written, and links and classes are as before. *)
Theorem navigation_writes_no_attribute inst kind R p m kwargs L s :
  quiet s (MetaClass_query m kwargs s).1 ∧
  quiet s (Link_navigate L inst s).1 ∧
  quiet s (MetaClass_navigate m inst kind R p s).1 ∧
  quiet s (navigate_many_nav inst kind R p s).1 ∧
  quiet s (_deferred_link_operation inst L s).1.
Proof.
  split; [apply quiet_MetaClass_query|].
  split; [apply quiet_Link_navigate|].
  split; [apply quiet_MetaClass_navigate|].
  split; [apply quiet_navigate_many_nav|apply quiet__deferred_link_operation].
Qed.

(** X13. Whatever [unrelate] of [xtuml.model] does, the deferred calls
    included, and whether it returns or raises: links and classes are as
    before, and every entry of every instance dictionary is as before or
    is [None]. *)
Theorem unrelate_writes_None_only fuel from_instance to_instance R p s :
  nulled s (unrelate fuel from_instance to_instance R p s).1.
Proof. apply nulled_unrelate. Qed.

(** X14. [relate] of [xtuml.model] on an instance that is related to
    another one already: when the first key of the link differs and the
    referential attribute is not null, the call raises [ModelException]
    (unless collecting the deferred operations raises before) and writes
    no attribute. *)
Theorem relate_second_target_raises_model s a b R p from_instance to_instance
    l L from_name to_name rest v1 v2 fuel :
  _find_link s a b R p = Ok (from_instance, to_instance, l) →
  link_objs s !! l = Some L →
  Link.key_map L = (from_name, to_name) :: rest →
  _is_null s to_instance to_name = Ok false →
  getattr s from_instance from_name = Ok v1 →
  getattr s to_instance to_name = Ok v2 →
  py_eq v1 v2 = false →
  _is_null s from_instance from_name = Ok false →
  relate (S fuel) (Some a) (Some b) R p s =
    (_ <- _deferred_link_operation from_instance L;
     raise ModelException : M bool) s ∧
  quiet s (relate (S fuel) (Some a) (Some b) R p s).1.
Proof.
  intros Hf HL Hkm Hnt H1 H2 Hne Hnf.
  assert (relate (S fuel) (Some a) (Some b) R p s =
            (_ <- _deferred_link_operation from_instance L;
             raise ModelException : M bool) s) as E.
  { simpl.
    rewrite (bind_ok _ _ s s (from_instance, to_instance, l))
      by (unfold read; by rewrite Hf).
    rewrite (bind_ok _ _ s s L) by (unfold read, the_link; by rewrite HL).
    pose proof (quiet__deferred_link_operation from_instance L s) as Hq.
    destruct (_deferred_link_operation from_instance L s) as [s1 [post|e]] eqn:E.
    2:{ by rewrite !(bind_raise _ _ s s1 e E). }
    rewrite !(bind_ok _ _ s s1 post E). simpl in Hq.
    rewrite (bind_raise _ _ s1 s1 ModelException); [done|].
    rewrite Hkm. simpl.
    rewrite (bind_ok _ _ s1 s1 false)
      by (unfold read; by rewrite (_is_null_quiet s s1), Hnt).
    rewrite (bind_ok _ _ s1 s1 v1)
      by (unfold read; by rewrite (getattr_quiet s s1), H1).
    rewrite (bind_ok _ _ s1 s1 v2)
      by (unfold read; by rewrite (getattr_quiet s s1), H2).
    rewrite Hne.
    by rewrite (bind_ok _ _ s1 s1 false)
      by (unfold read; by rewrite (_is_null_quiet s s1), Hnf). }
  split; [done|]. rewrite E. unfold bind.
  pose proof (quiet__deferred_link_operation from_instance L s) as Hq.
  by destruct (_deferred_link_operation from_instance L s) as [s1 [post|e]].
Qed.

(** X15. What [BaseObject.__setattr__] writes under a declared attribute,
    in any letter case of the name, [getattr] reads back under the
    declared name, and under any other letter case that is neither a key
    of the instance dictionary nor a declared name itself. *)
Theorem setattr_then_getattr_model s inst name name' v mc attr ty :
  metaclass_objs s !! inst_class inst = Some mc →
  find_attribute (upper name) (MetaClass.attributes mc) = Some (attr, ty) →
  upper name' = upper name →
  name' = attr ∨ (inst_dict s inst !! name' = None ∧ name' ∉ MetaClass.clazz mc) →
  getattr (setattr inst name v s).1 inst name' = Ok v.
Proof.
  intros Hmc Hattr Hup Hkey. unfold setattr.
  rewrite (bind_ok _ _ s s mc) by (unfold read, the_metaclass; by rewrite Hmc).
  rewrite Hattr. unfold bind, dict_store, update_metaclass. simpl. rewrite Hmc.
  unfold getattr, inst_dict. simpl. rewrite !lookup_insert_eq. simpl.
  destruct (decide (name' = attr)) as [->|Hne].
  - by rewrite lookup_insert_eq.
  - destruct Hkey as [?|[Hkey Hcl]]; [done|].
    rewrite lookup_insert_ne by done. unfold inst_dict in Hkey. rewrite Hkey.
    rewrite bool_decide_eq_false_2 by done.
    by rewrite Hup, Hattr, lookup_insert_eq.
Qed.
End ModelExtras.

Section Cardinality.
Import GenSqlSchema.

(** X2. The cardinality string that the schema generator writes for an
    association end is the one [Link.cardinality] gives for a link with
    these flags, in [xtuml.meta] and in [xtuml.model], and the string
    tells both flags. *)
Theorem mult_cond_is_cardinality :
  (∀ L, mult_cond (Meta.Link.many L) (Meta.Link.conditional L)
        = Meta.Link.cardinality L) ∧
  (∀ L, mult_cond (Model.Link.many L) (Model.Link.conditional L)
        = Model.Link.cardinality L) ∧
  (∀ mult cond mult' cond',
     mult_cond mult cond = mult_cond mult' cond' → mult = mult' ∧ cond = cond').
Proof.
  split; [done|]. split; [done|].
  by intros [] [] [] [].
Qed.
End Cardinality.

Section ModelExtrasWitness.
Import Model ModelKennel.

(** Rex is Ann's; Bob cannot have him. *)
Lemma relate_second_target_raises_model_kennel :
  relate 1 (Some rex) (Some bob) (RInt 1) "" s1 =
    (_ <- _deferred_link_operation rex
            (Link.init dog (RInt 1) person [("owner_id", "id")] "" false false);
     raise ModelException : M bool) s1 ∧
  quiet s1 (relate 1 (Some rex) (Some bob) (RInt 1) "" s1).1.
Proof.
  apply (relate_second_target_raises_model s1 rex bob (RInt 1) "" rex bob 2%nat
           (Link.init dog (RInt 1) person [("owner_id", "id")] "" false false)
           "owner_id" "id" [] (VInt 42) (VInt 43) 0%nat).
  - vm_compute. reflexivity.
  - vm_compute. reflexivity.
  - reflexivity.
  - vm_compute. reflexivity.
  - vm_compute. reflexivity.
  - vm_compute. reflexivity.
  - vm_compute. reflexivity.
  - vm_compute. reflexivity.
Defined.

Lemma setattr_then_getattr_model_kennel :
  getattr (setattr rex "Name" (VStr "Max") s0).1 rex "NAME" = Ok (VStr "Max").
Proof.
  apply (setattr_then_getattr_model s0 rex "Name" "NAME" (VStr "Max")
           (default (MetaClass.init "" false) (metaclass_objs s0 !! dog))
           "name" "STRING").
  - vm_compute. reflexivity.
  - vm_compute. reflexivity.
  - vm_compute. reflexivity.
  - right. split; [vm_compute; reflexivity|].
    refine (bool_decide_unpack _ _). vm_compute. exact I.
Defined.
End ModelExtrasWitness.
